(** * GhostTyper: the typing engine of [Main.py]

    A shallow embedding of [TypingEngine] and [TypingWorker] (src/Main.py)
    and the properties of the cadence calculation, the mistake generator,
    the correction maneuver and the main loop; then of [_sleep] read
    against a clock, of [GeminiParaphraser] and [ParaphraseWorker], and of
    the slots of [MainWindow] with the two hotkey handlers.

    Conventions of the embedding.
    - A Python [str] is a list of characters; a character is a Latin-1 code
      point, held in an [ascii] (code points 0..255). The Unicode predicates
      [str.isalpha], [str.lower] and the whitespace of [str.split()] are
      written out for that range.
    - Python [int]s are [Z].
    - Python [float] expressions are written once, over the interface
      [PyFloat], and read in two ways: [Q] (exact arithmetic, the reading in
      which the delay formulas are stated) and [float] (IEEE binary64, what
      CPython computes).
    - The module [random] is an oracle: a stream of raw draws, consumed one
      per call, from which each function derives its value as CPython does.
    - The keyboard controller, the Qt signals and [_sleep] are recorded as a
      trace of events, in the order in which the engine performs them.
    - [is_stopped] is written by the control thread. The request arrives at
      a logical time, counted in events of the trace; the flag is never
      reset during a run.
    - In the module [Clock] the two flags are functions of the time and
      each [time.sleep(0.1)] takes the time the world gives it.
    - The environment variable, the Gemini library and the service are
      parameters of the paraphraser, given by what they return or raise.
    - The window is the record of the attributes its slots read and write;
      Qt delivers an action to the slot connected to it, a disabled widget
      does not react, and a slider keeps its value within its range.
    - Texts that are not Latin-1 (the statuses and log lines with their
      pictographs) are constructors of an inductive type. *)

From Stdlib Require Import Ascii String.
From Stdlib Require Import ZArith QArith Qabs Qminmax List Bool Lia Lqa Floats.
From Stdlib Require Import Sorted Qround.
Import ListNotations.

Set Warnings "-inexact-float".
#[local] Open Scope Z_scope.

(** ** Strings *)

Definition str := list ascii.

Definition py (s : string) : str := list_ascii_of_string s.

Definition ord (c : ascii) : Z := Z.of_N (N_of_ascii c).

Definition chr (n : Z) : ascii := ascii_of_N (Z.to_N n).

Definition len (s : str) : Z := Z.of_nat (length s).

Definition SPACE : ascii := " "%char.

Definition NEWLINE : ascii := "010"%char.

Definition in_range (lo hi n : Z) : bool := (lo <=? n) && (n <=? hi).

(** [str.isalpha] on one character: the letters of Latin-1. *)
Definition char_isalpha (c : ascii) : bool :=
  let n := ord c in
  in_range 65 90 n || in_range 97 122 n || (n =? 170) || (n =? 181) ||
  (n =? 186) || in_range 192 214 n || in_range 216 246 n || in_range 248 255 n.

(** [s.isalpha()]: every character alphabetic and at least one character. *)
Definition isalpha (s : str) : bool :=
  match s with
  | [] => false
  | _ => forallb char_isalpha s
  end.

(** [c.lower()] on one character of Latin-1. *)
Definition char_lower (c : ascii) : ascii :=
  let n := ord c in
  if in_range 65 90 n || in_range 192 214 n || in_range 216 222 n
  then chr (n + 32) else c.

(** The characters [str.split()] treats as whitespace. *)
Definition char_isspace (c : ascii) : bool :=
  let n := ord c in
  in_range 9 13 n || in_range 28 32 n || (n =? 133) || (n =? 160).

(** [s.count(c)] for a one-character [c]. *)
Definition count (c : ascii) (s : str) : Z :=
  Z.of_nat (length (filter (Ascii.eqb c) s)).

(** [s.split(sep)] for a one-character separator: the pieces between the
    occurrences of [sep], empty pieces included. *)
Fixpoint split (sep : ascii) (s : str) : list str :=
  match s with
  | [] => [[]]
  | c :: s' =>
      if Ascii.eqb c sep then [] :: split sep s'
      else match split sep s' with
           | [] => [[c]]
           | w :: ws => (c :: w) :: ws
           end
  end.

(** [s.split()]: the maximal runs of non-whitespace characters. *)
Fixpoint split_ws_aux (cur : str) (s : str) : list str :=
  match s with
  | [] => match cur with [] => [] | _ => [rev cur] end
  | c :: s' =>
      if char_isspace c
      then match cur with
           | [] => split_ws_aux [] s'
           | _ => rev cur :: split_ws_aux [] s'
           end
      else split_ws_aux (c :: cur) s'
  end.

Definition split_ws (s : str) : list str := split_ws_aux [] s.

(** [s.replace(c, new)] for a one-character [c]. *)
Definition replace (c : ascii) (new : str) (s : str) : str :=
  flat_map (fun x => if Ascii.eqb x c then new else [x]) s.

(** [sep.join(ws)] for a one-character separator. *)
Fixpoint join (sep : ascii) (ws : list str) : str :=
  match ws with
  | [] => []
  | [w] => w
  | w :: ws' => w ++ sep :: join sep ws'
  end.

(** [s.endswith(('.', '!', '?'))]. *)
Definition ends_sentence (s : str) : bool :=
  match rev s with
  | c :: _ => Ascii.eqb c "."%char || Ascii.eqb c "!"%char || Ascii.eqb c "?"%char
  | [] => false
  end.

Definition str_eqb (a b : str) : bool :=
  if list_eq_dec ascii_dec a b then true else false.

(** [s[:i]], [s[i:]] and [s[i]] for [0 <= i]. *)
Definition upto (i : Z) (s : str) : str := firstn (Z.to_nat i) s.

Definition from (i : Z) (s : str) : str := skipn (Z.to_nat i) s.

Definition at_index (i : Z) (s : str) : ascii := nth (Z.to_nat i) s SPACE.

(** ** Floating-point expressions *)

(** The operations the engine applies to Python floats. [of_int] is the
    conversion of an [int] operand, [lit] a decimal literal of the source,
    [to_int] is [int(x)], truncation towards zero. *)
Class PyFloat (F : Type) := {
  of_int : Z -> F;
  lit : Q -> F;
  fadd : F -> F -> F;
  fsub : F -> F -> F;
  fmul : F -> F -> F;
  fdiv : F -> F -> F;
  fneg : F -> F;
  flt : F -> F -> bool;
  fle : F -> F -> bool;
  to_int : F -> Z
}.

Declare Scope py_scope.
Delimit Scope py_scope with py.
Infix "+" := fadd : py_scope.
Infix "-" := fsub : py_scope.
Infix "*" := fmul : py_scope.
Infix "/" := fdiv : py_scope.
Infix "<?" := flt : py_scope.
Infix "<=?" := fle : py_scope.
Notation "x >=? y" := (fle y x) (at level 70) : py_scope.
Notation "x >? y" := (flt y x) (at level 70) : py_scope.

(** Exact arithmetic. *)
#[export] Instance Q_float : PyFloat Q := {
  of_int := inject_Z;
  lit := fun q => q;
  fadd := Qplus;
  fsub := Qminus;
  fmul := Qmult;
  fdiv := Qdiv;
  fneg := Qopp;
  flt := fun a b => negb (Qle_bool b a);
  fle := Qle_bool;
  to_int := fun q => Z.quot (Qnum q) (Zpos (Qden q))
}.

(** IEEE binary64. An [int] is rounded to the nearest float (an [int] too
    large for a float, for which CPython raises, becomes an infinity); a
    literal [n/d] is the correctly rounded quotient, which is the float its
    decimal text denotes. *)
Definition float_of_Z (z : Z) : float :=
  SF2Prim (binary_normalize prec emax z 0 false).

Definition Z_of_float (x : float) : Z :=
  match Prim2SF x with
  | S754_finite s m e =>
      let v := if 0 <=? e then Zpos m * 2 ^ e else Zpos m / 2 ^ (- e) in
      if s then - v else v
  | _ => 0
  end.

#[export] Instance binary64 : PyFloat float := {
  of_int := float_of_Z;
  lit := fun q => PrimFloat.div (float_of_Z (Qnum q)) (float_of_Z (Zpos (Qden q)));
  fadd := PrimFloat.add;
  fsub := PrimFloat.sub;
  fmul := PrimFloat.mul;
  fdiv := PrimFloat.div;
  fneg := PrimFloat.opp;
  flt := PrimFloat.ltb;
  fle := PrimFloat.leb;
  to_int := Z_of_float
}.

(** [max(a, b)]: the first argument unless the second is greater. *)
Definition fmax {F} `{PyFloat F} (a b : F) : F := if (b >? a)%py then b else a.

(** ** Exceptions *)

(** The exceptions the engine can raise, with the text [str(e)] gives. *)
Inductive Exception :=
| ZeroDivisionError (msg : string).

Definition str_of (e : Exception) : string :=
  match e with ZeroDivisionError msg => msg end.

Definition AVG_CHARS_PER_WORD : Z := 5.

(** ** The cadence calculation *)

Section Cadence.
Context {F : Type} `{PyFloat F}.

(** The dictionary built by [MainWindow.get_settings]. The spin box and the
    sliders give [int]s; [total_minutes] is held as a number so that a
    fraction of a minute can be given too (it only occurs multiplied by 60). *)
Record Settings := {
  total_minutes : F;
  wpm : Z;
  error_rate : Z;
  correction_delay : Z;
  thinking_chance : Z;
  thinking_duration : Z * Z;
  afk_chance : Z;
  afk_duration : Z * Z
}.

(** The attributes [_calculate_delays] sets on the engine. *)
Record CadenceProfile := {
  char_delay : F;
  wpm_jitter : F;
  word_pause : F;
  sentence_pause : F;
  paragraph_pause : F
}.

(** The local [pure_typing_time_sec] of [_calculate_delays] after the
    clamp (lines 158-163). Dividing by a zero [wpm] raises. *)
Definition pure_typing_time_sec (text : str) (settings : Settings) : Exception + F :=
  let total_chars := len text in
  let total_duration_sec := (total_minutes settings * of_int 60)%py in
  let base_wpm := wpm settings in
  if base_wpm =? 0 then inl (ZeroDivisionError "float division by zero")
  else
    let pure := ((of_int total_chars / of_int AVG_CHARS_PER_WORD)
                 / of_int base_wpm * of_int 60)%py in
    inr (if (pure >=? total_duration_sec)%py
         then (total_duration_sec * lit 0.95)%py
         else pure).

Definition _calculate_delays (text : str) (settings : Settings)
  : Exception + CadenceProfile :=
  let total_chars := len text in
  let total_duration_sec := (total_minutes settings * of_int 60)%py in
  match pure_typing_time_sec text settings with
  | inl e => inl e
  | inr pure_typing_time_sec =>
      let total_pause_time_sec :=
        (total_duration_sec - pure_typing_time_sec)%py in
      let char_delay :=
        if 0 <? total_chars
        then (pure_typing_time_sec / of_int total_chars)%py
        else lit 0.05 in
      let num_words := Z.of_nat (length (split_ws text)) in
      let num_sentences :=
        count "."%char text + count "!"%char text + count "?"%char text in
      inr {|
        char_delay := char_delay;
        wpm_jitter := (char_delay * lit 0.25)%py;
        word_pause :=
          if 0 <? num_words
          then ((total_pause_time_sec * lit 0.20) / of_int num_words)%py
          else of_int 0;
        sentence_pause :=
          if 0 <? num_sentences
          then ((total_pause_time_sec * lit 0.40) / of_int num_sentences)%py
          else of_int 0;
        paragraph_pause :=
          if 0 <? count NEWLINE text
          then ((total_pause_time_sec * lit 0.40) / of_int (count NEWLINE text))%py
          else of_int 0
      |}
  end.

End Cadence.

Arguments Settings F : clear implicits.
Arguments CadenceProfile F : clear implicits.

(** ** Effects of the engine *)

(** [keyboard.Key.left], [keyboard.Key.right], [keyboard.Key.backspace]. *)
Inductive Key := Key_left | Key_right | Key_backspace.

(** An entry of [uncorrected_errors]. *)
Record PendingError := {
  incorrect : str;
  correct : str;
  pos : Z
}.

(** The kinds [_get_mistake] chooses from. *)
Inductive MistakeType := adjacency | transposition | omission | insertion.

Section Effects.
Context {F : Type}.

(** The texts sent through [status_update], with the values they embed. *)
Inductive Message :=
| Starting_in_5_seconds
| Typing_started
| Going_back_to_fix (incorrect : str)
| Fixed
| Thinking_for (duration : F)
| AFK_break_for (duration : F)
| Typing_finished_successfully
| Typing_stopped_by_user.

(** What the engine does to the world, one event per call: the keyboard
    controller, [_sleep] and the signals of [WorkerSignals]. *)
Inductive Event :=
| kb_type (c : ascii)
| kb_press (k : Key)
| kb_release (k : Key)
| sleep (duration : F)
| status_update (m : Message)
| progress (n : Z)
| error (msg : string)
| finished.

(** The engine object during a run: the cadence attributes, the queue of
    pending errors, the number of draws taken from [random] and the events
    performed so far, oldest first. *)
Record Engine := {
  cadence : CadenceProfile F;
  uncorrected_errors : list PendingError;
  draws : nat;
  trace : list Event
}.

(** Computations of the engine: state passing over [Engine]. *)
Definition M (A : Type) : Type := Engine -> A * Engine.

Definition ret {A} (a : A) : M A := fun s => (a, s).

Definition bind {A B} (m : M A) (k : A -> M B) : M B :=
  fun s => let (a, s') := m s in k a s'.

Definition gets {A} (f : Engine -> A) : M A := fun s => (f s, s).

Definition emit (e : Event) : M unit :=
  fun s => (tt, {| cadence := cadence s;
                   uncorrected_errors := uncorrected_errors s;
                   draws := draws s;
                   trace := trace s ++ [e] |}).

Definition set_errors (q : list PendingError) : M unit :=
  fun s => (tt, {| cadence := cadence s;
                   uncorrected_errors := q;
                   draws := draws s;
                   trace := trace s |}).

End Effects.

Arguments Message F : clear implicits.
Arguments Event F : clear implicits.
Arguments Engine F : clear implicits.
Arguments M F A : clear implicits.

Declare Scope engine_scope.
Delimit Scope engine_scope with engine.
Notation "x <- m ;; k" := (bind m (fun x => k))
  (at level 61, m at next level, right associativity) : engine_scope.
Notation "m ;; k" := (bind m (fun _ => k))
  (at level 61, right associativity) : engine_scope.
Notation "' pat <- m ;; k" := (bind m (fun x => match x with pat => k end))
  (at level 61, pat pattern, m at next level, right associativity) : engine_scope.

(** [for x in xs: body(x)]. *)
Fixpoint for_each {F A} (xs : list A) (body : A -> M F unit) : M F unit :=
  match xs with
  | [] => ret tt
  | x :: xs' => (body x ;; for_each xs' body)%engine
  end.

(** [for _ in range(n): body]; an [n] below zero gives no iteration. *)
Definition for_range {F} (n : Z) (body : M F unit) : M F unit :=
  for_each (repeat tt (Z.to_nat n)) (fun _ => body).

(** ** The engine *)

(** The neighbours on the keyboard, as [_get_mistake] lists them. *)
Definition adj_map : list (ascii * str) :=
  [("q"%char, py "w"); ("w"%char, py "es"); ("e"%char, py "wr");
   ("r"%char, py "et"); ("t"%char, py "ry"); ("y"%char, py "tu");
   ("u"%char, py "yi"); ("i"%char, py "uo"); ("o"%char, py "ip");
   ("p"%char, py "o["); ("a"%char, py "s"); ("s"%char, py "adw");
   ("d"%char, py "efs"); ("f"%char, py "dgr"); ("g"%char, py "fht");
   ("h"%char, py "gjy"); ("j"%char, py "hku"); ("k"%char, py "jli");
   ("l"%char, py "k;o"); (";"%char, py "l"); ("z"%char, py "x");
   ("x"%char, py "zc"); ("c"%char, py "xvd"); ("v"%char, py "cfb");
   ("b"%char, py "vgn"); ("n"%char, py "bhm"); ("m"%char, py "njk")].

(** [d[k]] when [k in d]. *)
Fixpoint lookup (k : ascii) (d : list (ascii * str)) : option str :=
  match d with
  | [] => None
  | (k', v) :: d' => if Ascii.eqb k k' then Some v else lookup k d'
  end.

Definition FAST_KEYS : str := py "eatisrondlcum".

Definition SLOW_KEYS : str := py "zjqxkvb".

Definition mem (c : ascii) (s : str) : bool := existsb (Ascii.eqb c) s.

Definition MistakeType_eqb (a b : MistakeType) : bool :=
  match a, b with
  | adjacency, adjacency | transposition, transposition
  | omission, omission | insertion, insertion => true
  | _, _ => false
  end.

Section TypingEngine.
Context {F : Type} `{PyFloat F}.

(** The world around a run: the raw draws behind [random], and the moment at
    which the control thread calls [stop()], counted in events performed by
    the engine ([None]: never). *)
Variable raw : nat -> N.
Variable stop_request : option nat.

Variable text_to_type : str.
Variable settings : Settings F.

#[local] Open Scope engine_scope.

(** One raw draw. *)
Definition draw : M F N :=
  fun s => (raw (draws s), {| cadence := cadence s;
                              uncorrected_errors := uncorrected_errors s;
                              draws := S (draws s);
                              trace := trace s |}).

(** [random.random()]: [k / 2**53] for a 53-bit [k]. *)
Definition random : M F F :=
  k <- draw ;;
  ret (of_int (Z.of_N k mod 2 ^ 53) / of_int (2 ^ 53))%py.

(** [random.randint(a, b)] for [a <= b]. *)
Definition randint (a b : Z) : M F Z :=
  k <- draw ;;
  ret (a + Z.of_N k mod (b - a + 1)).

(** [random.uniform(a, b)]: [a + (b - a) * random()]. *)
Definition uniform (a b : F) : M F F :=
  u <- random ;;
  ret (a + (b - a) * u)%py.

(** [random.choice(seq)] for a non-empty [seq]. *)
Definition choice {A} (seq : list A) (default : A) : M F A :=
  k <- draw ;;
  ret (nth (Z.to_nat (Z.of_N k mod Z.of_nat (length seq))) seq default).

(** The attribute [is_stopped], as the engine reads it. *)
Definition is_stopped : M F bool :=
  fun s => (match stop_request with
            | Some t => (t <=? length (trace s))%nat
            | None => false
            end, s).

(** [_sleep(duration)]: a sleep that [stop()] cuts short and [pause()]
    holds; how long it lasts is outside the trace. *)
Definition _sleep (duration : F) : M F unit := emit (sleep duration).

Definition _get_mistake (word : str) : M F (str * option str) :=
  if (len word <? 3) || negb (isalpha word) then ret (word, None)
  else
    mistake_type <- choice [adjacency; transposition; omission; insertion] adjacency ;;
    idx <- randint 0 (len word - 1) ;;
    if MistakeType_eqb mistake_type adjacency && (1 <? len word) then
      let char := at_index idx word in
      match lookup (char_lower char) adj_map with
      | Some neighbours =>
          new_char <- choice neighbours SPACE ;;
          ret (upto idx word ++ new_char :: from (idx + 1) word, Some word)
      | None => ret (word, None)
      end
    else if MistakeType_eqb mistake_type transposition && (1 <? len word) then
      idx <- randint 0 (len word - 2) ;;
      ret (upto idx word ++ at_index (idx + 1) word :: at_index idx word
             :: from (idx + 2) word, Some word)
    else if MistakeType_eqb mistake_type omission then
      ret (upto idx word ++ from (idx + 1) word, Some word)
    else if MistakeType_eqb mistake_type insertion then
      vowel <- choice (py "aeiou") SPACE ;;
      ret (upto idx word ++ vowel :: from idx word, Some word)
    else ret (word, None).

(** The delay of one character before the jitter (lines 212-216). *)
Definition key_delay (char_delay : F) (char : ascii) : F :=
  if mem char FAST_KEYS then (char_delay * lit 0.8)%py
  else if mem char SLOW_KEYS then (char_delay * lit 1.3)%py
  else char_delay.

Definition _type_char (char : ascii) : M F unit :=
  emit (kb_type char) ;;
  cad <- gets cadence ;;
  let delay := key_delay (char_delay cad) char in
  jitter <- uniform (fneg (wpm_jitter cad)) (wpm_jitter cad) ;;
  _sleep (fmax (lit 0.02) (delay + jitter)%py).

Definition press_and_release (k : Key) (pause : F) : M F unit :=
  emit (kb_press k) ;; emit (kb_release k) ;; _sleep pause.

Definition _perform_correction (incorrect correct : str) (current_pos error_pos : Z)
  : M F unit :=
  let distance := current_pos - error_pos in
  for_range distance (press_and_release Key_left (lit 0.02)) ;;
  for_range (len incorrect) (press_and_release Key_backspace (lit 0.05)) ;;
  for_each correct _type_char ;;
  for_range (distance - len correct) (press_and_release Key_right (lit 0.02)).

(** The list [words] of [run]. *)
Definition words : list str :=
  split SPACE (replace NEWLINE [SPACE; NEWLINE; SPACE] text_to_type).

(** Truth value of the second component [_get_mistake] returns. *)
Definition truthy (correct : option str) : bool :=
  match correct with
  | Some (_ :: _) => true
  | _ => false
  end.

(** The body of the [for] loop of [run] after the stop check, in the four
    parts the source marks with comments. *)

(** "1. Delayed Correction Check" (lines 248-253). *)
Definition delayed_correction_check (current_pos : Z) : M F unit :=
  pending <- gets uncorrected_errors ;;
  match pending with
  | [] => ret tt
  | error_to_fix :: rest =>
      r <- randint 1 100 ;;
      if r <=? correction_delay settings then
        set_errors rest ;;
        emit (status_update (Going_back_to_fix (incorrect error_to_fix))) ;;
        _perform_correction (incorrect error_to_fix) (correct error_to_fix)
          current_pos (pos error_to_fix) ;;
        emit (status_update Fixed)
      else ret tt
  end.

(** "2. Thinking Pause Check" (lines 256-259). *)
Definition thinking_pause_check : M F unit :=
  r <- randint 1 100 ;;
  if r <=? thinking_chance settings then
    duration <- uniform (of_int (fst (thinking_duration settings)))
                        (of_int (snd (thinking_duration settings))) ;;
    emit (status_update (Thinking_for duration)) ;;
    _sleep duration
  else ret tt.

(** "TYPING THE WORD" (lines 262-271). *)
Definition type_word (word : str) (current_pos : Z) : M F unit :=
  if isalpha word then
    u <- random ;;
    if (u <? of_int (error_rate settings) / of_int 100)%py then
      ' (incorrect, correct) <- _get_mistake word ;;
      if truthy correct then
        pending <- gets uncorrected_errors ;;
        set_errors (pending ++ [{| incorrect := incorrect;
                                   correct := match correct with
                                              | Some c => c
                                              | None => []
                                              end;
                                   pos := current_pos |}]) ;;
        for_each incorrect _type_char
      else for_each word _type_char
    else for_each word _type_char
  else for_each word _type_char.

(** "POST-WORD ACTIONS" (lines 276-287) for the token of index [i]. *)
Definition post_word_actions (i : Z) (word : str) : M F unit :=
  emit (progress (to_int (of_int i / of_int (Z.of_nat (length words)) * of_int 100)%py)) ;;
  if str_eqb word [NEWLINE] then
    r <- randint 1 100 ;;
    if r <=? afk_chance settings then
      duration <- uniform (of_int (fst (afk_duration settings)))
                          (of_int (snd (afk_duration settings))) ;;
      emit (status_update (AFK_break_for duration)) ;;
      _sleep duration
    else
      cad <- gets cadence ;;
      _sleep (paragraph_pause cad)
  else if ends_sentence word then
    cad <- gets cadence ;;
    _sleep (sentence_pause cad)
  else
    _type_char SPACE ;;
    cad <- gets cadence ;;
    _sleep (word_pause cad).

(** One iteration for the token [word] of index [i]; the result is the new
    [current_pos] (line 273). *)
Definition iteration (i : Z) (word : str) (current_pos : Z) : M F Z :=
  delayed_correction_check current_pos ;;
  thinking_pause_check ;;
  type_word word current_pos ;;
  let current_pos := current_pos + (len word + 1) in
  post_word_actions i word ;;
  ret current_pos.

(** The [for] loop of [run] from the token of index [i] on: the stop check
    at the head of each iteration, then the body. *)
Fixpoint loop (i : Z) (rest : list str) (current_pos : Z) : M F Z :=
  match rest with
  | [] => ret current_pos
  | word :: rest' =>
      stopped <- is_stopped ;;
      if stopped then ret current_pos
      else
        current_pos <- iteration i word current_pos ;;
        loop (i + 1) rest' current_pos
  end.

(** [run] after [_calculate_delays], up to the end of the loop. *)
Definition run_loop : M F Z :=
  emit (status_update Starting_in_5_seconds) ;;
  _sleep (of_int 5) ;;
  emit (status_update Typing_started) ;;
  loop 0 words 0.

(** The report that ends [run] (lines 289-293). *)
Definition run_report : M F unit :=
  stopped <- is_stopped ;;
  if negb stopped then
    emit (status_update Typing_finished_successfully) ;;
    emit (progress 100)
  else emit (status_update Typing_stopped_by_user).

(** The engine as [__init__] leaves it, with the attributes
    [_calculate_delays] has set. *)
Definition init (cad : CadenceProfile F) : Engine F :=
  {| cadence := cad; uncorrected_errors := []; draws := 0; trace := [] |}.

(** [TypingEngine.run]: the exception it raises, if any, and the engine it
    leaves. *)
Definition run : option Exception * option (Engine F) :=
  match _calculate_delays text_to_type settings with
  | inl e => (Some e, None)
  | inr cad => (None, Some (snd ((run_loop ;; run_report) (init cad))))
  end.

(** [TypingWorker.run]: everything the observer and the keyboard receive. *)
Definition TypingWorker_run : list (Event F) :=
  match run with
  | (Some e, s) =>
      match s with Some s => trace s | None => [] end
        ++ [error (str_of e)] ++ [finished]
  | (None, s) =>
      match s with Some s => trace s | None => [] end ++ [finished]
  end.

End TypingEngine.

(** ** Definitions used in the statements *)

(** The text [run] splits: every newline set between two spaces. *)
Definition pad_newlines (text : str) : str :=
  replace NEWLINE [SPACE; NEWLINE; SPACE] text.

(** A token is the newline alone or holds no newline. *)
Definition newline_isolated (w : str) : Prop := w = [NEWLINE] \/ ~ In NEWLINE w.


(** ** Concrete inputs *)

(** Scenario A of the specification: 60 words per minute, no errors, no
    pauses by chance; the target duration is left open. *)
Definition scenario {F} `{PyFloat F} (minutes : F) : Settings F :=
  {| total_minutes := minutes; wpm := 60; error_rate := 0;
     correction_delay := 0; thinking_chance := 0; thinking_duration := (2, 6);
     afk_chance := 0; afk_duration := (30, 180) |}.

(** A profile that errs on every eligible token and corrects at once. *)
Definition sloppy {F} `{PyFloat F} (minutes : F) : Settings F :=
  {| total_minutes := minutes; wpm := 60; error_rate := 100;
     correction_delay := 100; thinking_chance := 0; thinking_duration := (2, 6);
     afk_chance := 0; afk_duration := (30, 180) |}.

(** Settings with a [wpm] of zero. *)
Definition stalled : Settings Q :=
  {| total_minutes := 1 # 1; wpm := 0; error_rate := 0; correction_delay := 0;
     thinking_chance := 0; thinking_duration := (2, 6); afk_chance := 0;
     afk_duration := (30, 180) |}.

(** The cadence of "hello world" in one minute at 60 words per minute. *)
Definition cadence_A : CadenceProfile Q :=
  {| char_delay := 1 # 5; wpm_jitter := 1 # 20; word_pause := 289 # 50;
     sentence_pause := 0 # 1; paragraph_pause := 0 # 1 |}.

(** A source of draws that always gives the same raw value. *)
Definition constant_draws (k : N) : nat -> N := fun _ => k.

(** The word "été": alphabetic, and its first letter has no neighbour. *)
Definition ete : str := [chr 233; "t"%char; chr 233].

(** The cadence [run] computes for a text and settings with a [wpm] other
    than zero. *)
Definition cadence_of (text : str) (settings : Settings Q) : CadenceProfile Q :=
  match _calculate_delays text settings with
  | inr cad => cad
  | inl _ => cadence_A
  end.

(** Draws that make [_get_mistake] transpose the first two characters. *)
Definition transposing (n : nat) : N :=
  match n with
  | O => 1%N
  | _ => 0%N
  end.

(** Two pending errors, the first one older. *)
Definition E1 : PendingError :=
  {| incorrect := py "eth"; correct := py "teh"; pos := 0 |}.

Definition E2 : PendingError :=
  {| incorrect := py "qick"; correct := py "quick"; pos := 4 |}.

(** ** Observations on traces *)

Section Observations.
Context {F : Type} `{PyFloat F}.

(** The engine [s] after [n] more draws and the events [evs]. *)
Definition advance (n : nat) (evs : list (Event F)) (s : Engine F) : Engine F :=
  {| cadence := cadence s;
     uncorrected_errors := uncorrected_errors s;
     draws := draws s + n;
     trace := trace s ++ evs |}.

(** The engine [s] with the queue [q]. *)
Definition with_errors (q : list PendingError) (s : Engine F) : Engine F :=
  {| cadence := cadence s;
     uncorrected_errors := q;
     draws := draws s;
     trace := trace s |}.

(** The per-character timing: the sleep [d] that follows the character [c]
    is [max(0.02, delay + offset)] for an offset drawn by
    [uniform(-jitter, jitter)]. *)
Definition standard_timing (cad : CadenceProfile F) (c : ascii) (d : F) : Prop :=
  exists u : F,
    d = fmax (lit 0.02%Q)
          (key_delay (char_delay cad) c
           + (fneg (wpm_jitter cad)
              + (wpm_jitter cad - fneg (wpm_jitter cad)) * u))%py.

(** The events of typing the characters [w] with the sleeps [delays]. *)
Definition typed (w : str) (delays : list F) : list (Event F) :=
  flat_map (fun cd => [kb_type (fst cd); sleep (snd cd)]) (combine w delays).

(** The events of [n] presses of the key [k], each followed by a sleep. *)
Definition presses (k : Key) (pause : F) (n : nat) : list (Event F) :=
  concat (repeat [kb_press k; kb_release k; sleep pause] n).

(** Events of the keyboard and sleeps. *)
Definition keyboard_or_sleep (e : Event F) : Prop :=
  match e with
  | kb_type _ | kb_press _ | kb_release _ | sleep _ => True
  | _ => False
  end.

(** The incorrect texts of the corrections announced, in order. *)
Fixpoint fixes (evs : list (Event F)) : list str :=
  match evs with
  | [] => []
  | status_update (Going_back_to_fix w) :: evs' => w :: fixes evs'
  | _ :: evs' => fixes evs'
  end.

(** The reports that end a run, and the report of full progress. *)
Definition is_stopped_report (e : Event F) : bool :=
  match e with status_update Typing_stopped_by_user => true | _ => false end.

Definition is_finished_report (e : Event F) : bool :=
  match e with status_update Typing_finished_successfully => true | _ => false end.

Definition is_full_progress (e : Event F) : bool :=
  match e with progress n => n =? 100 | _ => false end.

Definition is_finished_signal (e : Event F) : bool :=
  match e with finished => true | _ => false end.

Definition is_error_signal (e : Event F) : bool :=
  match e with error _ => true | _ => false end.

Definition occurrences (p : Event F -> bool) (evs : list (Event F)) : nat :=
  length (filter p evs).

(** [s'] is [s] some draws later, with the queue [q] and the events [evs]
    added to the trace. *)
Definition reaches (s : Engine F) (q : list PendingError) (evs : list (Event F))
    (s' : Engine F) : Prop :=
  exists n : nat, s' = advance n evs (with_errors q s).

(** The events an iteration of the loop may perform when [n] is the
    progress it reports: keys, sleeps, the statuses of corrections and
    pauses, and the progress [n]. *)
Definition in_loop (n : Z) (e : Event F) : Prop :=
  match e with
  | kb_type _ | kb_press _ | kb_release _ | sleep _ => True
  | status_update (Going_back_to_fix _) | status_update Fixed
  | status_update (Thinking_for _) | status_update (AFK_break_for _) => True
  | progress k => k = n
  | _ => False
  end.

(** The same without the announcement of a correction. *)
Definition plain (n : Z) (e : Event F) : Prop :=
  match e with
  | status_update (Going_back_to_fix _) => False
  | _ => in_loop n e
  end.

(** The progress the iteration of index [i] reports for [total] tokens. *)
Definition progress_at (i total : Z) : Z :=
  to_int (of_int i / of_int total * of_int 100)%py.

(** What the engine reads in [is_stopped] at [s]. *)
Definition stop_seen (stop_request : option nat) (s : Engine F) : bool :=
  fst (is_stopped stop_request s).

(** The tokens [ws] with the position at which each one starts when the
    first starts at [p] and every token takes its length plus one. *)
Fixpoint offsets (p : Z) (ws : list str) : list (Z * str) :=
  match ws with
  | [] => []
  | w :: ws' => (p, w) :: offsets (p + (len w + 1)) ws'
  end.

(** The sum of [len(w) + 1] over the tokens [ws]. *)
Definition span (ws : list str) : Z :=
  fold_right (fun w acc => len w + 1 + acc) 0 ws.

End Observations.

Arguments progress_at F {_} i total.


(** ** Projections of a trace *)

Section Projections.
Context {F : Type}.

(** The characters sent to [keyboard.type], in order. *)
Fixpoint typed_chars (evs : list (Event F)) : str :=
  match evs with
  | [] => []
  | kb_type c :: evs' => c :: typed_chars evs'
  | _ :: evs' => typed_chars evs'
  end.

(** The special keys pressed, in order. *)
Fixpoint key_presses (evs : list (Event F)) : list Key :=
  match evs with
  | [] => []
  | kb_press k :: evs' => k :: key_presses evs'
  | _ :: evs' => key_presses evs'
  end.

(** The values sent through [progress], in order. *)
Fixpoint progress_values (evs : list (Event F)) : list Z :=
  match evs with
  | [] => []
  | progress n :: evs' => n :: progress_values evs'
  | _ :: evs' => progress_values evs'
  end.

(** The texts sent through [status_update], in order. *)
Fixpoint statuses (evs : list (Event F)) : list (Message F) :=
  match evs with
  | [] => []
  | status_update m :: evs' => m :: statuses evs'
  | _ :: evs' => statuses evs'
  end.

Definition is_thinking (m : Message F) : bool :=
  match m with Thinking_for _ => true | _ => false end.

Definition is_afk (m : Message F) : bool :=
  match m with AFK_break_for _ => true | _ => false end.

End Projections.

(** What follows a token on the keyboard: nothing after the newline token
    and after a token that ends a sentence, a space after any other. *)
Definition separator (word : str) : str :=
  if str_eqb word [NEWLINE] then []
  else if ends_sentence word then []
  else [SPACE].

(** The letters [A-Z] and [a-z]. *)
Definition ascii_letter (c : ascii) : bool :=
  in_range 65 90 (ord c) || in_range 97 122 (ord c).

(** The integers [i, i+1, ..., i+n-1]. *)
Fixpoint count_from (i : Z) (n : nat) : list Z :=
  match n with
  | O => []
  | S n' => i :: count_from (i + 1) n'
  end.

Section Shapes.
Context {F : Type} `{PyFloat F}.

(** The events of correcting the entry [e] from the position [current_pos]
    with the sleeps [delays] for the characters typed again. *)
Definition correction_events (e : PendingError) (current_pos : Z) (delays : list F)
  : list (Event F) :=
  status_update (Going_back_to_fix (incorrect e))
  :: (presses Key_left (lit 0.02%Q) (Z.to_nat (current_pos - pos e))
      ++ presses Key_backspace (lit 0.05%Q) (length (incorrect e))
      ++ typed (correct e) delays
      ++ presses Key_right (lit 0.02%Q)
           (Z.to_nat (current_pos - pos e - len (correct e))))
  ++ [status_update Fixed].

(** The draw that decides on a mistake never succeeds. *)
Definition never_errs (raw : nat -> N) (settings : Settings F) : Prop :=
  forall s : Engine F,
    flt (fst (random raw s)) (of_int (error_rate settings) / of_int 100)%py = false.

End Shapes.

Definition Key_eqb (a b : Key) : bool :=
  match a, b with
  | Key_left, Key_left | Key_right, Key_right | Key_backspace, Key_backspace => true
  | _, _ => false
  end.

(** A trace in which every special key pressed is released at once and
    followed by a sleep, and every character typed is followed by a sleep. *)
Fixpoint disciplined {F : Type} (evs : list (Event F)) : bool :=
  match evs with
  | [] => true
  | kb_press k :: kb_release k' :: sleep _ :: evs' => Key_eqb k k' && disciplined evs'
  | kb_type _ :: sleep _ :: evs' => disciplined evs'
  | kb_press _ :: _ => false
  | kb_release _ :: _ => false
  | kb_type _ :: _ => false
  | _ :: evs' => disciplined evs'
  end.

(** What a reported mistake does to the word: one character replaced by
    another, two neighbours exchanged, one character left out, or one vowel
    put in. *)
Inductive slip (word : str) : str -> Prop :=
| slip_replaced (pre : str) (a c : ascii) (post : str) :
    word = pre ++ a :: post -> c <> a -> slip word (pre ++ c :: post)
| slip_exchanged (pre : str) (a b : ascii) (post : str) :
    word = pre ++ a :: b :: post -> slip word (pre ++ b :: a :: post)
| slip_left_out (pre : str) (a : ascii) (post : str) :
    word = pre ++ a :: post -> slip word (pre ++ post)
| slip_put_in (pre : str) (v : ascii) (post : str) :
    word = pre ++ post -> In v (py "aeiou") -> slip word (pre ++ v :: post).

(** The key is not among its neighbours, and a listed key has neighbours. *)
Definition neighbours_differ (c : ascii) : bool :=
  match lookup (char_lower c) adj_map with
  | Some neighbours => negb (mem c neighbours) && (0 <? len neighbours)
  | None => true
  end.

(** A letter of [A-Z] or [a-z] is alphabetic and is listed in [adj_map]. *)
Definition letter_is_listed (c : ascii) : bool :=
  if ascii_letter c
  then char_isalpha c &&
       match lookup (char_lower c) adj_map with Some _ => true | None => false end
  else true.

(** A profile that errs on every eligible token and never corrects. *)
Definition careless {F} `{PyFloat F} (minutes : F) : Settings F :=
  {| total_minutes := minutes; wpm := 60; error_rate := 100;
     correction_delay := 0; thinking_chance := 0; thinking_duration := (2, 6);
     afk_chance := 0; afk_duration := (30, 180) |}.

(** ** [_sleep] against the clock *)

(** [_sleep] (lines 200-208) read against a clock, in exact arithmetic. The
    world of a call is the two flags as the engine thread reads them at a
    given time ([stop], [pause] and [resume] are called from another
    thread) and the time the call [time.sleep(0.1)] started at a given time
    takes. Reading the clock or a flag takes no time. A call may never
    return (a pause may never end), so the loops take fuel: [None] is a
    call that has not returned yet. *)
Module Clock.
Section Sleep.

Variable stopped_at : Q -> bool.
Variable paused_at : Q -> bool.
Variable nap : Q -> Q.

(** The inner loop, lines 205-207: [inl t] when [_sleep] returns at [t]
    from inside it, [inr t] when the loop is left at [t]. *)
Fixpoint while_paused (fuel : nat) (now : Q) : option (Q + Q) :=
  match fuel with
  | O => None
  | S fuel' =>
      if paused_at now then
        let now' := (now + nap now)%Q in
        if stopped_at now' then Some (inl now') else while_paused fuel' now'
      else Some (inr now)
  end.

(** The outer loop, lines 203-208: the time at which [_sleep] returns. *)
Fixpoint while_before (fuel : nat) (end_time now : Q) : option Q :=
  match fuel with
  | O => None
  | S fuel' =>
      if negb (Qle_bool end_time now) then
        if stopped_at now then Some now
        else match while_paused fuel' now with
             | None => None
             | Some (inl t) => Some t
             | Some (inr t) => while_before fuel' end_time (t + nap t)%Q
             end
      else Some now
  end.

Definition _sleep (fuel : nat) (duration now : Q) : option Q :=
  let end_time := (now + duration)%Q in
  while_before fuel end_time now.

End Sleep.
End Clock.

(** ** The paraphraser *)

(** [s.strip()]: [s] without its leading and trailing whitespace. *)
Fixpoint lstrip (s : str) : str :=
  match s with
  | [] => []
  | c :: s' => if char_isspace c then lstrip s' else s
  end.

Definition strip (s : str) : str := rev (lstrip (rev (lstrip s))).

Definition QUOTE : ascii := "034"%char.

(** [GeminiParaphraser] and [ParaphraseWorker] (lines 90-125 and 299-320).
    The world around them is the environment variable, the library calls of
    the constructor and the service: each is given by what it returns or by
    the text [str(e)] of the exception it raises. *)
Module Paraphrasing.

(** The two texts sent through [status_update]. *)
Inductive Status := Sending_text_to_Gemini_API | Paraphrasing_complete.

(** What leaves the worker, one entry per call: the warning [__init__]
    prints and the signals of [WorkerSignals]. *)
Inductive Output :=
| printed_warning
| status_update (m : Status)
| error (msg : str)
| paraphrased_text_ready (text : str)
| finished.

(** The attribute [model]: [None], or the model made for an API key. *)
Record GeminiParaphraser := { model : option str }.

(** The f-string of lines 106-117. *)
Definition prompt (text intensity : str) : str :=
  [NEWLINE]
  ++ py "        Please paraphrase the following text. Rewrite it to be unique while preserving the original meaning, tone, and key information."
  ++ [NEWLINE]
  ++ py "        The desired intensity of the rewrite is '" ++ intensity ++ py "'."
  ++ [NEWLINE]
  ++ py "        Do NOT add any introductory phrases like " ++ [QUOTE]
  ++ py "Here is the paraphrased text:" ++ [QUOTE] ++ py "."
  ++ [NEWLINE]
  ++ py "        Output ONLY the rewritten text."
  ++ [NEWLINE]
  ++ [NEWLINE]
  ++ py "        ORIGINAL TEXT:"
  ++ [NEWLINE]
  ++ py "        ---"
  ++ [NEWLINE]
  ++ py "        " ++ text
  ++ [NEWLINE]
  ++ py "        ---"
  ++ [NEWLINE]
  ++ py "        ".

Section World.

(** [os.getenv("GEMINI_API_KEY")]. *)
Variable GEMINI_API_KEY : option str.

(** [genai.configure] and [genai.GenerativeModel] for an API key: [None]
    when both return, the text of the exception otherwise. *)
Variable configure : str -> option str.

(** [model.generate_content(prompt)] followed by [response.text]: the text
    of the response, or on the left the text of the exception raised. *)
Variable generate_content : str -> str + str.

(** [GeminiParaphraser()]: what it prints, and the object made or the text
    of the exception raised. *)
Definition __init__ : list Output * (str + GeminiParaphraser) :=
  match GEMINI_API_KEY with
  | None | Some [] => ([printed_warning], inr {| model := None |})
  | Some api_key =>
      match configure api_key with
      | Some e => ([], inl e)
      | None => ([], inr {| model := Some api_key |})
      end
  end.

(** [paraphrase]: the signals it emits and the text it returns. *)
Definition paraphrase (self : GeminiParaphraser) (text intensity : str)
  : list Output * str :=
  match model self with
  | None => ([error (py "Gemini model not initialized.")], text)
  | Some _ =>
      match generate_content (prompt text intensity) with
      | inr response_text =>
          ([status_update Sending_text_to_Gemini_API;
            status_update Paraphrasing_complete], strip response_text)
      | inl e =>
          ([status_update Sending_text_to_Gemini_API;
            error (py "Gemini API Error: " ++ e)], text)
      end
  end.

(** [ParaphraseWorker.run]: the [return] of line 310 is inside the [try],
    so the [finally] clause runs after it. *)
Definition ParaphraseWorker_run (text intensity : str) : list Output :=
  match __init__ with
  | (printed, inl e) => printed ++ [error e] ++ [finished]
  | (printed, inr paraphraser) =>
      match model paraphraser with
      | None =>
          printed ++ [error (py "Gemini not initialized (check API key).");
                      finished] ++ [finished]
      | Some _ =>
          let (sent, result) := paraphrase paraphraser text intensity in
          printed ++ sent ++ [paraphrased_text_ready result] ++ [finished]
      end
  end.

End World.

Definition is_finished (o : Output) : bool :=
  match o with finished => true | _ => false end.

Definition is_error (o : Output) : bool :=
  match o with error _ => true | _ => false end.

Definition is_text_ready (o : Output) : bool :=
  match o with paraphrased_text_ready _ => true | _ => false end.

(** [not api_key]. *)
Definition key_missing (api_key : option str) : bool :=
  match api_key with
  | None | Some [] => true
  | Some _ => false
  end.

End Paraphrasing.

(** ** The main window *)

(** The keys of [PROFILES]. *)
Inductive ProfileName :=
| The_Careful_Student | The_Sloppy_Rusher | The_Methodical_Writer | Custom.

(** A value of [PROFILES]. *)
Module Profile.
Record t := {
  wpm : Z;
  error_rate : Z;
  correction_delay : Z;
  thinking_chance : Z;
  thinking_duration : Z * Z;
  afk_chance : Z;
  afk_duration : Z * Z
}.
End Profile.

Definition PROFILES (name : ProfileName) : option Profile.t :=
  match name with
  | The_Careful_Student =>
      Some {| Profile.wpm := 55; Profile.error_rate := 2;
              Profile.correction_delay := 0; Profile.thinking_chance := 5;
              Profile.thinking_duration := (2, 5); Profile.afk_chance := 2;
              Profile.afk_duration := (30, 90) |}
  | The_Sloppy_Rusher =>
      Some {| Profile.wpm := 110; Profile.error_rate := 10;
              Profile.correction_delay := 0; Profile.thinking_chance := 1;
              Profile.thinking_duration := (1, 2); Profile.afk_chance := 0;
              Profile.afk_duration := (0, 0) |}
  | The_Methodical_Writer =>
      Some {| Profile.wpm := 70; Profile.error_rate := 5;
              Profile.correction_delay := 50; Profile.thinking_chance := 10;
              Profile.thinking_duration := (4, 10); Profile.afk_chance := 5;
              Profile.afk_duration := (60, 180) |}
  | Custom => None
  end.

(** A [QSlider] or [QSpinBox]: its range and its value. [setValue] keeps
    the value within the range, as Qt does. *)
Record Slider := { minimum : Z; maximum : Z; value : Z }.

Definition setValue (v : Z) (widget : Slider) : Slider :=
  {| minimum := minimum widget; maximum := maximum widget;
     value := Z.max (minimum widget) (Z.min (maximum widget) v) |}.

Definition _create_slider_spinbox (min_val max_val default_val : Z) : Slider :=
  setValue default_val {| minimum := min_val; maximum := max_val; value := min_val |}.

(** The items of [intensity_combo]. *)
Inductive Intensity := light | moderate | heavy.

Definition intensity_text (i : Intensity) : str :=
  match i with
  | light => py "light"
  | moderate => py "moderate"
  | heavy => py "heavy"
  end.

(** The texts of [start_button]. *)
Inductive ButtonText := Start_Resume | Pause | Resume.

Inductive QThread := QThread_started.

(** An exception raised inside a slot. *)
Inductive SlotError := AttributeError (msg : string).

Inductive SliderName :=
| Total_Duration | Base_WPM | Thinking_Pause | AFK_Break | Typo_Rate | Correction_Delay.

Section MainWindow.
Context {F : Type} `{PyFloat F}.

(** The object behind [self.worker]. A [TypingWorker] has an [engine], of
    which the window reads and sets the two flags; a [ParaphraseWorker] has
    none. *)
Inductive Worker :=
| TypingWorker (text : str) (settings : Settings F) (is_stopped is_paused : bool)
| ParaphraseWorker (text : str) (intensity : str).

(** The lines of the log console. *)
Inductive LogLine :=
| Applied_profile (profile_name : ProfileName)
| Cannot_start_typing_Text_is_empty
| Starting_Typing_Process
| Process_finished
| ERROR (error_message : str)
| Cannot_paraphrase_Source_text_is_empty
| Starting_AI_Paraphrasing
| Sending_stop_signal
| Paused
| Resuming
| Typing_status (m : Message F)
| Paraphrase_status (m : Paraphrasing.Status).

(** The attributes of the window the slots read and write. The widgets
    [_set_controls_enabled] enables and disables together are one flag. *)
Record MainWindow := {
  thread : option QThread;
  worker : option Worker;
  is_paused_state : bool;
  start_button : ButtonText;
  controls_enabled : bool;
  log_console : list LogLine;
  progress_bar : Z;
  source_text_edit : str;
  intensity_combo : Intensity;
  duration_spinbox : Slider;
  wpm_slider : Slider;
  thinking_chance_slider : Slider;
  afk_chance_slider : Slider;
  error_slider : Slider;
  correction_delay_slider : Slider
}.

Definition log_message (message : LogLine) (self : MainWindow) : MainWindow :=
  {| thread := thread self; worker := worker self;
     is_paused_state := is_paused_state self; start_button := start_button self;
     controls_enabled := controls_enabled self;
     log_console := log_console self ++ [message];
     progress_bar := progress_bar self; source_text_edit := source_text_edit self;
     intensity_combo := intensity_combo self;
     duration_spinbox := duration_spinbox self; wpm_slider := wpm_slider self;
     thinking_chance_slider := thinking_chance_slider self;
     afk_chance_slider := afk_chance_slider self; error_slider := error_slider self;
     correction_delay_slider := correction_delay_slider self |}.

(** [update_progress]: a [QProgressBar] ignores a value outside 0..100. *)
Definition update_progress (v : Z) (self : MainWindow) : MainWindow :=
  {| thread := thread self; worker := worker self;
     is_paused_state := is_paused_state self; start_button := start_button self;
     controls_enabled := controls_enabled self; log_console := log_console self;
     progress_bar := if in_range 0 100 v then v else progress_bar self;
     source_text_edit := source_text_edit self;
     intensity_combo := intensity_combo self;
     duration_spinbox := duration_spinbox self; wpm_slider := wpm_slider self;
     thinking_chance_slider := thinking_chance_slider self;
     afk_chance_slider := afk_chance_slider self; error_slider := error_slider self;
     correction_delay_slider := correction_delay_slider self |}.

Definition set_paraphrased_text (text : str) (self : MainWindow) : MainWindow :=
  {| thread := thread self; worker := worker self;
     is_paused_state := is_paused_state self; start_button := start_button self;
     controls_enabled := controls_enabled self; log_console := log_console self;
     progress_bar := progress_bar self; source_text_edit := text;
     intensity_combo := intensity_combo self;
     duration_spinbox := duration_spinbox self; wpm_slider := wpm_slider self;
     thinking_chance_slider := thinking_chance_slider self;
     afk_chance_slider := afk_chance_slider self; error_slider := error_slider self;
     correction_delay_slider := correction_delay_slider self |}.

Definition _set_controls_enabled (enabled : bool) (self : MainWindow) : MainWindow :=
  {| thread := thread self; worker := worker self;
     is_paused_state := if enabled then false else is_paused_state self;
     start_button := if enabled then Start_Resume else start_button self;
     controls_enabled := enabled; log_console := log_console self;
     progress_bar := progress_bar self; source_text_edit := source_text_edit self;
     intensity_combo := intensity_combo self;
     duration_spinbox := duration_spinbox self; wpm_slider := wpm_slider self;
     thinking_chance_slider := thinking_chance_slider self;
     afk_chance_slider := afk_chance_slider self; error_slider := error_slider self;
     correction_delay_slider := correction_delay_slider self |}.

(** The assignments to [self.thread] and [self.worker]. *)
Definition set_worker (t : option QThread) (w : option Worker) (self : MainWindow)
  : MainWindow :=
  {| thread := t; worker := w;
     is_paused_state := is_paused_state self; start_button := start_button self;
     controls_enabled := controls_enabled self; log_console := log_console self;
     progress_bar := progress_bar self; source_text_edit := source_text_edit self;
     intensity_combo := intensity_combo self;
     duration_spinbox := duration_spinbox self; wpm_slider := wpm_slider self;
     thinking_chance_slider := thinking_chance_slider self;
     afk_chance_slider := afk_chance_slider self; error_slider := error_slider self;
     correction_delay_slider := correction_delay_slider self |}.

(** [start_button.setText] together with the assignment to
    [is_paused_state] that goes with it. *)
Definition set_button (text : ButtonText) (paused : bool) (self : MainWindow)
  : MainWindow :=
  {| thread := thread self; worker := worker self;
     is_paused_state := paused; start_button := text;
     controls_enabled := controls_enabled self; log_console := log_console self;
     progress_bar := progress_bar self; source_text_edit := source_text_edit self;
     intensity_combo := intensity_combo self;
     duration_spinbox := duration_spinbox self; wpm_slider := wpm_slider self;
     thinking_chance_slider := thinking_chance_slider self;
     afk_chance_slider := afk_chance_slider self; error_slider := error_slider self;
     correction_delay_slider := correction_delay_slider self |}.

(** [log_console.clear()] and [progress_bar.setValue(0)]. *)
Definition clear_console (self : MainWindow) : MainWindow :=
  {| thread := thread self; worker := worker self;
     is_paused_state := is_paused_state self; start_button := start_button self;
     controls_enabled := controls_enabled self; log_console := [];
     progress_bar := 0; source_text_edit := source_text_edit self;
     intensity_combo := intensity_combo self;
     duration_spinbox := duration_spinbox self; wpm_slider := wpm_slider self;
     thinking_chance_slider := thinking_chance_slider self;
     afk_chance_slider := afk_chance_slider self; error_slider := error_slider self;
     correction_delay_slider := correction_delay_slider self |}.

(** The user turning the intensity box. *)
Definition set_intensity (i : Intensity) (self : MainWindow) : MainWindow :=
  {| thread := thread self; worker := worker self;
     is_paused_state := is_paused_state self; start_button := start_button self;
     controls_enabled := controls_enabled self; log_console := log_console self;
     progress_bar := progress_bar self; source_text_edit := source_text_edit self;
     intensity_combo := i;
     duration_spinbox := duration_spinbox self; wpm_slider := wpm_slider self;
     thinking_chance_slider := thinking_chance_slider self;
     afk_chance_slider := afk_chance_slider self; error_slider := error_slider self;
     correction_delay_slider := correction_delay_slider self |}.

(** [setValue] on one of the six widgets. *)
Definition set_slider (which : SliderName) (v : Z) (self : MainWindow) : MainWindow :=
  let pick name widget := match which, name with
                          | Total_Duration, Total_Duration | Base_WPM, Base_WPM
                          | Thinking_Pause, Thinking_Pause | AFK_Break, AFK_Break
                          | Typo_Rate, Typo_Rate | Correction_Delay, Correction_Delay =>
                              setValue v widget
                          | _, _ => widget
                          end in
  {| thread := thread self; worker := worker self;
     is_paused_state := is_paused_state self; start_button := start_button self;
     controls_enabled := controls_enabled self; log_console := log_console self;
     progress_bar := progress_bar self; source_text_edit := source_text_edit self;
     intensity_combo := intensity_combo self;
     duration_spinbox := pick Total_Duration (duration_spinbox self);
     wpm_slider := pick Base_WPM (wpm_slider self);
     thinking_chance_slider := pick Thinking_Pause (thinking_chance_slider self);
     afk_chance_slider := pick AFK_Break (afk_chance_slider self);
     error_slider := pick Typo_Rate (error_slider self);
     correction_delay_slider := pick Correction_Delay (correction_delay_slider self) |}.

Definition _apply_profile (profile_name : ProfileName) (self : MainWindow)
  : MainWindow :=
  match PROFILES profile_name with
  | None => self
  | Some profile =>
      log_message (Applied_profile profile_name)
        (set_slider AFK_Break (Profile.afk_chance profile)
           (set_slider Thinking_Pause (Profile.thinking_chance profile)
              (set_slider Correction_Delay (Profile.correction_delay profile)
                 (set_slider Typo_Rate (Profile.error_rate profile)
                    (set_slider Base_WPM (Profile.wpm profile) self)))))
  end.

(** The window as [__init__] leaves it: the widgets of [_setup_ui] with
    their ranges and defaults, then the default profile. *)
Definition MainWindow__init__ : MainWindow :=
  _apply_profile The_Careful_Student
    {| thread := None; worker := None; is_paused_state := false;
       start_button := Start_Resume; controls_enabled := true;
       log_console := []; progress_bar := -1; source_text_edit := [];
       intensity_combo := light;
       duration_spinbox := _create_slider_spinbox 1 1440 20;
       wpm_slider := _create_slider_spinbox 30 150 65;
       thinking_chance_slider := _create_slider_spinbox 0 50 5;
       afk_chance_slider := _create_slider_spinbox 0 25 2;
       error_slider := _create_slider_spinbox 0 20 4;
       correction_delay_slider := _create_slider_spinbox 0 100 50 |}.

Definition get_settings (self : MainWindow) : Settings F :=
  {| total_minutes := of_int (value (duration_spinbox self));
     wpm := value (wpm_slider self);
     error_rate := value (error_slider self);
     correction_delay := value (correction_delay_slider self);
     thinking_chance := value (thinking_chance_slider self);
     thinking_duration := (2, 6);
     afk_chance := value (afk_chance_slider self);
     afk_duration := (30, 180) |}.

Definition start_typing (self : MainWindow) : MainWindow :=
  let source_text := source_text_edit self in
  match strip source_text with
  | [] => log_message Cannot_start_typing_Text_is_empty self
  | _ =>
      set_worker (Some QThread_started)
        (Some (TypingWorker source_text (get_settings self) false false))
        (log_message Starting_Typing_Process
           (clear_console
              (set_button Pause false (_set_controls_enabled false self))))
  end.

Definition on_process_finished (self : MainWindow) : MainWindow :=
  _set_controls_enabled true
    (set_worker None None (log_message Process_finished self)).

Definition on_process_error (error_message : str) (self : MainWindow) : MainWindow :=
  on_process_finished (log_message (ERROR error_message) self).

Definition start_paraphrasing (self : MainWindow) : MainWindow :=
  let source_text := source_text_edit self in
  match strip source_text with
  | [] => log_message Cannot_paraphrase_Source_text_is_empty self
  | _ =>
      set_worker (Some QThread_started)
        (Some (ParaphraseWorker source_text (intensity_text (intensity_combo self))))
        (log_message Starting_AI_Paraphrasing (_set_controls_enabled false self))
  end.

(** [handle_start_resume]: [self.worker.engine] raises when the worker is a
    [ParaphraseWorker]. [pause] and [resume] set the flag of the engine and
    emit a status, which reaches [log_message] at once. *)
Definition handle_start_resume (self : MainWindow) : SlotError + MainWindow :=
  match worker self with
  | Some (ParaphraseWorker _ _) =>
      inl (AttributeError "'ParaphraseWorker' object has no attribute 'engine'")
  | Some (TypingWorker text settings is_stopped _) =>
      if is_paused_state self
      then inr (set_button Pause false
                  (log_message Resuming
                     (set_worker (thread self)
                        (Some (TypingWorker text settings is_stopped false)) self)))
      else inr (set_button Resume true
                  (log_message Paused
                     (set_worker (thread self)
                        (Some (TypingWorker text settings is_stopped true)) self)))
  | None => inr (start_typing self)
  end.

Definition stop_all_processes (self : MainWindow) : MainWindow :=
  match worker self with
  | Some (TypingWorker text settings _ is_paused) =>
      log_message Sending_stop_signal
        (set_worker (thread self)
           (Some (TypingWorker text settings true is_paused)) self)
  | _ => self
  end.

(** [GlobalHotkeyListener.on_start_stop] and [on_pause_resume]: a click on
    a button runs the slot connected to it; neither button is ever
    disabled. *)
Definition on_start_stop (main_window : MainWindow) : SlotError + MainWindow :=
  match worker main_window with
  | Some _ => inr (stop_all_processes main_window)
  | None => handle_start_resume main_window
  end.

Definition on_pause_resume (main_window : MainWindow) : SlotError + MainWindow :=
  match worker main_window with
  | Some _ => handle_start_resume main_window
  | None => inr main_window
  end.

(** What can happen to the window: the user at the widgets (those that are
    disabled do not react), the two hotkeys, and the signals of a worker. *)
Inductive Action :=
| click_start
| click_stop
| click_paraphrase
| select_profile (profile_name : ProfileName)
| select_intensity (i : Intensity)
| move_slider (which : SliderName) (v : Z)
| edit_text (text : str)
| hotkey_start_stop
| hotkey_pause_resume
| signal_finished
| signal_error (error_message : str)
| signal_status_update (message : LogLine)
| signal_progress (v : Z)
| signal_paraphrased_text_ready (text : str).

(** An exception raised in a slot leaves the window as it was. *)
Definition outcome (r : SlotError + MainWindow) (self : MainWindow) : MainWindow :=
  match r with
  | inl _ => self
  | inr self' => self'
  end.

Definition dispatch (a : Action) (self : MainWindow) : MainWindow :=
  match a with
  | click_start => outcome (handle_start_resume self) self
  | click_stop => stop_all_processes self
  | click_paraphrase =>
      if controls_enabled self then start_paraphrasing self else self
  | select_profile profile_name =>
      if controls_enabled self then _apply_profile profile_name self else self
  | select_intensity i =>
      if controls_enabled self then set_intensity i self else self
  | move_slider which v =>
      if controls_enabled self then set_slider which v self else self
  | edit_text text =>
      if controls_enabled self then set_paraphrased_text text self else self
  | hotkey_start_stop => outcome (on_start_stop self) self
  | hotkey_pause_resume => outcome (on_pause_resume self) self
  | signal_finished => on_process_finished self
  | signal_error error_message => on_process_error error_message self
  | signal_status_update message => log_message message self
  | signal_progress v => update_progress v self
  | signal_paraphrased_text_ready text => set_paraphrased_text text self
  end.

(** The window after a sequence of actions, oldest first. *)
Definition after (actions : list Action) : MainWindow :=
  fold_left (fun self a => dispatch a self) actions MainWindow__init__.

(** The settings the widgets can give. *)
Definition offered (settings : Settings F) : Prop :=
  (exists minutes : Z, 1 <= minutes <= 1440 /\ total_minutes settings = of_int minutes) /\
  30 <= wpm settings <= 150 /\
  0 <= error_rate settings <= 20 /\
  0 <= correction_delay settings <= 100 /\
  0 <= thinking_chance settings <= 50 /\
  0 <= afk_chance settings <= 25 /\
  thinking_duration settings = (2, 6) /\
  afk_duration settings = (30, 180).

Definition bounded (lo hi : Z) (widget : Slider) : Prop :=
  minimum widget = lo /\ maximum widget = hi /\ lo <= value widget <= hi.

(** What holds of the window between two actions. *)
Definition consistent (self : MainWindow) : Prop :=
  (thread self = None <-> worker self = None) /\
  (controls_enabled self = true <-> worker self = None) /\
  match worker self with
  | None => is_paused_state self = false /\ start_button self = Start_Resume
  | Some (ParaphraseWorker text _) =>
      is_paused_state self = false /\ start_button self = Start_Resume /\
      strip text <> []
  | Some (TypingWorker text settings _ is_paused) =>
      is_paused_state self = is_paused /\
      start_button self = (if is_paused then Resume else Pause) /\
      strip text <> [] /\ offered settings
  end /\
  bounded 1 1440 (duration_spinbox self) /\
  bounded 30 150 (wpm_slider self) /\
  bounded 0 50 (thinking_chance_slider self) /\
  bounded 0 25 (afk_chance_slider self) /\
  bounded 0 20 (error_slider self) /\
  bounded 0 100 (correction_delay_slider self).

End MainWindow.

(** ** Pauses *)


(** * Properties *)

(** ** Tokens *)

Section Split.
Variable sep : ascii.

Lemma split_not_nil (s : str) : split sep s <> [].
Proof.
  destruct s as [|c s]; simpl; [discriminate|].
  destruct (Ascii.eqb c sep); [discriminate|].
  destruct (split sep s); discriminate.
Qed.

Lemma split_cons (c : ascii) (s : str) :
  split sep (c :: s) =
  if Ascii.eqb c sep then [] :: split sep s
  else (c :: hd [] (split sep s)) :: tl (split sep s).
Proof.
  simpl. destruct (Ascii.eqb c sep); [reflexivity|].
  pose proof (split_not_nil s) as Hne.
  destruct (split sep s); [contradiction|reflexivity].
Qed.

Lemma hd_tl_split (s : str) :
  split sep s = hd [] (split sep s) :: tl (split sep s).
Proof.
  pose proof (split_not_nil s). destruct (split sep s); [contradiction|reflexivity].
Qed.

Lemma join_cons (w : str) (ws : list str) :
  ws <> [] -> join sep (w :: ws) = w ++ sep :: join sep ws.
Proof. destruct ws; [contradiction|reflexivity]. Qed.

Lemma join_split (s : str) : join sep (split sep s) = s.
Proof.
  induction s as [|c s IH]; [reflexivity|].
  rewrite split_cons. destruct (Ascii.eqb c sep) eqn:E.
  - apply Ascii.eqb_eq in E. subst c.
    rewrite join_cons by apply split_not_nil. simpl. now rewrite IH.
  - rewrite (hd_tl_split s) in IH.
    destruct (tl (split sep s)) as [|w ws] eqn:Et.
    + simpl in *. now rewrite IH.
    + rewrite join_cons in IH by discriminate.
      rewrite join_cons by discriminate. cbn [app]. now rewrite IH.
Qed.

Lemma split_no_sep (s : str) : Forall (fun w => ~ In sep w) (split sep s).
Proof.
  induction s as [|c s IH]; [repeat constructor; auto|].
  rewrite split_cons. destruct (Ascii.eqb c sep) eqn:E.
  - constructor; auto.
  - rewrite (hd_tl_split s) in IH. inversion IH as [|? ? Hh Ht]; subst.
    constructor; [|assumption].
    intros [->|Hin]; [|auto]. now rewrite Ascii.eqb_refl in E.
Qed.

Lemma length_split (s : str) :
  Z.of_nat (length (split sep s)) = 1 + count sep s.
Proof.
  unfold count. induction s as [|c s IH]; [reflexivity|].
  rewrite split_cons. cbn [filter]. rewrite (Ascii.eqb_sym sep c).
  destruct (Ascii.eqb c sep).
  - cbn [length]. lia.
  - rewrite (hd_tl_split s) in IH. cbn [length] in *. lia.
Qed.

End Split.

Lemma words_cons (c : ascii) (text : str) :
  words (c :: text) =
  if Ascii.eqb c NEWLINE then [] :: [NEWLINE] :: words text
  else if Ascii.eqb c SPACE then [] :: words text
  else (c :: hd [] (words text)) :: tl (words text).
Proof.
  unfold words, replace. cbn [flat_map].
  destruct (Ascii.eqb c NEWLINE) eqn:En.
  - cbn [app]. rewrite split_cons. cbn [Ascii.eqb SPACE]. 
    change (Ascii.eqb SPACE SPACE) with true. cbv iota.
    rewrite split_cons. change (Ascii.eqb NEWLINE SPACE) with false. cbv iota.
    rewrite split_cons. change (Ascii.eqb SPACE SPACE) with true. reflexivity.
  - cbn [app]. rewrite split_cons. reflexivity.
Qed.

Lemma words_newlines (text : str) :
  ~ In NEWLINE (hd [] (words text)) /\ Forall newline_isolated (words text).
Proof.
  induction text as [|c text [IHh IHt]].
  - split; [cbn; tauto|]. constructor; [right; cbn; tauto|constructor].
  - rewrite words_cons. destruct (Ascii.eqb c NEWLINE) eqn:En.
    + split; [cbn; tauto|]. constructor; [right; cbn; tauto|].
      constructor; [now left|assumption].
    + destruct (Ascii.eqb c SPACE) eqn:Es.
      * split; [cbn; tauto|]. constructor; [right; cbn; tauto|assumption].
      * assert (Hc : ~ In NEWLINE (c :: hd [] (words text))).
        { intros [->|Hin]; [|auto]. now rewrite Ascii.eqb_refl in En. }
        split; [exact Hc|]. constructor; [now right|].
        unfold words in *. rewrite (hd_tl_split SPACE) in IHt.
        now inversion IHt.
Qed.

Lemma count_cons (c x : ascii) (s : str) :
  count c (x :: s) = (if Ascii.eqb c x then 1 else 0) + count c s.
Proof.
  unfold count. cbn [filter]. destruct (Ascii.eqb c x); cbn [length]; lia.
Qed.

Lemma count_app (c : ascii) (s t : str) : count c (s ++ t) = count c s + count c t.
Proof.
  unfold count. rewrite filter_app, length_app. lia.
Qed.

Lemma count_pad_newlines (text : str) :
  count SPACE (pad_newlines text) = count SPACE text + 2 * count NEWLINE text.
Proof.
  unfold pad_newlines, replace.
  induction text as [|c text IH]; [reflexivity|].
  cbn [flat_map]. rewrite count_app, IH, !count_cons.
  destruct (Ascii.eqb c NEWLINE) eqn:En.
  - apply Ascii.eqb_eq in En. subst c.
    change (count SPACE [SPACE; NEWLINE; SPACE]) with 2.
    change (Ascii.eqb SPACE NEWLINE) with false.
    change (Ascii.eqb NEWLINE NEWLINE) with true. cbv iota. lia.
  - rewrite (Ascii.eqb_sym NEWLINE c), En.
    rewrite count_cons. change (count SPACE []) with 0. lia.
Qed.

(** C8, as the code has it. The tokens of [run] are the pieces between the
    single space characters of the text in which every newline has been set
    between two spaces. Joining them with single spaces gives that text
    back; no token holds a space; a token is either the newline alone or
    holds no newline; and there is one token more than there are spaces in
    the padded text, so empty tokens stand between adjacent separators.
    Whitespace other than the space and the newline stays inside a token. *)
Theorem words_are_space_separated_pieces (text : str) :
  join SPACE (words text) = pad_newlines text /\
  Forall (fun w => ~ In SPACE w /\ newline_isolated w) (words text) /\
  Z.of_nat (length (words text)) = 1 + count SPACE text + 2 * count NEWLINE text.
Proof.
  split; [apply join_split|]. split.
  - apply Forall_forall. intros w Hw. split.
    + pose proof (split_no_sep SPACE (pad_newlines text)) as Hs.
      rewrite Forall_forall in Hs. now apply Hs.
    + destruct (words_newlines text) as [_ Hn].
      rewrite Forall_forall in Hn. now apply Hn.
  - unfold words. rewrite length_split.
    change (replace NEWLINE [SPACE; NEWLINE; SPACE] text) with (pad_newlines text).
    rewrite count_pad_newlines. lia.
Qed.

(** C8 as stated fails: two spaces in a row give an empty token, and a tab
    is not a separator. *)
Lemma words_empty_token_and_tab :
  In [] (words (py "a  b")) /\
  words ["a"%char; "009"%char; "b"%char] = [["a"%char; "009"%char; "b"%char]] /\
  char_isspace "009"%char = true.
Proof. split; [right; left; reflexivity|split; reflexivity]. Qed.

(** ** Mistake generation *)

(** C5. [_get_mistake] gives back the token itself and [None] for a token
    shorter than 3 characters, for a token that is not alphabetic, and when
    the kind drawn is the adjacency substitution and the character drawn has
    no entry in the neighbour map. *)
Theorem get_mistake_no_mistake {F} `{PyFloat F} (raw : nat -> N) (word : str)
    (s : Engine F) :
  len word < 3 \/ isalpha word = false \/
  (fst (choice raw [adjacency; transposition; omission; insertion] adjacency s)
     = adjacency /\
   lookup (char_lower (at_index
             (fst (randint raw 0 (len word - 1)
                     (snd (choice raw [adjacency; transposition; omission; insertion]
                             adjacency s))))
             word)) adj_map = None) ->
  fst (_get_mistake raw word s) = (word, None).
Proof.
  intros Hcase. unfold _get_mistake.
  destruct ((len word <? 3) || negb (isalpha word)) eqn:Eguard; [reflexivity|].
  apply orb_false_elim in Eguard. destruct Eguard as [Elen Ealpha].
  apply Z.ltb_ge in Elen. apply negb_false_iff in Ealpha.
  destruct Hcase as [Hlen|[Halpha|[Hkind Hmap]]]; [lia|congruence|].
  unfold bind at 1.
  destruct (choice raw [adjacency; transposition; omission; insertion] adjacency s)
    as [kind s1] eqn:Echoice.
  cbn [fst snd] in Hkind, Hmap. subst kind.
  unfold bind at 1.
  destruct (randint raw 0 (len word - 1) s1) as [idx s2] eqn:Eidx.
  cbn [fst] in Hmap. cbn [MistakeType_eqb andb].
  replace (1 <? len word) with true by (symmetry; apply Z.ltb_lt; lia).
  now rewrite Hmap.
Qed.

Lemma get_mistake_no_mistake_witness :
  fst (_get_mistake (constant_draws 0) (py "ab") (init cadence_A)) = (py "ab", None) /\
  fst (_get_mistake (constant_draws 0) (py "a1c") (init cadence_A)) = (py "a1c", None) /\
  fst (_get_mistake (constant_draws 0) ete (init cadence_A)) = (ete, None).
Proof.
  split; [|split].
  - apply get_mistake_no_mistake. left. vm_compute. reflexivity.
  - apply get_mistake_no_mistake. right. left. vm_compute. reflexivity.
  - apply get_mistake_no_mistake. right. right. vm_compute. split; reflexivity.
Defined.

(** ** Per-character timing *)

Lemma float_ltb_leb (x y : float) : PrimFloat.ltb x y = true -> PrimFloat.leb x y = true.
Proof.
  rewrite ltb_spec, leb_spec. unfold SFltb, SFleb.
  destruct (SFcompare (Prim2SF x) (Prim2SF y)) as [[]|]; congruence.
Qed.

Lemma fmax_floor_binary64 (x : float) :
  PrimFloat.leb (lit 0.02%Q) (fmax (lit 0.02%Q) x) = true.
Proof.
  unfold fmax. cbn [flt binary64].
  destruct (PrimFloat.ltb (lit 0.02%Q) x) eqn:E.
  - now apply float_ltb_leb.
  - vm_compute. reflexivity.
Qed.

Lemma fmax_Qmax (a b : Q) : fmax a b = Qmax a b.
Proof.
  unfold fmax, Qmax, GenericMinMax.gmax. cbn [flt Q_float].
  destruct (Qle_bool b a) eqn:E; cbn [negb].
  - apply Qle_bool_iff in E. destruct (Qcompare_spec a b) as [Heq|Hlt|Hgt]; try reflexivity.
    exfalso. apply (Qlt_irrefl a). eapply Qlt_le_trans; eauto.
  - destruct (Qcompare_spec a b) as [Heq|Hlt|Hgt]; try reflexivity.
    + assert (Hba : (b <= a)%Q) by (rewrite Heq; apply Qle_refl).
      apply Qle_bool_iff in Hba. congruence.
    + apply Qlt_le_weak, Qle_bool_iff in Hgt. congruence.
Qed.

(** [random.random()] lies in [0, 1). *)
Lemma random_unit_interval (raw : nat -> N) (s : Engine Q) :
  (0 <= fst (random raw s) < 1)%Q.
Proof.
  unfold random, bind, draw, ret. cbn [fst of_int fdiv Q_float].
  set (k := Z.of_N (raw (draws s)) mod 2 ^ 53).
  assert (Hk : 0 <= k < 2 ^ 53) by (apply Z.mod_pos_bound; reflexivity).
  unfold Qdiv, Qle, Qlt, Qmult, Qinv, inject_Z. cbn. lia.
Qed.

(** The offset [uniform(-j, j)] draws is no larger than [j] in absolute
    value. *)
Lemma uniform_offset_abs (j u : Q) :
  (0 <= u < 1 -> Qabs (- j + (j - - j) * u) <= Qabs j)%Q.
Proof.
  intros [Hu0 Hu1]. apply Qabs_Qle_condition.
  destruct (Qlt_le_dec j 0) as [Hneg|Hpos].
  - rewrite (Qabs_neg j) by lra. split; nra.
  - rewrite (Qabs_pos j) by lra. split; nra.
Qed.

Lemma trace_type_char {F} `{PyFloat F} (raw : nat -> N) (c : ascii) (s : Engine F) :
  trace (snd (_type_char raw c s)) =
  trace s ++ [kb_type c;
              sleep (fmax (lit 0.02%Q)
                       (key_delay (char_delay (cadence s)) c
                        + (fneg (wpm_jitter (cadence s))
                           + (wpm_jitter (cadence s) - fneg (wpm_jitter (cadence s)))
                             * fst (random raw s)))%py)].
Proof.
  unfold _type_char, _sleep, uniform, random, bind, emit, gets, draw, ret.
  cbn [fst snd trace cadence]. now rewrite <- app_assoc.
Qed.

(** C4. Typing a character sends it to the keyboard and then sleeps once.
    In exact arithmetic the duration is [max(0.02, base + offset)], where
    [base] is [char_delay] times 0.8 for a character of the fast set, times
    1.3 for one of the slow set, and [char_delay] otherwise, and [offset]
    lies between [-jitter] and [+jitter] (for a jitter below zero, which
    takes a total duration below zero, between [+jitter] and [-jitter]); it
    is at least 0.02. In binary64 the duration is at least 0.02 as well,
    whatever the cadence holds. *)
Theorem type_char_sleep_duration (raw : nat -> N) (c : ascii) :
  (forall s : Engine Q,
     exists base offset : Q,
       trace (snd (_type_char raw c s)) =
         trace s ++ [kb_type c; sleep (Qmax 0.02 (base + offset))] /\
       (In c (py "eatisrondlcum") -> base = char_delay (cadence s) * 0.8) /\
       (~ In c (py "eatisrondlcum") -> In c (py "zjqxkvb") ->
        base = char_delay (cadence s) * 1.3) /\
       (~ In c (py "eatisrondlcum") -> ~ In c (py "zjqxkvb") ->
        base = char_delay (cadence s)) /\
       (0 <= wpm_jitter (cadence s) ->
        - wpm_jitter (cadence s) <= offset <= wpm_jitter (cadence s)) /\
       Qabs offset <= Qabs (wpm_jitter (cadence s)) /\
       0.02 <= Qmax 0.02 (base + offset))%Q /\
  (forall s : Engine float,
     exists d : float,
       trace (snd (_type_char raw c s)) = trace s ++ [kb_type c; sleep d] /\
       PrimFloat.leb 0.02 d = true).
Proof.
  split; intros s.
  - exists (key_delay (char_delay (cadence s)) c).
    exists (- wpm_jitter (cadence s)
            + (wpm_jitter (cadence s) - - wpm_jitter (cadence s))
              * fst (random raw s))%Q.
    split; [rewrite trace_type_char, fmax_Qmax; reflexivity|].
    assert (Hmem : forall l, mem c l = true <-> In c l).
    { intros l. unfold mem. rewrite existsb_exists. split.
      - intros (x & Hx & E). apply Ascii.eqb_eq in E. now subst.
      - intros Hin. exists c. split; [assumption|apply Ascii.eqb_refl]. }
    unfold key_delay, FAST_KEYS, SLOW_KEYS.
    destruct (mem c (py "eatisrondlcum")) eqn:Ef;
      [|destruct (mem c (py "zjqxkvb")) eqn:Es].
    all: repeat split; try reflexivity;
      try (intros; exfalso;
           repeat match goal with
           | Hm : mem _ _ = true |- _ => apply Hmem in Hm
           | Hm : mem ?x ?l = false, Hi : In ?x ?l |- _ =>
               apply Hmem in Hi; congruence
           end; tauto);
      try apply Q.le_max_l.
    all: try apply uniform_offset_abs; try apply random_unit_interval.
    all: pose proof (random_unit_interval raw s) as [Hu0 Hu1];
      set (u := fst (random raw s)) in *;
      set (j := wpm_jitter (cadence s)) in *; nra.
  - eexists. split; [apply trace_type_char|].
    change (0.02%float) with (lit (F:=float) 0.02%Q).
    apply fmax_floor_binary64.
Qed.

Lemma type_char_sleep_duration_witness :
  exists base offset : Q,
    trace (snd (_type_char (constant_draws 0) "e"%char (init cadence_A))) =
      [kb_type "e"%char; sleep (Qmax 0.02 (base + offset))] /\
    base = ((1 # 5) * 0.8)%Q /\ (- (1 # 20) <= offset <= 1 # 20)%Q.
Proof.
  destruct (type_char_sleep_duration (constant_draws 0) "e"%char) as [HQ _].
  destruct (HQ (init cadence_A)) as (base & offset & Htr & Hfast & _ & _ & Hjit & _ & _).
  exists base, offset. split; [exact Htr|]. split.
  - apply Hfast. vm_compute. tauto.
  - apply Hjit. vm_compute. discriminate.
Defined.

(** ** The cadence calculation *)

Lemma inject_Z_pos (z : Z) : 0 < z -> (0 < inject_Z z)%Q.
Proof. intros Hz. unfold Qlt, inject_Z. cbn. lia. Qed.

Lemma typing_time_unclamped_pos (n w : Z) :
  0 < n -> 0 < w -> (0 < inject_Z n / 5 / inject_Z w * 60)%Q.
Proof.
  intros Hn Hw. apply inject_Z_pos in Hn, Hw.
  apply Qmult_lt_0_compat; [|reflexivity].
  apply Qlt_shift_div_l; [assumption|].
  apply Qlt_shift_div_l; [reflexivity|]. lra.
Qed.

(** C1, as the code has it, in exact arithmetic. For a [wpm] other than
    zero the calculation succeeds; [pure_typing_time_sec] is
    [(charCount / 5) / wpm * 60], replaced by 0.95 times the total duration
    when it reaches the total duration; [char_delay] is that time divided by
    the number of characters, and 0.05 for an empty text. With [wpm],
    the number of characters and the total duration all positive,
    [char_delay] is positive and the typing time is at most the total
    duration. *)
Theorem calculate_delays_cadence (text : str) (settings : Settings Q) :
  wpm settings <> 0 ->
  exists (pure : Q) (cad : CadenceProfile Q),
    pure_typing_time_sec text settings = inr pure /\
    _calculate_delays text settings = inr cad /\
    (let unclamped := inject_Z (len text) / 5 / inject_Z (wpm settings) * 60 in
     let total := total_minutes settings * 60 in
     (total <= unclamped -> pure == total * 0.95) /\
     (unclamped < total -> pure == unclamped) /\
     ((0 < len text)%Z -> char_delay cad == pure / inject_Z (len text)) /\
     (len text = 0%Z -> char_delay cad == 0.05) /\
     ((0 < wpm settings)%Z -> (0 < len text)%Z -> 0 < total_minutes settings ->
      0 < char_delay cad /\ pure <= total))%Q.
Proof.
  intros Hwpm. unfold _calculate_delays, pure_typing_time_sec.
  apply Z.eqb_neq in Hwpm. rewrite Hwpm.
  cbn [of_int lit fmul fdiv fsub fle Q_float AVG_CHARS_PER_WORD].
  change (inject_Z 5) with 5%Q. change (inject_Z 60) with 60%Q.
  set (unclamped := (inject_Z (len text) / 5 / inject_Z (wpm settings) * 60)%Q).
  set (total := (total_minutes settings * 60)%Q).
  set (pure := if Qle_bool total unclamped then (total * 0.95)%Q else unclamped).
  eexists pure, _. split; [reflexivity|]. split; [reflexivity|].
  cbn [char_delay]. cbv zeta.
  assert (Hclamp : (total <= unclamped -> pure == total * 0.95)%Q).
  { intros Hle. unfold pure. apply Qle_bool_iff in Hle. rewrite Hle. reflexivity. }
  assert (Hfree : (unclamped < total -> pure == unclamped)%Q).
  { intros Hlt. unfold pure. destruct (Qle_bool total unclamped) eqn:E; [|reflexivity].
    apply Qle_bool_iff in E. exfalso. apply (Qlt_irrefl total).
    eapply Qle_lt_trans; eauto. }
  split; [exact Hclamp|]. split; [exact Hfree|]. split; [|split].
  - intros Hlen. apply Z.ltb_lt in Hlen. rewrite Hlen. reflexivity.
  - intros Hlen. rewrite Hlen. reflexivity.
  - intros Hw Hlen Hmin.
    assert (Htotal : (0 < total)%Q) by (unfold total; lra).
    assert (Hun : (0 < unclamped)%Q) by (apply typing_time_unclamped_pos; assumption).
    assert (Hpure : (0 < pure /\ pure <= total)%Q).
    { destruct (Qlt_le_dec unclamped total) as [Hlt|Hle].
      - rewrite (Hfree Hlt). split; [assumption|lra].
      - rewrite (Hclamp Hle). split; lra. }
    split; [|apply Hpure].
    pose proof Hlen as Hlen'. apply Z.ltb_lt in Hlen'. rewrite Hlen'.
    apply Qlt_shift_div_l; [now apply inject_Z_pos|].
    rewrite Qmult_0_l. apply Hpure.
Qed.




Lemma calculate_delays_cadence_witness :
  exists (pure : Q) (cad : CadenceProfile Q),
    pure_typing_time_sec (py "hello world") (scenario 1%Q) = inr pure /\
    _calculate_delays (py "hello world") (scenario 1%Q) = inr cad /\
    (0 < char_delay cad /\ pure <= 1 * 60)%Q.
Proof.
  destruct (calculate_delays_cadence (py "hello world") (scenario 1%Q))
    as (pure & cad & Hp & Hc & _ & _ & _ & _ & Hpos).
  - vm_compute. discriminate.
  - exists pure, cad. split; [exact Hp|]. split; [exact Hc|].
    apply Hpos; vm_compute; reflexivity.
Defined.

(** C1 as stated fails. With a total duration of zero the typing time is
    clamped to zero and so is [char_delay], in exact arithmetic and in
    binary64; with a [wpm] of zero the calculation raises. *)
Lemma calculate_delays_zero_duration :
  (exists cad : CadenceProfile Q,
     _calculate_delays (py "a") (scenario 0%Q) = inr cad /\
     ~ (0 < char_delay cad)%Q) /\
  (exists cad : CadenceProfile float,
     _calculate_delays (py "a") (scenario 0%float) = inr cad /\
     PrimFloat.ltb 0 (char_delay cad) = false) /\
  (exists msg, _calculate_delays (py "a") stalled = inl (ZeroDivisionError msg)).
Proof.
  split; [|split].
  - eexists. split; [vm_compute; reflexivity|]. vm_compute. discriminate.
  - eexists. split; [vm_compute; reflexivity|]. vm_compute. reflexivity.
  - eexists. vm_compute. reflexivity.
Qed.

(** C7, as the code has it. For "hello world" (11 characters, 2 words, no
    sentence terminator) at 60 words per minute and one minute, the typing
    time is (11/5)/60*60 = 2.2 seconds, below 60 and so not clamped;
    [char_delay] is 2.2/11 = 0.2 and [word_pause] is 0.20*(60-2.2)/2 = 5.78.
    With a total of 5 seconds the typing time is still 2.2, below 5 and not
    clamped, and [char_delay] is still 0.2. In binary64 the values are the
    floats nearest to these. *)
Theorem calculate_delays_hello_world :
  len (py "hello world") = 11 /\
  length (split_ws (py "hello world")) = 2%nat /\
  (exists cad : CadenceProfile Q,
     pure_typing_time_sec (py "hello world") (scenario 1%Q) = inr (660 # 300)%Q /\
     _calculate_delays (py "hello world") (scenario 1%Q) = inr cad /\
     (660 # 300 == 2.2 /\ 2.2 < 1 * 60 /\
      char_delay cad == 0.2 /\ word_pause cad == 5.78)%Q) /\
  (exists cad : CadenceProfile Q,
     pure_typing_time_sec (py "hello world") (scenario (5 # 60)%Q) = inr (660 # 300)%Q /\
     _calculate_delays (py "hello world") (scenario (5 # 60)%Q) = inr cad /\
     ((5 # 60) * 60 == 5 /\ 2.2 < 5 /\ char_delay cad == 0.2)%Q) /\
  (exists cad : CadenceProfile float,
     pure_typing_time_sec (py "hello world") (scenario 1%float) = inr 2.2%float /\
     _calculate_delays (py "hello world") (scenario 1%float) = inr cad /\
     char_delay cad = 0.2%float /\ word_pause cad = 5.78%float).
Proof.
  split; [reflexivity|]. split; [reflexivity|]. split; [|split].
  - eexists. split; [vm_compute; reflexivity|]. split; [vm_compute; reflexivity|].
    cbn [char_delay word_pause]. repeat split; reflexivity.
  - eexists. split; [vm_compute; reflexivity|]. split; [vm_compute; reflexivity|].
    cbn [char_delay]. repeat split; reflexivity.
  - eexists. split; [vm_compute; reflexivity|]. split; [vm_compute; reflexivity|].
    split; vm_compute; reflexivity.
Qed.

(** C7 as stated fails: the typing time is 2.2 seconds, not 11, so
    [char_delay] is not 1.0 and [word_pause] is not 4.9; and at 5 seconds
    nothing is clamped, so [char_delay] is not 4.75/11. *)
Lemma calculate_delays_hello_world_not_11 :
  (exists cad : CadenceProfile Q,
     _calculate_delays (py "hello world") (scenario 1%Q) = inr cad /\
     ~ (char_delay cad == 1)%Q /\ ~ (word_pause cad == 4.9)%Q) /\
  ~ (pure_typing_time_sec (py "hello world") (scenario 1%Q) = inr 11%Q) /\
  (exists cad : CadenceProfile Q,
     _calculate_delays (py "hello world") (scenario (5 # 60)%Q) = inr cad /\
     ~ (char_delay cad == 4.75 / 11)%Q) /\
  (exists cad : CadenceProfile float,
     _calculate_delays (py "hello world") (scenario 1%float) = inr cad /\
     PrimFloat.eqb (char_delay cad) 1 = false /\
     PrimFloat.eqb (word_pause cad) 4.9 = false).
Proof.
  split; [|split; [|split]].
  - eexists. split; [vm_compute; reflexivity|]. split; vm_compute; discriminate.
  - vm_compute. intros E. inversion E.
  - eexists. split; [vm_compute; reflexivity|]. vm_compute. discriminate.
  - eexists. split; [vm_compute; reflexivity|]. split; vm_compute; reflexivity.
Qed.

(** ** Effects of the engine's actions *)

Section EngineEffects.
Context {F : Type} `{PyFloat F}.
Variable raw : nat -> N.

Lemma advance_nothing (s : Engine F) : advance 0 [] s = s.
Proof.
  destruct s as [cad q n tr]. unfold advance. cbn.
  now rewrite Nat.add_0_r, app_nil_r.
Qed.

Lemma advance_advance (n m : nat) (e1 e2 : list (Event F)) (s : Engine F) :
  advance m e2 (advance n e1 s) = advance (n + m) (e1 ++ e2) s.
Proof.
  unfold advance. cbn. now rewrite Nat.add_assoc, app_assoc.
Qed.

Lemma bind_run {A B} (m : M F A) (k : A -> M F B) (s s1 : Engine F) (a : A) :
  m s = (a, s1) -> bind m k s = k a s1.
Proof. intros E. unfold bind. now rewrite E. Qed.

Lemma type_char_run (c : ascii) (s : Engine F) :
  exists d : F,
    standard_timing (cadence s) c d /\
    _type_char raw c s = (tt, advance 1 [kb_type c; sleep d] s).
Proof.
  eexists. split.
  - exists (fst (random raw s)). reflexivity.
  - unfold _type_char, _sleep, uniform, random, bind, emit, gets, draw, ret, advance.
    cbn. now rewrite Nat.add_1_r, <- app_assoc.
Qed.

Lemma typed_cons (c : ascii) (d : F) (w : str) (ds : list F) :
  typed (c :: w) (d :: ds) = kb_type c :: sleep d :: typed w ds.
Proof. reflexivity. Qed.

Lemma for_each_type_char (w : str) (s : Engine F) :
  exists delays : list F,
    Forall2 (standard_timing (cadence s)) w delays /\
    for_each w (_type_char raw) s = (tt, advance (length w) (typed w delays) s).
Proof.
  revert s. induction w as [|c w IH]; intros s.
  - exists []. split; [constructor|]. cbn. now rewrite advance_nothing.
  - destruct (type_char_run c s) as (d & Hd & Erun).
    destruct (IH (advance 1 [kb_type c; sleep d] s)) as (ds & Hds & Erest).
    exists (d :: ds). split; [constructor; assumption|].
    cbn [for_each]. rewrite (bind_run _ _ _ _ _ Erun), Erest, advance_advance.
    reflexivity.
Qed.

Lemma press_and_release_run (k : Key) (pause : F) (s : Engine F) :
  press_and_release k pause s = (tt, advance 0 (presses k pause 1) s).
Proof.
  unfold press_and_release, _sleep, bind, emit, advance, presses. cbn.
  now rewrite Nat.add_0_r, <- !app_assoc.
Qed.

Lemma for_range_press (k : Key) (pause : F) (n : Z) (s : Engine F) :
  for_range n (press_and_release k pause) s
  = (tt, advance 0 (presses k pause (Z.to_nat n)) s).
Proof.
  unfold for_range. generalize (Z.to_nat n) as m. clear n. intros m. revert s.
  induction m as [|m IH]; intros s.
  - cbn. now rewrite advance_nothing.
  - cbn [repeat for_each].
    rewrite (bind_run _ _ _ _ _ (press_and_release_run k pause s)), IH, advance_advance.
    reflexivity.
Qed.

Lemma perform_correction_run (incorrect correct : str) (current_pos error_pos : Z)
    (s : Engine F) :
  exists delays : list F,
    Forall2 (standard_timing (cadence s)) correct delays /\
    _perform_correction raw incorrect correct current_pos error_pos s
    = (tt, advance (length correct)
             (presses Key_left (lit 0.02%Q) (Z.to_nat (current_pos - error_pos))
              ++ presses Key_backspace (lit 0.05%Q) (length incorrect)
              ++ typed correct delays
              ++ presses Key_right (lit 0.02%Q)
                   (Z.to_nat (current_pos - error_pos - len correct)))
             s).
Proof.
  unfold _perform_correction.
  set (left := presses Key_left (lit 0.02%Q) (Z.to_nat (current_pos - error_pos))).
  set (back := presses Key_backspace (lit 0.05%Q) (length incorrect)).
  destruct (for_each_type_char correct (advance 0 back (advance 0 left s)))
    as (delays & Hdelays & Etype).
  exists delays. split; [exact Hdelays|].
  rewrite (bind_run _ _ _ _ _ (for_range_press Key_left _ _ s)).
  rewrite (bind_run _ _ _ _ _ (for_range_press Key_backspace _ _ _)).
  replace (Z.to_nat (len incorrect)) with (length incorrect)
    by (unfold len; now rewrite Nat2Z.id).
  fold left back.
  rewrite (bind_run _ _ _ _ _ Etype), for_range_press, !advance_advance.
  cbn [Nat.add]. rewrite Nat.add_0_r, <- ?app_assoc. reflexivity.
Qed.

End EngineEffects.

(** C6. The correction maneuver performs, in this order and nothing else:
    [current_pos - error_pos] presses of the left arrow, each followed by a
    sleep of 0.02; [len(incorrect)] presses of backspace, each followed by a
    sleep of 0.05; the characters of [correct], each followed by its sleep
    of the per-character timing; and
    [current_pos - error_pos - len(correct)] presses of the right arrow (a
    count below zero gives no press). It sends no status and no progress,
    and leaves the queue of pending errors as it was. *)
Theorem perform_correction_key_sequence {F} `{PyFloat F} (raw : nat -> N)
    (incorrect correct : str) (current_pos error_pos : Z) (s : Engine F) :
  let distance := current_pos - error_pos in
  let s' := snd (_perform_correction raw incorrect correct current_pos error_pos s) in
  exists delays : list F,
    Forall2 (standard_timing (cadence s)) correct delays /\
    trace s' = trace s
               ++ presses Key_left (lit 0.02%Q) (Z.to_nat distance)
               ++ presses Key_backspace (lit 0.05%Q) (length incorrect)
               ++ typed correct delays
               ++ presses Key_right (lit 0.02%Q) (Z.to_nat (distance - len correct)) /\
    uncorrected_errors s' = uncorrected_errors s /\
    cadence s' = cadence s /\
    Forall keyboard_or_sleep
      (presses Key_left (lit 0.02%Q) (Z.to_nat distance)
       ++ presses Key_backspace (lit 0.05%Q) (length incorrect)
       ++ typed correct delays
       ++ presses Key_right (lit 0.02%Q) (Z.to_nat (distance - len correct))).
Proof.
  intros distance s'. subst s'.
  destruct (perform_correction_run raw incorrect correct current_pos error_pos s)
    as (delays & Hdelays & Erun).
  exists delays. rewrite Erun. cbn [snd advance trace uncorrected_errors cadence].
  repeat split; try assumption; try reflexivity.
  assert (Hpress : forall k d n, Forall keyboard_or_sleep (presses (F:=F) k d n)).
  { intros k d n. unfold presses. induction n as [|n IH]; cbn; [constructor|].
    repeat (constructor; [exact I|]). exact IH. }
  assert (Htyped : forall w ds, Forall keyboard_or_sleep (typed (F:=F) w ds)).
  { intros w. induction w as [|c w IH]; intros [|d ds]; try (cbn; constructor).
    - exact I.
    - constructor; [exact I|apply IH]. }
  repeat (apply Forall_app; split); auto.
Qed.

(** ** The parts of an iteration *)

Section Reaches.
Context {F : Type} `{PyFloat F}.

Lemma with_errors_same (s : Engine F) : with_errors (uncorrected_errors s) s = s.
Proof. now destruct s. Qed.

Lemma reaches_refl (s : Engine F) : reaches s (uncorrected_errors s) [] s.
Proof. exists 0%nat. now rewrite with_errors_same, advance_nothing. Qed.

Lemma reaches_advance (n : nat) (evs : list (Event F)) (s : Engine F) :
  reaches s (uncorrected_errors s) evs (advance n evs s).
Proof. exists n. now rewrite with_errors_same. Qed.

Lemma reaches_trans (s s1 s2 : Engine F) (q1 q2 : list PendingError)
    (e1 e2 : list (Event F)) :
  reaches s q1 e1 s1 -> reaches s1 q2 e2 s2 -> reaches s q2 (e1 ++ e2) s2.
Proof.
  intros [n1 ->] [n2 ->]. exists (n1 + n2)%nat.
  unfold advance, with_errors. cbn. now rewrite Nat.add_assoc, app_assoc.
Qed.

Lemma reaches_set_errors (s s1 : Engine F) (q1 q : list PendingError)
    (evs : list (Event F)) :
  reaches s q1 evs s1 -> reaches s q evs (with_errors q s1).
Proof. intros [n ->]. exists n. reflexivity. Qed.

Lemma reaches_facts (s s' : Engine F) (q : list PendingError) (evs : list (Event F)) :
  reaches s q evs s' ->
  trace s' = trace s ++ evs /\ uncorrected_errors s' = q /\ cadence s' = cadence s.
Proof. intros [n ->]. now repeat split. Qed.

Lemma plain_in_loop (n : Z) (evs : list (Event F)) :
  Forall (plain n) evs -> Forall (in_loop n) evs.
Proof.
  apply Forall_impl. intros e. unfold plain.
  destruct e as [| | | |m| | |]; try tauto. destruct m; tauto.
Qed.

Lemma plain_no_fixes (n : Z) (evs : list (Event F)) :
  Forall (plain n) evs -> fixes evs = [].
Proof.
  induction 1 as [|e evs He _ IH]; [reflexivity|].
  destruct e as [| | | |m| | |]; try exact IH. destruct m; try exact IH.
  destruct He.
Qed.

Lemma fixes_app (e1 e2 : list (Event F)) : fixes (e1 ++ e2) = fixes e1 ++ fixes e2.
Proof.
  induction e1 as [|e e1 IH]; [reflexivity|].
  destruct e as [| | | |m| | |]; try exact IH. destruct m; try exact IH.
  cbn. now rewrite IH.
Qed.

Lemma keyboard_or_sleep_plain (n : Z) (evs : list (Event F)) :
  Forall keyboard_or_sleep evs -> Forall (plain n) evs.
Proof.
  apply Forall_impl. intros e. destruct e; cbn; tauto.
Qed.

Lemma presses_keyboard_or_sleep (k : Key) (d : F) (n : nat) :
  Forall keyboard_or_sleep (presses k d n).
Proof.
  unfold presses. induction n as [|n IH]; cbn; [constructor|].
  repeat (constructor; [exact I|]). exact IH.
Qed.

Lemma typed_keyboard_or_sleep (w : str) (ds : list F) :
  Forall keyboard_or_sleep (typed w ds).
Proof.
  revert ds. induction w as [|c w IH]; intros [|d ds]; try (cbn; constructor).
  - exact I.
  - constructor; [exact I|apply IH].
Qed.

Variable raw : nat -> N.

Lemma draw_run (s : Engine F) : draw raw s = (raw (draws s), advance 1 [] s).
Proof.
  unfold draw, advance. now rewrite Nat.add_1_r, app_nil_r.
Qed.

Lemma randint_run (a b : Z) (s : Engine F) :
  exists r : Z, randint raw a b s = (r, advance 1 [] s).
Proof. eexists. unfold randint. now rewrite (bind_run _ _ _ _ _ (draw_run s)). Qed.

Lemma random_run (s : Engine F) :
  exists u : F, random raw s = (u, advance 1 [] s).
Proof. eexists. unfold random. now rewrite (bind_run _ _ _ _ _ (draw_run s)). Qed.

Lemma uniform_run (a b : F) (s : Engine F) :
  exists u : F, uniform raw a b s = (u, advance 1 [] s).
Proof.
  destruct (random_run s) as (u & E). eexists. unfold uniform.
  now rewrite (bind_run _ _ _ _ _ E).
Qed.

Lemma choice_run {A} (l : list A) (d : A) (s : Engine F) :
  exists x : A, choice raw l d s = (x, advance 1 [] s).
Proof. eexists. unfold choice. now rewrite (bind_run _ _ _ _ _ (draw_run s)). Qed.

Lemma emit_run (e : Event F) (s : Engine F) : emit e s = (tt, advance 0 [e] s).
Proof. unfold emit, advance. now rewrite Nat.add_0_r. Qed.

(** [_get_mistake] only draws; what it returns as correct text is the word. *)
Lemma get_mistake_run (word : str) (s : Engine F) :
  exists (wrong : str) (right : option str) (n : nat),
    _get_mistake raw word s = ((wrong, right), advance n [] s) /\
    (right = None \/ right = Some word).
Proof.
  unfold _get_mistake.
  destruct ((len word <? 3) || negb (isalpha word)).
  { exists word, None, 0%nat. rewrite advance_nothing. split; [reflexivity|now left]. }
  destruct (choice_run [adjacency; transposition; omission; insertion] adjacency s)
    as (kind & Ekind).
  rewrite (bind_run _ _ _ _ _ Ekind).
  destruct (randint_run 0 (len word - 1) (advance 1 [] s)) as (idx & Eidx).
  rewrite (bind_run _ _ _ _ _ Eidx), advance_advance. cbn [app Nat.add].
  destruct (MistakeType_eqb kind adjacency && (1 <? len word)).
  { destruct (lookup (char_lower (at_index idx word)) adj_map) as [neighbours|].
    - destruct (choice_run neighbours SPACE (advance 2 [] s)) as (c & Ec).
      rewrite (bind_run _ _ _ _ _ Ec), advance_advance.
      do 3 eexists. split; [reflexivity|now right].
    - do 3 eexists. split; [reflexivity|now left]. }
  destruct (MistakeType_eqb kind transposition && (1 <? len word)).
  { destruct (randint_run 0 (len word - 2) (advance 2 [] s)) as (j & Ej).
    rewrite (bind_run _ _ _ _ _ Ej), advance_advance.
    do 3 eexists. split; [reflexivity|now right]. }
  destruct (MistakeType_eqb kind omission).
  { do 3 eexists. split; [reflexivity|now right]. }
  destruct (MistakeType_eqb kind insertion).
  { destruct (choice_run (py "aeiou") SPACE (advance 2 [] s)) as (c & Ec).
    rewrite (bind_run _ _ _ _ _ Ec), advance_advance.
    do 3 eexists. split; [reflexivity|now right]. }
  do 3 eexists. split; [reflexivity|now left].
Qed.

End Reaches.

Section Iteration.
Context {F : Type} `{PyFloat F}.
Variable raw : nat -> N.
Variable text_to_type : str.
Variable settings : Settings F.

(** The correction check takes nothing from an empty queue and at most the
    oldest entry from another, and announces what it takes. *)
Lemma delayed_correction_check_run (current_pos n : Z) (s : Engine F) :
  exists (popped rest : list PendingError) (evs : list (Event F)) (s' : Engine F),
    delayed_correction_check raw settings current_pos s = (tt, s') /\
    reaches s rest evs s' /\
    uncorrected_errors s = popped ++ rest /\
    (length popped <= 1)%nat /\
    fixes evs = map incorrect popped /\
    Forall (in_loop n) evs.
Proof.
  unfold delayed_correction_check, gets. unfold bind at 1.
  destruct (uncorrected_errors s) as [|e rest] eqn:Eq.
  { exists [], [], [], s. split; [reflexivity|].
    split; [rewrite <- Eq; apply reaches_refl|].
    repeat split; auto. }
  destruct (randint_run raw 1 100 s) as (r & Er). rewrite (bind_run _ _ _ _ _ Er).
  destruct (r <=? correction_delay settings).
  - set (s1 := advance 0 [status_update (Going_back_to_fix (incorrect e))]
                 (with_errors rest (advance 1 [] s))).
    destruct (perform_correction_run raw (incorrect e) (correct e) current_pos (pos e) s1)
      as (delays & _ & Ecorr).
    eexists [e], rest, _, _. split.
    + unfold set_errors, bind at 1.
      rewrite (bind_run _ _ _ _ _ (emit_run _ _)).
      fold (with_errors rest (advance 1 [] s)). fold s1.
      rewrite (bind_run _ _ _ _ _ Ecorr), emit_run. reflexivity.
    + split; [|split; [reflexivity|split; [cbn; lia|]]].
      * eapply reaches_trans; [|apply reaches_advance].
        eapply reaches_trans; [|apply reaches_advance].
        unfold s1. eapply reaches_trans; [|apply reaches_advance].
        apply reaches_set_errors with (q1 := uncorrected_errors s).
        apply reaches_advance.
      * cbn [app]. split.
        -- cbn [fixes map]. f_equal. rewrite fixes_app. cbn [fixes].
           rewrite app_nil_r. apply (plain_no_fixes n).
           apply keyboard_or_sleep_plain.
           repeat (apply Forall_app; split);
             auto using presses_keyboard_or_sleep, typed_keyboard_or_sleep.
        -- constructor; [exact I|]. apply Forall_app. split.
           ++ apply plain_in_loop, keyboard_or_sleep_plain.
              repeat (apply Forall_app; split);
                auto using presses_keyboard_or_sleep, typed_keyboard_or_sleep.
           ++ constructor; [exact I|constructor].
  - exists [], (e :: rest), [], (advance 1 [] s). split; [reflexivity|].
    split; [rewrite <- Eq; apply reaches_advance|].
    repeat split; auto.
Qed.

Lemma thinking_pause_check_run (n : Z) (s : Engine F) :
  exists (evs : list (Event F)) (s' : Engine F),
    thinking_pause_check raw settings s = (tt, s') /\
    reaches s (uncorrected_errors s) evs s' /\
    Forall (plain n) evs.
Proof.
  unfold thinking_pause_check.
  destruct (randint_run raw 1 100 s) as (r & Er). rewrite (bind_run _ _ _ _ _ Er).
  destruct (r <=? thinking_chance settings).
  - destruct (uniform_run raw (of_int (fst (thinking_duration settings)))
                (of_int (snd (thinking_duration settings))) (advance 1 [] s))
      as (d & Ed).
    rewrite (bind_run _ _ _ _ _ Ed), (bind_run _ _ _ _ _ (emit_run _ _)).
    unfold _sleep. rewrite emit_run, !advance_advance.
    do 2 eexists. split; [reflexivity|]. split; [apply reaches_advance|].
    repeat constructor.
  - do 2 eexists. split; [reflexivity|]. split; [apply reaches_advance|constructor].
Qed.

Lemma for_each_type_char_reaches (w : str) (n : Z) (s : Engine F) :
  exists (evs : list (Event F)) (s' : Engine F),
    for_each w (_type_char raw) s = (tt, s') /\
    reaches s (uncorrected_errors s) evs s' /\
    Forall (plain n) evs.
Proof.
  destruct (for_each_type_char raw w s) as (ds & _ & E).
  do 2 eexists. split; [exact E|]. split; [apply reaches_advance|].
  apply keyboard_or_sleep_plain, typed_keyboard_or_sleep.
Qed.

(** Typing a word adds at most one entry to the queue, at its end; the
    entry holds the word as correct text and the position before it. *)
Lemma type_word_run (word : str) (current_pos n : Z) (s : Engine F) :
  exists (pushed : list PendingError) (evs : list (Event F)) (s' : Engine F),
    type_word raw settings word current_pos s = (tt, s') /\
    reaches s (uncorrected_errors s ++ pushed) evs s' /\
    (length pushed <= 1)%nat /\
    Forall (fun e => pos e = current_pos /\ correct e = word) pushed /\
    Forall (plain n) evs.
Proof.
  assert (Hsame : forall s0 : Engine F,
    reaches s (uncorrected_errors s) [] s0 ->
    exists (pushed : list PendingError) (evs : list (Event F)) (s' : Engine F),
      for_each word (_type_char raw) s0 = (tt, s') /\
      reaches s (uncorrected_errors s ++ pushed) evs s' /\
      (length pushed <= 1)%nat /\
      Forall (fun e => pos e = current_pos /\ correct e = word) pushed /\
      Forall (plain n) evs).
  { intros s0 Hs0.
    destruct (for_each_type_char_reaches word n s0) as (evs & s' & E & Hr & Hp).
    exists [], evs, s'. rewrite app_nil_r. split; [exact E|].
    split; [|split; [cbn; lia|split; [constructor|exact Hp]]].
    destruct (reaches_facts _ _ _ _ Hs0) as (_ & Hq & _). rewrite Hq in Hr.
    apply (reaches_trans _ _ _ _ _ _ _ Hs0 Hr). }
  unfold type_word. destruct (isalpha word); [|apply Hsame, reaches_refl].
  destruct (random_run raw s) as (u & Eu). rewrite (bind_run _ _ _ _ _ Eu).
  destruct (flt u (of_int (error_rate settings) / of_int 100)%py);
    [|apply Hsame, reaches_advance].
  destruct (get_mistake_run raw word (advance 1 [] s)) as (wrong & right & k & Em & Hright).
  rewrite (bind_run _ _ _ _ _ Em), advance_advance. cbn [app].
  destruct (truthy right) eqn:Etruthy; [|apply Hsame, reaches_advance].
  destruct Hright as [->| ->]; [discriminate|].
  unfold gets, set_errors. unfold bind at 1. unfold bind at 1.
  cbn [uncorrected_errors advance cadence draws trace].
  set (entry := {| incorrect := wrong; correct := word; pos := current_pos |}).
  set (s1 := {| cadence := cadence s;
                uncorrected_errors := uncorrected_errors s ++ [entry];
                draws := (draws s + (1 + k))%nat;
                trace := trace s ++ [] |}).
  assert (Hs1 : reaches s (uncorrected_errors s ++ [entry]) [] s1).
  { exists (1 + k)%nat. reflexivity. }
  destruct (for_each_type_char_reaches wrong n s1) as (evs & s' & E & Hr & Hp).
  exists [entry], evs, s'. split; [exact E|].
  split; [|split; [cbn; lia|split; [repeat constructor|exact Hp]]].
  apply (reaches_trans _ _ _ _ _ _ _ Hs1 Hr).
Qed.

Lemma post_word_actions_run (i : Z) (word : str) (s : Engine F) :
  exists (evs : list (Event F)) (s' : Engine F),
    post_word_actions raw text_to_type settings i word s = (tt, s') /\
    reaches s (uncorrected_errors s) evs s' /\
    Forall (plain (progress_at F i (Z.of_nat (length (words text_to_type))))) evs.
Proof.
  unfold post_word_actions, _sleep, gets.
  rewrite (bind_run _ _ _ _ _ (emit_run _ _)).
  fold (progress_at F i (Z.of_nat (length (words text_to_type)))).
  set (n := progress_at F i (Z.of_nat (length (words text_to_type)))).
  set (s1 := advance 0 [progress n] s).
  assert (Hs1 : reaches s (uncorrected_errors s) [progress n] s1)
    by apply reaches_advance.
  assert (Hdone : forall (evs : list (Event F)) (s' : Engine F),
    reaches s1 (uncorrected_errors s1) evs s' -> Forall (plain n) evs ->
    reaches s (uncorrected_errors s) ([progress n] ++ evs) s' /\
    Forall (plain n) ([progress n] ++ evs)).
  { intros evs s' Hr Hp. split.
    - apply (reaches_trans _ _ _ _ _ _ _ Hs1 Hr).
    - constructor; [reflexivity|exact Hp]. }
  destruct (str_eqb word [NEWLINE]).
  - destruct (randint_run raw 1 100 s1) as (r & Er). rewrite (bind_run _ _ _ _ _ Er).
    destruct (r <=? afk_chance settings).
    + destruct (uniform_run raw (of_int (fst (afk_duration settings)))
                  (of_int (snd (afk_duration settings))) (advance 1 [] s1))
        as (d & Ed).
      rewrite (bind_run _ _ _ _ _ Ed), (bind_run _ _ _ _ _ (emit_run _ _)).
      rewrite emit_run, !advance_advance.
      do 2 eexists. split; [reflexivity|].
      apply Hdone; [apply reaches_advance|repeat constructor].
    + unfold bind. rewrite emit_run, advance_advance.
      do 2 eexists. split; [reflexivity|].
      apply Hdone; [apply reaches_advance|repeat constructor].
  - destruct (ends_sentence word).
    + unfold bind. rewrite emit_run.
      do 2 eexists. split; [reflexivity|].
      apply Hdone; [apply reaches_advance|repeat constructor].
    + destruct (type_char_run raw SPACE s1) as (d & _ & Ed).
      rewrite (bind_run _ _ _ _ _ Ed). unfold bind.
      rewrite emit_run, advance_advance.
      do 2 eexists. split; [reflexivity|].
      apply Hdone; [apply reaches_advance|repeat constructor].
Qed.

(** One iteration: the position advances by the length of the token plus
    one, the queue loses at most its oldest entry and gains at most one at
    its end, and the corrections announced are the entries taken. *)
Lemma iteration_run (i : Z) (word : str) (current_pos : Z) (s : Engine F) :
  exists (popped rest pushed : list PendingError) (evs : list (Event F))
         (s' : Engine F),
    iteration raw text_to_type settings i word current_pos s
      = (current_pos + (len word + 1), s') /\
    reaches s (rest ++ pushed) evs s' /\
    uncorrected_errors s = popped ++ rest /\
    (length popped <= 1)%nat /\ (length pushed <= 1)%nat /\
    Forall (fun e => pos e = current_pos /\ correct e = word) pushed /\
    fixes evs = map incorrect popped /\
    Forall (in_loop (progress_at F i (Z.of_nat (length (words text_to_type))))) evs.
Proof.
  set (n := progress_at F i (Z.of_nat (length (words text_to_type)))).
  unfold iteration.
  destruct (delayed_correction_check_run current_pos n s)
    as (popped & rest & e1 & s1 & E1 & R1 & Hq & Hpop & Hfix & L1).
  destruct (thinking_pause_check_run n s1) as (e2 & s2 & E2 & R2 & L2).
  destruct (type_word_run word current_pos n s2)
    as (pushed & e3 & s3 & E3 & R3 & Hpush & Hentry & L3).
  destruct (post_word_actions_run i word s3) as (e4 & s4 & E4 & R4 & L4).
  fold n in L4.
  rewrite (bind_run _ _ _ _ _ E1), (bind_run _ _ _ _ _ E2),
    (bind_run _ _ _ _ _ E3), (bind_run _ _ _ _ _ E4).
  destruct (reaches_facts _ _ _ _ R1) as (_ & Q1 & _).
  destruct (reaches_facts _ _ _ _ R2) as (_ & Q2 & _).
  destruct (reaches_facts _ _ _ _ R3) as (_ & Q3 & _).
  rewrite Q1 in R2. rewrite Q2, Q1 in Q3, R3. rewrite Q3 in R4.
  exists popped, rest, pushed, (e1 ++ e2 ++ e3 ++ e4), s4.
  split; [reflexivity|]. split.
  { apply (reaches_trans _ _ _ _ _ _ _ R1).
    apply (reaches_trans _ _ _ _ _ _ _ R2).
    apply (reaches_trans _ _ _ _ _ _ _ R3 R4). }
  repeat (split; [assumption|]). split.
  - rewrite !fixes_app, Hfix, (plain_no_fixes n e2 L2), (plain_no_fixes n e3 L3),
      (plain_no_fixes n e4 L4). now rewrite !app_nil_r.
  - repeat (apply Forall_app; split); auto using plain_in_loop.
Qed.

End Iteration.

(** ** The loop *)

Section Loop.
Context {F : Type} `{PyFloat F}.
Variable raw : nat -> N.
Variable stop_request : option nat.
Variable text_to_type : str.
Variable settings : Settings F.

Lemma is_stopped_run (s : Engine F) :
  is_stopped stop_request s = (stop_seen stop_request s, s).
Proof. reflexivity. Qed.

(** Once seen, the request stays seen: the trace only grows. *)
Lemma stop_seen_later (s s' : Engine F) (q : list PendingError) (evs : list (Event F)) :
  reaches s q evs s' -> stop_seen stop_request s = true ->
  stop_seen stop_request s' = true.
Proof.
  intros Hr. destruct (reaches_facts _ _ _ _ Hr) as (T & _).
  unfold stop_seen, is_stopped. cbn [fst]. destruct stop_request as [t|]; [|easy].
  rewrite T, length_app, !Nat.leb_le. lia.
Qed.

(** With the request seen at the head of an iteration, the loop ends
    there: no event, no draw, no change. *)
Lemma loop_stopped (i : Z) (rest : list str) (current_pos : Z) (s : Engine F) :
  stop_seen stop_request s = true ->
  loop raw stop_request text_to_type settings i rest current_pos s = (current_pos, s).
Proof.
  intros Hseen. destruct rest as [|word rest]; [reflexivity|].
  cbn [loop]. rewrite (bind_run _ _ _ _ _ (is_stopped_run s)), Hseen. reflexivity.
Qed.

Lemma offsets_app (p : Z) (ws vs : list str) :
  offsets p (ws ++ vs) = offsets p ws ++ offsets (p + span ws) vs.
Proof.
  revert p. induction ws as [|w ws IH]; intros p.
  - cbn. now rewrite Z.add_0_r.
  - cbn [app offsets span fold_right]. rewrite IH. unfold span.
    now replace (p + (len w + 1) + fold_right (fun w acc => len w + 1 + acc) 0 ws)
      with (p + (len w + 1 + fold_right (fun w acc => len w + 1 + acc) 0 ws)) by lia.
Qed.

(** The loop as a whole. [processed] are the tokens it went through. *)
Lemma loop_run (i : Z) (rest : list str) (current_pos : Z) (s : Engine F) :
  exists (processed left_over : list str) (popped pushed : list PendingError)
         (evs : list (Event F)) (s' : Engine F),
    loop raw stop_request text_to_type settings i rest current_pos s
      = (current_pos + span processed, s') /\
    rest = processed ++ left_over /\
    (left_over = [] \/ stop_seen stop_request s' = true) /\
    reaches s (uncorrected_errors s') evs s' /\
    uncorrected_errors s ++ pushed = popped ++ uncorrected_errors s' /\
    fixes evs = map incorrect popped /\
    Forall (fun e => In (pos e, correct e) (offsets current_pos processed)) pushed /\
    Forall (fun e => exists j : Z,
                i <= j < i + Z.of_nat (length processed) /\
                in_loop (progress_at F j (Z.of_nat (length (words text_to_type)))) e)
           evs.
Proof.
  revert i current_pos s. induction rest as [|word rest IH]; intros i current_pos s.
  { exists [], [], [], [], [], s. cbn [loop span fold_right].
    rewrite Z.add_0_r, app_nil_r.
    repeat split; auto using reaches_refl, app_nil_r; constructor. }
  cbn [loop]. rewrite (bind_run _ _ _ _ _ (is_stopped_run s)).
  destruct (stop_seen stop_request s) eqn:Hseen.
  { exists [], (word :: rest), [], [], [], s. cbn [span fold_right].
    rewrite Z.add_0_r, app_nil_r.
    repeat split; auto using reaches_refl, app_nil_r; constructor. }
  destruct (iteration_run raw text_to_type settings i word current_pos s)
    as (p1 & r1 & u1 & e1 & s1 & E1 & R1 & Hq1 & _ & _ & Hu1 & Hf1 & L1).
  rewrite (bind_run _ _ _ _ _ E1).
  destruct (IH (i + 1) (current_pos + (len word + 1)) s1)
    as (processed & left_over & popped & pushed & evs & s' & E & Hrest & Hend & R
        & Hq & Hf & Hu & L).
  destruct (reaches_facts _ _ _ _ R1) as (_ & Q1 & _).
  exists (word :: processed), left_over, (p1 ++ popped), (u1 ++ pushed), (e1 ++ evs), s'.
  split.
  { rewrite E. f_equal. cbn [span fold_right]. fold (span processed). lia. }
  split; [cbn [app]; now rewrite Hrest|]. split; [exact Hend|]. split.
  { eapply reaches_trans; [exact R1|exact R]. }
  split.
  { rewrite Hq1, <- !app_assoc, <- Hq, Q1, <- !app_assoc. reflexivity. }
  split; [now rewrite fixes_app, map_app, Hf1, Hf|]. split.
  - apply Forall_app. split.
    + revert Hu1. apply Forall_impl. intros e [-> ->]. now left.
    + revert Hu. apply Forall_impl. intros e Hin. now right.
  - apply Forall_app. split.
    + revert L1. apply Forall_impl. intros e He. exists i.
      split; [cbn [length]; lia|exact He].
    + revert L. apply Forall_impl. intros e (j & Hj & He). exists j.
      split; [cbn [length]; lia|exact He].
Qed.

End Loop.

(** ** The run *)

Section Run.
Context {F : Type} `{PyFloat F}.
Variable raw : nat -> N.
Variable stop_request : option nat.
Variable text_to_type : str.
Variable settings : Settings F.

Lemma occurrences_app (p : Event F -> bool) (e1 e2 : list (Event F)) :
  occurrences p (e1 ++ e2) = (occurrences p e1 + occurrences p e2)%nat.
Proof. unfold occurrences. now rewrite filter_app, length_app. Qed.

Lemma occurrences_none (p : Event F -> bool) (evs : list (Event F)) :
  Forall (fun e => p e = false) evs -> occurrences p evs = 0%nat.
Proof.
  unfold occurrences. induction 1 as [|e evs He _ IH]; [reflexivity|].
  cbn [filter]. now rewrite He.
Qed.

(** What [run] has done when the loop ends: the two opening statuses around
    the lead-in sleep, then events of the loop for tokens of the text. *)
Lemma run_loop_run (cad : CadenceProfile F) :
  exists (processed left_over : list str) (evs : list (Event F)),
    words text_to_type = processed ++ left_over /\
    (left_over = [] \/
     stop_seen stop_request
       (snd (run_loop raw stop_request text_to_type settings (init cad))) = true) /\
    fst (run_loop raw stop_request text_to_type settings (init cad)) = span processed /\
    trace (snd (run_loop raw stop_request text_to_type settings (init cad)))
      = [status_update Starting_in_5_seconds; sleep (of_int 5);
         status_update Typing_started] ++ evs /\
    Forall (fun e => exists j : Z,
                0 <= j < Z.of_nat (length (words text_to_type)) /\
                in_loop (progress_at F j (Z.of_nat (length (words text_to_type)))) e)
           evs.
Proof.
  unfold run_loop, _sleep.
  rewrite (bind_run _ _ _ _ _ (emit_run _ _)), (bind_run _ _ _ _ _ (emit_run _ _)),
    (bind_run _ _ _ _ _ (emit_run _ _)), !advance_advance.
  cbn [app Nat.add].
  set (s0 := advance 0 _ (init cad)).
  destruct (loop_run raw stop_request text_to_type settings 0 (words text_to_type) 0 s0)
    as (processed & left_over & popped & pushed & evs & s' & E & Hrest & Hend & R & _
        & _ & _ & L).
  exists processed, left_over, evs. rewrite E. cbn [fst snd].
  destruct (reaches_facts _ _ _ _ R) as (T & _).
  repeat split; try assumption.
  revert L. apply Forall_impl. intros e (j & Hj & He). exists j.
  split; [|exact He].
  assert (length processed <= length (words text_to_type))%nat
    by (rewrite Hrest, length_app; lia).
  lia.
Qed.

Lemma run_report_run (s : Engine F) :
  run_report stop_request s
  = (tt, advance 0
           (if stop_seen stop_request s
            then [status_update Typing_stopped_by_user]
            else [status_update Typing_finished_successfully; progress 100]) s).
Proof.
  unfold run_report. rewrite (bind_run _ _ _ _ _ (is_stopped_run stop_request s)).
  destruct (stop_seen stop_request s); cbn [negb].
  - apply emit_run.
  - now rewrite (bind_run _ _ _ _ _ (emit_run _ _)), emit_run, advance_advance.
Qed.

Lemma run_succeeds (cad : CadenceProfile F) :
  _calculate_delays text_to_type settings = inr cad ->
  run raw stop_request text_to_type settings
  = (None,
     Some (snd (run_report stop_request
                  (snd (run_loop raw stop_request text_to_type settings (init cad)))))).
Proof.
  intros E. unfold run. rewrite E. unfold bind.
  now destruct (run_loop raw stop_request text_to_type settings (init cad)).
Qed.

End Run.

(** In exact arithmetic the progress reported inside the loop is below
    100. *)
Lemma progress_at_below_100 (j total : Z) :
  0 <= j < total -> progress_at Q j total < 100.
Proof.
  intros Hj. unfold progress_at. cbn [to_int of_int fdiv fmul Q_float].
  set (q := (inject_Z j / inject_Z total * inject_Z 100)%Q).
  assert (Hq : (0 <= q < 100)%Q).
  { assert (Ht : (0 < inject_Z total)%Q) by (apply inject_Z_pos; lia).
    assert (Hj0 : (0 <= inject_Z j)%Q) by (unfold Qle, inject_Z; cbn; lia).
    assert (Hjt : (inject_Z j < inject_Z total)%Q) by (unfold Qlt, inject_Z; cbn; lia).
    assert (Hd0 : (0 <= inject_Z j / inject_Z total)%Q).
    { apply Qle_shift_div_l; [exact Ht|]. now rewrite Qmult_0_l. }
    assert (Hd1 : (inject_Z j / inject_Z total < 1)%Q).
    { apply Qlt_shift_div_r; [exact Ht|]. now rewrite Qmult_1_l. }
    unfold q. change (inject_Z 100) with 100%Q. split; lra. }
  clearbody q. destruct q as [n d]. destruct Hq as [Hq0 Hq1].
  unfold Qle, Qlt in Hq0, Hq1. cbn in Hq0, Hq1 |- *.
  apply Z.quot_lt_upper_bound; lia.
Qed.

(** ** The queue of pending errors *)

(** C2. The queue is consumed first in, first out. In one iteration the
    correction check takes at most one entry, none from an empty queue, and
    the one it takes is the oldest; a new entry goes to the end. Over the
    loop, the entries corrected, in the order in which the corrections are
    announced, are a prefix of the queue at the start followed by the
    entries added, in the order of their insertion: with [E1] pending
    before [E2], the loop corrects nothing, or [E1] only, or [E1] and then
    [E2]. *)
Theorem pending_errors_fifo {F} `{PyFloat F} (raw : nat -> N)
    (stop_request : option nat) (text_to_type : str) (settings : Settings F) :
  (forall (i : Z) (word : str) (current_pos : Z) (s : Engine F),
     let s' := snd (iteration raw text_to_type settings i word current_pos s) in
     exists (popped rest pushed : list PendingError) (evs : list (Event F)),
       trace s' = trace s ++ evs /\
       uncorrected_errors s = popped ++ rest /\
       uncorrected_errors s' = rest ++ pushed /\
       (length popped <= 1)%nat /\
       fixes evs = map incorrect popped) /\
  (forall (i : Z) (rest : list str) (current_pos : Z) (s : Engine F),
     let s' := snd (loop raw stop_request text_to_type settings i rest current_pos s) in
     exists (popped pushed : list PendingError) (evs : list (Event F)),
       trace s' = trace s ++ evs /\
       uncorrected_errors s ++ pushed = popped ++ uncorrected_errors s' /\
       fixes evs = map incorrect popped /\
       (forall (E1 E2 : PendingError) (q : list PendingError),
          uncorrected_errors s = E1 :: E2 :: q ->
          popped = [] \/ popped = [E1] \/ exists later, popped = E1 :: E2 :: later)).
Proof.
  split.
  - intros i word current_pos s s'. subst s'.
    destruct (iteration_run raw text_to_type settings i word current_pos s)
      as (popped & rest & pushed & evs & s' & E & R & Hq & Hpop & _ & _ & Hfix & _).
    rewrite E. cbn [snd]. destruct (reaches_facts _ _ _ _ R) as (T & Q & _).
    exists popped, rest, pushed, evs. auto.
  - intros i rest current_pos s s'. subst s'.
    destruct (loop_run raw stop_request text_to_type settings i rest current_pos s)
      as (processed & left_over & popped & pushed & evs & s' & E & _ & _ & R & Hq
          & Hfix & _).
    rewrite E. cbn [snd]. destruct (reaches_facts _ _ _ _ R) as (T & _).
    exists popped, pushed, evs. repeat split; auto.
    intros E1 E2 q Hpending. rewrite Hpending in Hq.
    destruct popped as [|a [|b later]]; [now left|right; left|right; right].
    + now injection Hq as <- _.
    + injection Hq as <- <- _. now exists later.
Qed.

(** ** The cursor offset *)

Lemma randint_range (raw : nat -> N) {F} (a b : Z) (s : Engine F) :
  a <= b -> a <= fst (randint raw a b s) <= b.
Proof.
  intros Hab. unfold randint, bind, draw, ret. cbn [fst].
  pose proof (Z.mod_pos_bound (Z.of_N (raw (draws s))) (b - a + 1)). lia.
Qed.

Lemma len_app (a b : str) : len (a ++ b) = len a + len b.
Proof. unfold len. rewrite length_app. lia. Qed.

Lemma len_upto (i : Z) (w : str) : 0 <= i <= len w -> len (upto i w) = i.
Proof. unfold len, upto. intros Hi. rewrite firstn_length_le; lia. Qed.

Lemma len_from (i : Z) (w : str) : 0 <= i <= len w -> len (from i w) = len w - i.
Proof. unfold len, from. intros Hi. rewrite length_skipn. lia. Qed.



(** ** Stop and completion *)

(** C3. In either arithmetic: when the stop request is seen at the head of
    an iteration the loop ends there, with no further event; when it has
    arrived by the time the loop ends, the run reports the stopped status
    once, as its last event, and no finished status and no progress after
    it; otherwise the loop has gone through every token, and the run reports
    the finished status once and then the progress of 100. In exact
    arithmetic no progress of 100 is reported before that, so a stopped run
    reports none at all. *)
Theorem stop_request_ends_run :
  (forall (F : Type) (HF : PyFloat F) (raw : nat -> N) (stop_request : option nat)
          (text_to_type : str) (settings : Settings F) (cad : CadenceProfile F),
     _calculate_delays text_to_type settings = inr cad ->
     let body :=
       trace (snd (run_loop raw stop_request text_to_type settings (init cad))) in
     exists s_end : Engine F,
       run raw stop_request text_to_type settings = (None, Some s_end) /\
       (forall (i : Z) (rest : list str) (current_pos : Z) (s : Engine F) (t : nat),
          stop_request = Some t -> (t <= length (trace s))%nat ->
          loop raw stop_request text_to_type settings i rest current_pos s
            = (current_pos, s)) /\
       (forall t : nat,
          stop_request = Some t -> (t <= length body)%nat ->
          trace s_end = body ++ [status_update Typing_stopped_by_user] /\
          occurrences is_stopped_report (trace s_end) = 1%nat /\
          occurrences is_finished_report (trace s_end) = 0%nat) /\
       ((stop_request = None \/
         exists t : nat, stop_request = Some t /\ (length body < t)%nat) ->
        fst (run_loop raw stop_request text_to_type settings (init cad))
          = span (words text_to_type) /\
        trace s_end
          = body ++ [status_update Typing_finished_successfully; progress 100] /\
        occurrences is_stopped_report (trace s_end) = 0%nat /\
        occurrences is_finished_report (trace s_end) = 1%nat)) /\
  (forall (raw : nat -> N) (stop_request : option nat) (text_to_type : str)
          (settings : Settings Q) (cad : CadenceProfile Q),
     occurrences is_full_progress
       (trace (snd (run_loop raw stop_request text_to_type settings (init cad))))
     = 0%nat).
Proof.
  split.
  - intros F HF raw stop_request text_to_type settings cad Hcad body.
    eexists. split; [apply run_succeeds, Hcad|]. split.
    { intros i rest current_pos s t -> Ht. apply loop_stopped.
      unfold stop_seen, is_stopped. cbn [fst]. now apply Nat.leb_le. }
    destruct (run_loop_run raw stop_request text_to_type settings cad)
      as (processed & left_over & evs & Hwords & Hend & Hpos & T & L).
    fold body in T.
    set (s1 := snd (run_loop raw stop_request text_to_type settings (init cad))) in *.
    rewrite run_report_run. cbn [snd advance trace]. fold body.
    assert (Hquiet : forall p : Event F -> bool,
              (forall e n, in_loop n e -> p e = false) ->
              p (status_update Starting_in_5_seconds) = false ->
              p (sleep (of_int 5)) = false ->
              p (status_update Typing_started) = false ->
              occurrences p body = 0%nat).
    { intros p Hp H1 H2 H3. rewrite T. apply occurrences_none.
      repeat (constructor; [assumption|]).
      revert L. apply Forall_impl. intros e (j & _ & He). exact (Hp e _ He). }
    assert (Hstopped : occurrences is_stopped_report body = 0%nat).
    { apply Hquiet; try reflexivity. intros e n He.
      destruct e as [| | | |m| | |]; try reflexivity.
      destruct m; try reflexivity; destruct He. }
    assert (Hfinished : occurrences is_finished_report body = 0%nat).
    { apply Hquiet; try reflexivity. intros e n He.
      destruct e as [| | | |m| | |]; try reflexivity.
      destruct m; try reflexivity; destruct He. }
    split.
    + intros t Hstop Ht.
      assert (Hseen : stop_seen stop_request s1 = true).
      { unfold stop_seen, is_stopped. rewrite Hstop. cbn [fst]. now apply Nat.leb_le. }
      rewrite Hseen. rewrite !occurrences_app, Hstopped, Hfinished.
      repeat split; reflexivity.
    + intros Hnot.
      assert (Hseen : stop_seen stop_request s1 = false).
      { unfold stop_seen, is_stopped. cbn [fst].
        destruct Hnot as [->|(t & -> & Ht)]; [reflexivity|].
        apply Nat.leb_gt. exact Ht. }
      split.
      { rewrite Hpos. destruct Hend as [->|Hend]; [|congruence].
        now rewrite Hwords, app_nil_r. }
      rewrite Hseen. rewrite !occurrences_app, Hstopped, Hfinished.
      repeat split; reflexivity.
  - intros raw stop_request text_to_type settings cad.
    destruct (run_loop_run raw stop_request text_to_type settings cad)
      as (processed & left_over & evs & _ & _ & _ & T & L).
    rewrite T. apply occurrences_none.
    repeat (constructor; [reflexivity|]).
    revert L. apply Forall_impl. intros e (j & Hj & He).
    destruct e as [| | | |m|n| |]; try reflexivity.
    cbn [in_loop] in He. subst n. cbn [is_full_progress].
    apply Z.eqb_neq. pose proof (progress_at_below_100 j _ Hj). lia.
Qed.

(** ** The worker *)

(** C9. [TypingWorker.run] returns normally on every path, and what it
    sends ends with the finished signal, sent exactly once. When the engine
    raises, the error signal with the text of the exception comes just
    before it, and is the only error signal; when the engine returns, by
    completion or by a stop, no error signal is sent. *)
Theorem worker_run_always_finishes {F} `{PyFloat F} (raw : nat -> N)
    (stop_request : option nat) (text_to_type : str) (settings : Settings F) :
  let sent := TypingWorker_run raw stop_request text_to_type settings in
  occurrences is_finished_signal sent = 1%nat /\
  (forall e : Exception,
     fst (run raw stop_request text_to_type settings) = Some e ->
     exists before : list (Event F),
       sent = before ++ [error (str_of e); finished] /\
       occurrences is_error_signal before = 0%nat /\
       occurrences is_finished_signal before = 0%nat) /\
  (fst (run raw stop_request text_to_type settings) = None ->
   exists before : list (Event F),
     sent = before ++ [finished] /\
     occurrences is_error_signal before = 0%nat /\
     occurrences is_finished_signal before = 0%nat).
Proof.
  intros sent. subst sent. unfold TypingWorker_run.
  destruct (_calculate_delays text_to_type settings) as [e|cad] eqn:Ecad.
  { unfold run. rewrite Ecad. cbn [fst app]. split; [reflexivity|]. split.
    - intros e' [= <-]. exists []. now repeat split.
    - discriminate. }
  rewrite (run_succeeds raw stop_request text_to_type settings cad Ecad).
  cbn [fst]. rewrite run_report_run. cbn [snd advance trace].
  destruct (run_loop_run raw stop_request text_to_type settings cad)
    as (processed & left_over & evs & _ & _ & _ & T & L).
  set (s1 := snd (run_loop raw stop_request text_to_type settings (init cad))) in *.
  set (report := if stop_seen stop_request s1
                 then [status_update Typing_stopped_by_user]
                 else [status_update Typing_finished_successfully; progress 100]).
  assert (Hquiet : forall p : Event F -> bool,
            (forall e n, in_loop n e -> p e = false) ->
            (forall m, p (status_update m) = false) ->
            (forall d, p (sleep d) = false) ->
            (forall n, p (progress n) = false) ->
            occurrences p (trace s1 ++ report) = 0%nat).
  { intros p Hp Hs Hd Hn. rewrite occurrences_app, T.
    rewrite (occurrences_none p report)
      by (unfold report; destruct (stop_seen stop_request s1); repeat constructor; auto).
    rewrite Nat.add_0_r. apply occurrences_none.
    repeat (constructor; [auto|]).
    revert L. apply Forall_impl. intros e (j & _ & He). exact (Hp e _ He). }
  assert (Hfin : occurrences is_finished_signal (trace s1 ++ report) = 0%nat).
  { apply Hquiet; try reflexivity. intros e n He.
    destruct e; try reflexivity; destruct He. }
  assert (Herr : occurrences is_error_signal (trace s1 ++ report) = 0%nat).
  { apply Hquiet; try reflexivity. intros e n He.
    destruct e; try reflexivity; destruct He. }
  split; [now rewrite occurrences_app, Hfin|]. split; [discriminate|].
  intros _. exists (trace s1 ++ report). auto.
Qed.

(** ** Concrete runs *)

(** Scenario D of the specification: "teh" with its first two characters
    transposed is "eth", and the correction presses backspace three times
    and types "teh" again. *)
Lemma perform_correction_key_sequence_teh :
  fst (_get_mistake transposing (py "teh") (init cadence_A))
    = (py "eth", Some (py "teh")) /\
  exists delays : list Q,
    trace (snd (_perform_correction (constant_draws 0) (py "eth") (py "teh") 4 0
                  (init cadence_A)))
    = presses Key_left 0.02%Q 4 ++ presses Key_backspace 0.05%Q 3
      ++ typed (py "teh") delays ++ presses Key_right 0.02%Q 1.
Proof.
  split; [vm_compute; reflexivity|].
  destruct (perform_correction_key_sequence (constant_draws 0) (py "eth") (py "teh")
              4 0 (init cadence_A)) as (delays & _ & Htrace & _).
  exists delays. exact Htrace.
Defined.

(** With [E1] and [E2] pending, an iteration that corrects takes [E1] and
    leaves [E2]. *)
Example iteration_fixes_oldest :
  let s := with_errors [E1; E2] (init cadence_A) in
  let s' := snd (iteration (constant_draws 0) (py "teh quick a") (sloppy 1%Q)
                   2 (py "a") 10 s) in
  uncorrected_errors s' = [E2] /\ fixes (trace s') = [incorrect E1].
Proof. vm_compute. split; reflexivity. Qed.


Lemma stop_request_ends_run_witness :
  exists s_end : Engine Q,
    run (constant_draws 2) (Some 8%nat) (py "teh a") (sloppy 1%Q) = (None, Some s_end) /\
    occurrences is_stopped_report (trace s_end) = 1%nat /\
    occurrences is_finished_report (trace s_end) = 0%nat.
Proof.
  destruct stop_request_ends_run as [Hany _].
  destruct (Hany Q Q_float (constant_draws 2) (Some 8%nat) (py "teh a")
              (sloppy 1%Q) (cadence_of (py "teh a") (sloppy 1%Q)))
    as (s_end & Hrun & _ & Hstop & _).
  - vm_compute. reflexivity.
  - exists s_end. split; [exact Hrun|].
    destruct (Hstop 8%nat eq_refl) as (_ & Hcounts).
    + apply Nat.leb_le. vm_compute. reflexivity.
    + exact Hcounts.
Defined.

(** Without a stop request the worker's last three events are the finished
    status, the progress of 100 and the finished signal; with a [wpm] of
    zero the engine raises at once and the worker sends the error and the
    finished signal only. *)
Example worker_run_hi :
  skipn 11 (TypingWorker_run (constant_draws 2) None (py "hi") (scenario 1%Q))
  = [status_update Typing_finished_successfully; progress 100; finished].
Proof. vm_compute. reflexivity. Qed.

Example worker_run_zero_wpm :
  exists msg : string,
    TypingWorker_run (constant_draws 2) None (py "hi") stalled = [error msg; finished].
Proof. eexists. vm_compute. reflexivity. Qed.

Lemma worker_run_always_finishes_witness :
  exists before : list (Event Q),
    TypingWorker_run (constant_draws 2) None (py "hi") stalled
    = before ++ [error "float division by zero"; finished].
Proof.
  destruct (worker_run_always_finishes (constant_draws 2) None (py "hi") stalled)
    as (_ & Hraised & _).
  destruct (Hraised (ZeroDivisionError "float division by zero"))
    as (before & Hsent & _).
  - vm_compute. reflexivity.
  - exists before. exact Hsent.
Defined.

Lemma pending_errors_fifo_witness :
  let s := with_errors [E1; E2] (init cadence_A) in
  let s' := snd (loop (constant_draws 0) None (py "a b") (sloppy 1%Q) 0
                   (words (py "a b")) 10 s) in
  exists (popped : list PendingError) (evs : list (Event Q)),
    trace s' = trace s ++ evs /\
    fixes evs = map incorrect popped /\
    (popped = [] \/ popped = [E1] \/ exists later, popped = E1 :: E2 :: later).
Proof.
  intros s s'.
  destruct (proj2 (pending_errors_fifo (constant_draws 0) None (py "a b") (sloppy 1%Q))
              0 (words (py "a b")) 10 s)
    as (popped & pushed & evs & Htrace & _ & Hfixes & Horder).
  exists popped, evs. split; [exact Htrace|]. split; [exact Hfixes|].
  apply (Horder E1 E2 []). reflexivity.
Defined.

(** * Further properties *)

(** ** Projections *)

Section ProjectionLemmas.
Context {F : Type} `{PyFloat F}.

Lemma typed_chars_app (a b : list (Event F)) :
  typed_chars (a ++ b) = typed_chars a ++ typed_chars b.
Proof.
  induction a as [|e a IH]; [reflexivity|].
  destruct e; cbn [app typed_chars]; rewrite IH; reflexivity.
Qed.

Lemma key_presses_app (a b : list (Event F)) :
  key_presses (a ++ b) = key_presses a ++ key_presses b.
Proof.
  induction a as [|e a IH]; [reflexivity|].
  destruct e; cbn [app key_presses]; rewrite IH; reflexivity.
Qed.

Lemma progress_values_app (a b : list (Event F)) :
  progress_values (a ++ b) = progress_values a ++ progress_values b.
Proof.
  induction a as [|e a IH]; [reflexivity|].
  destruct e; cbn [app progress_values]; rewrite IH; reflexivity.
Qed.

Lemma statuses_app (a b : list (Event F)) :
  statuses (a ++ b) = statuses a ++ statuses b.
Proof.
  induction a as [|e a IH]; [reflexivity|].
  destruct e; cbn [app statuses]; rewrite IH; reflexivity.
Qed.

Lemma typed_projections (w : str) (ds : list F) :
  length ds = length w ->
  typed_chars (typed w ds) = w /\ key_presses (typed w ds) = [] /\
  progress_values (typed w ds) = [] /\ statuses (typed w ds) = [] /\
  fixes (typed w ds) = [].
Proof.
  revert ds. induction w as [|c w IH]; intros [|d ds] Hlen; try discriminate.
  - now repeat split.
  - injection Hlen as Hlen. destruct (IH ds Hlen) as (IH1 & IH2 & IH3 & IH4 & IH5).
    rewrite typed_cons. cbn. now rewrite IH1.
Qed.

Lemma presses_projections (k : Key) (d : F) (n : nat) :
  typed_chars (presses k d n) = [] /\ key_presses (presses k d n) = repeat k n /\
  progress_values (presses k d n) = [] /\ statuses (presses k d n) = [] /\
  fixes (presses k d n) = [].
Proof.
  unfold presses. induction n as [|n (IH1 & IH2 & IH3 & IH4 & IH5)];
    [now repeat split|].
  cbn. now rewrite IH2.
Qed.

Lemma Forall2_length_delays (cad : CadenceProfile F) (w : str) (ds : list F) :
  Forall2 (standard_timing cad) w ds -> length ds = length w.
Proof. intros Hf. symmetry. exact (Forall2_length Hf). Qed.

End ProjectionLemmas.

(** ** Keys are released and followed by a sleep *)

Section Disciplined.
Context {F : Type} `{PyFloat F}.

Lemma disciplined_app (a b : list (Event F)) :
  disciplined a = true -> disciplined (a ++ b) = disciplined b.
Proof.
  remember (length a) as n eqn:Hn. revert a Hn.
  induction n as [n IH] using lt_wf_ind. intros a Hn Ha.
  destruct a as [|e a]; [reflexivity|].
  destruct e as [c|k|k|d|m|p|msg|].
  - destruct a as [|[c2|k2|k2|d2|m2|p2|msg2|] a]; try discriminate.
    cbn [app disciplined] in *. apply (IH (length a)); [cbn in Hn; lia|reflexivity|exact Ha].
  - destruct a as [|[c2|k2|k2|d2|m2|p2|msg2|] a]; try discriminate.
    destruct a as [|[c3|k3|k3|d3|m3|p3|msg3|] a]; try discriminate.
    cbn [app disciplined] in *. apply andb_prop in Ha. destruct Ha as [Hk Ha].
    rewrite Hk. cbn [andb]. apply (IH (length a)); [cbn in Hn; lia|reflexivity|exact Ha].
  - discriminate.
  - cbn [app disciplined] in *. apply (IH (length a)); [cbn in Hn; lia|reflexivity|exact Ha].
  - cbn [app disciplined] in *. apply (IH (length a)); [cbn in Hn; lia|reflexivity|exact Ha].
  - cbn [app disciplined] in *. apply (IH (length a)); [cbn in Hn; lia|reflexivity|exact Ha].
  - cbn [app disciplined] in *. apply (IH (length a)); [cbn in Hn; lia|reflexivity|exact Ha].
  - cbn [app disciplined] in *. apply (IH (length a)); [cbn in Hn; lia|reflexivity|exact Ha].
Qed.

Lemma disciplined_app_true (a b : list (Event F)) :
  disciplined a = true -> disciplined b = true -> disciplined (a ++ b) = true.
Proof. intros Ha Hb. now rewrite disciplined_app. Qed.

Lemma disciplined_typed (w : str) (ds : list F) : disciplined (typed w ds) = true.
Proof.
  revert ds. induction w as [|c w IH]; intros [|d ds]; try reflexivity.
  rewrite typed_cons. cbn [disciplined]. apply IH.
Qed.

Lemma disciplined_presses (k : Key) (d : F) (n : nat) : disciplined (presses k d n) = true.
Proof.
  unfold presses. induction n as [|n IH]; [reflexivity|].
  cbn [repeat concat app disciplined]. rewrite IH. now destruct k.
Qed.

Lemma disciplined_correction_events (e : PendingError) (current_pos : Z) (ds : list F) :
  disciplined (correction_events e current_pos ds) = true.
Proof.
  unfold correction_events. cbn [disciplined].
  repeat (apply disciplined_app_true);
    auto using disciplined_typed, disciplined_presses.
Qed.

End Disciplined.

(** ** The shape of each part of an iteration *)

Section ShapeLemmas.
Context {F : Type} `{PyFloat F}.
Variable raw : nat -> N.
Variable text_to_type : str.
Variable settings : Settings F.

Lemma randint_run_range (a b : Z) (s : Engine F) :
  a <= b -> exists r : Z, a <= r <= b /\ randint raw a b s = (r, advance 1 [] s).
Proof.
  intros Hab. destruct (randint_run raw a b s) as (r & E).
  exists r. split; [|exact E].
  pose proof (randint_range raw a b s Hab) as Hr. now rewrite E in Hr.
Qed.

(** The correction check either does nothing, or takes the oldest entry
    and corrects it; it cannot correct with a [correction_delay] of zero,
    and it must with one of 100 and an entry pending. *)
Lemma delayed_correction_check_shape (current_pos : Z) (s : Engine F) :
  exists s' : Engine F,
    delayed_correction_check raw settings current_pos s = (tt, s') /\
    ((reaches s (uncorrected_errors s) [] s' /\
      (uncorrected_errors s = [] \/ correction_delay settings < 100)) \/
     (exists (e : PendingError) (rest : list PendingError) (delays : list F),
        uncorrected_errors s = e :: rest /\
        0 < correction_delay settings /\
        length delays = length (correct e) /\
        reaches s rest (correction_events e current_pos delays) s')).
Proof.
  unfold delayed_correction_check, gets. unfold bind at 1.
  destruct (uncorrected_errors s) as [|e rest] eqn:Eq.
  { exists s. split; [reflexivity|]. left. split; [|now left].
    rewrite <- Eq. apply reaches_refl. }
  destruct (randint_run_range 1 100 s ltac:(lia)) as (r & Hr & Er).
  rewrite (bind_run _ _ _ _ _ Er).
  destruct (r <=? correction_delay settings) eqn:Ecd.
  - apply Z.leb_le in Ecd.
    set (s1 := advance 0 [status_update (Going_back_to_fix (incorrect e))]
                 (with_errors rest (advance 1 [] s))).
    destruct (perform_correction_run raw (incorrect e) (correct e) current_pos (pos e) s1)
      as (delays & Hdelays & Ecorr).
    eexists. split.
    + unfold set_errors, bind at 1.
      rewrite (bind_run _ _ _ _ _ (emit_run _ _)).
      fold (with_errors rest (advance 1 [] s)). fold s1.
      rewrite (bind_run _ _ _ _ _ Ecorr), emit_run. reflexivity.
    + right. exists e, rest, delays. split; [reflexivity|]. split; [lia|].
      split; [exact (Forall2_length_delays _ _ _ Hdelays)|].
      exists (1 + length (correct e))%nat.
      unfold correction_events, s1, advance, with_errors. cbn.
      f_equal; [lia|]. now rewrite <- !app_assoc.
  - apply Z.leb_gt in Ecd. exists (advance 1 [] s). split; [reflexivity|].
    left. split; [rewrite <- Eq; apply reaches_advance|]. right. lia.
Qed.

Lemma thinking_pause_check_shape (s : Engine F) :
  exists s' : Engine F,
    thinking_pause_check raw settings s = (tt, s') /\
    (reaches s (uncorrected_errors s) [] s' \/
     (0 < thinking_chance settings /\
      exists d : F,
        reaches s (uncorrected_errors s)
          [status_update (Thinking_for d); sleep d] s')).
Proof.
  unfold thinking_pause_check.
  destruct (randint_run_range 1 100 s ltac:(lia)) as (r & Hr & Er).
  rewrite (bind_run _ _ _ _ _ Er).
  destruct (r <=? thinking_chance settings) eqn:Ech.
  - apply Z.leb_le in Ech.
    destruct (uniform_run raw (of_int (fst (thinking_duration settings)))
                (of_int (snd (thinking_duration settings))) (advance 1 [] s))
      as (d & Ed).
    rewrite (bind_run _ _ _ _ _ Ed), (bind_run _ _ _ _ _ (emit_run _ _)).
    unfold _sleep. rewrite emit_run, !advance_advance.
    eexists. split; [reflexivity|]. right. split; [lia|].
    exists d. apply reaches_advance.
  - eexists. split; [reflexivity|]. left. apply reaches_advance.
Qed.

(** Typing a word types the word itself and leaves the queue, or, for an
    alphabetic word on which the error draw succeeds, types a mistaken text
    and adds it to the end of the queue. *)
Lemma type_word_shape (word : str) (current_pos : Z) (s : Engine F) :
  exists (s' : Engine F) (w : str) (delays : list F),
    type_word raw settings word current_pos s = (tt, s') /\
    length delays = length w /\
    ((w = word /\ reaches s (uncorrected_errors s) (typed w delays) s') \/
     (isalpha word = true /\
      flt (fst (random raw s)) (of_int (error_rate settings) / of_int 100)%py = true /\
      reaches s
        (uncorrected_errors s
         ++ [{| incorrect := w; correct := word; pos := current_pos |}])
        (typed w delays) s')).
Proof.
  assert (Hsame : forall (n : nat),
    exists (s' : Engine F) (w : str) (delays : list F),
      for_each word (_type_char raw) (advance n [] s) = (tt, s') /\
      length delays = length w /\
      ((w = word /\ reaches s (uncorrected_errors s) (typed w delays) s') \/
       (isalpha word = true /\
        flt (fst (random raw s)) (of_int (error_rate settings) / of_int 100)%py = true /\
        reaches s
          (uncorrected_errors s
           ++ [{| incorrect := w; correct := word; pos := current_pos |}])
          (typed w delays) s'))).
  { intros n. destruct (for_each_type_char raw word (advance n [] s)) as (ds & Hds & E).
    exists (advance (length word) (typed word ds) (advance n [] s)), word, ds.
    split; [exact E|]. split; [exact (Forall2_length_delays _ _ _ Hds)|].
    left. split; [reflexivity|]. rewrite advance_advance. apply reaches_advance. }
  unfold type_word. destruct (isalpha word) eqn:Ealpha.
  2:{ specialize (Hsame 0%nat). now rewrite advance_nothing in Hsame. }
  destruct (random_run raw s) as (u & Eu). rewrite (bind_run _ _ _ _ _ Eu).
  replace (fst (random raw s)) with u in * by now rewrite Eu.
  destruct (flt u (of_int (error_rate settings) / of_int 100)%py) eqn:Eerr;
    [|apply Hsame].
  destruct (get_mistake_run raw word (advance 1 [] s))
    as (wrong & right & k & Em & Hright).
  rewrite (bind_run _ _ _ _ _ Em), advance_advance. cbn [app].
  destruct (truthy right) eqn:Etruthy; [|apply Hsame].
  destruct Hright as [->| ->]; [discriminate|].
  unfold gets, set_errors. unfold bind at 1. unfold bind at 1.
  cbn [uncorrected_errors advance cadence draws trace].
  set (entry := {| incorrect := wrong; correct := word; pos := current_pos |}).
  set (s1 := {| cadence := cadence s;
                uncorrected_errors := uncorrected_errors s ++ [entry];
                draws := (draws s + (1 + k))%nat;
                trace := trace s ++ [] |}).
  assert (Hs1 : reaches s (uncorrected_errors s ++ [entry]) [] s1).
  { exists (1 + k)%nat. reflexivity. }
  destruct (for_each_type_char raw wrong s1) as (ds & Hds & E).
  exists (advance (length wrong) (typed wrong ds) s1), wrong, ds.
  split; [exact E|]. split; [exact (Forall2_length_delays _ _ _ Hds)|].
  right. split; [reflexivity|]. split; [reflexivity|].
  apply (reaches_trans _ _ _ _ _ _ _ Hs1). apply reaches_advance.
Qed.

(** The post-word actions report the progress first; then they sleep, with
    an AFK status before the sleep or a space typed before it. *)
Lemma post_word_actions_shape (i : Z) (word : str) (s : Engine F) :
  exists (s' : Engine F) (tail : list (Event F)),
    post_word_actions raw text_to_type settings i word s = (tt, s') /\
    reaches s (uncorrected_errors s)
      (progress (progress_at F i (Z.of_nat (length (words text_to_type)))) :: tail) s' /\
    typed_chars tail = separator word /\
    key_presses tail = [] /\ progress_values tail = [] /\ fixes tail = [] /\
    disciplined tail = true /\
    (statuses tail = [] \/
     (0 < afk_chance settings /\ exists d : F, statuses tail = [AFK_break_for d])).
Proof.
  unfold post_word_actions, _sleep, gets, separator.
  rewrite (bind_run _ _ _ _ _ (emit_run _ _)).
  fold (progress_at F i (Z.of_nat (length (words text_to_type)))).
  set (n := progress_at F i (Z.of_nat (length (words text_to_type)))).
  set (s1 := advance 0 [progress n] s).
  assert (Hdone : forall (m : nat) (tail : list (Event F)),
            reaches s (uncorrected_errors s) (progress n :: tail) (advance m tail s1)).
  { intros m tail. unfold s1. rewrite advance_advance. apply reaches_advance. }
  destruct (str_eqb word [NEWLINE]).
  - destruct (randint_run_range 1 100 s1 ltac:(lia)) as (r & Hr & Er).
    rewrite (bind_run _ _ _ _ _ Er).
    destruct (r <=? afk_chance settings) eqn:Eafk.
    + apply Z.leb_le in Eafk.
      destruct (uniform_run raw (of_int (fst (afk_duration settings)))
                  (of_int (snd (afk_duration settings))) (advance 1 [] s1))
        as (d & Ed).
      rewrite (bind_run _ _ _ _ _ Ed), (bind_run _ _ _ _ _ (emit_run _ _)).
      rewrite emit_run, !advance_advance.
      do 2 eexists. split; [reflexivity|]. split; [apply Hdone|].
      cbn. repeat split; try reflexivity. right. split; [lia|]. now exists d.
    + unfold bind. rewrite emit_run, advance_advance.
      do 2 eexists. split; [reflexivity|]. split; [apply Hdone|].
      cbn. repeat split; try reflexivity. now left.
  - destruct (ends_sentence word).
    + unfold bind. rewrite emit_run.
      do 2 eexists. split; [reflexivity|]. split; [apply Hdone|].
      cbn. repeat split; try reflexivity. now left.
    + destruct (type_char_run raw SPACE s1) as (d & _ & Ed).
      rewrite (bind_run _ _ _ _ _ Ed). unfold bind.
      rewrite emit_run, advance_advance.
      do 2 eexists. split; [reflexivity|]. split; [apply Hdone|].
      cbn. repeat split; try reflexivity. now left.
Qed.

End ShapeLemmas.

(** ** What an iteration shows *)

Section IterationProjections.
Context {F : Type} `{PyFloat F}.
Variable raw : nat -> N.
Variable text_to_type : str.
Variable settings : Settings F.

Lemma correction_events_projections (e : PendingError) (current_pos : Z)
    (delays : list F) :
  length delays = length (correct e) ->
  typed_chars (correction_events e current_pos delays) = correct e /\
  key_presses (correction_events e current_pos delays)
    = repeat Key_left (Z.to_nat (current_pos - pos e))
      ++ repeat Key_backspace (length (incorrect e))
      ++ repeat Key_right (Z.to_nat (current_pos - pos e - len (correct e))) /\
  progress_values (correction_events e current_pos delays) = [] /\
  statuses (correction_events e current_pos delays)
    = [Going_back_to_fix (incorrect e); Fixed] /\
  fixes (correction_events e current_pos delays) = [incorrect e].
Proof.
  intros Hlen. unfold correction_events.
  destruct (typed_projections (correct e) delays Hlen) as (T1 & T2 & T3 & T4 & T5).
  destruct (presses_projections Key_left (lit 0.02%Q) (Z.to_nat (current_pos - pos e)))
    as (L1 & L2 & L3 & L4 & L5).
  destruct (presses_projections Key_backspace (lit 0.05%Q) (length (incorrect e)))
    as (B1 & B2 & B3 & B4 & B5).
  destruct (presses_projections Key_right (lit 0.02%Q)
              (Z.to_nat (current_pos - pos e - len (correct e))))
    as (R1 & R2 & R3 & R4 & R5).
  cbn [typed_chars key_presses progress_values statuses fixes].
  rewrite !typed_chars_app, !key_presses_app, !progress_values_app, !statuses_app,
    !fixes_app, T1, T2, T3, T4, T5, L1, L2, L3, L4, L5, B1, B2, B3, B4, B5,
    R1, R2, R3, R4, R5.
  cbn. rewrite !app_nil_r. repeat split; reflexivity.
Qed.

(** One iteration, part by part. *)
Lemma iteration_shape (i : Z) (word : str) (current_pos : Z) (s : Engine F) :
  exists (s1 s2 s3 s' : Engine F) (w : str) (delays : list F) (tail : list (Event F)),
    iteration raw text_to_type settings i word current_pos s
      = (current_pos + (len word + 1), s') /\
    ((reaches s (uncorrected_errors s) [] s1 /\
      (uncorrected_errors s = [] \/ correction_delay settings < 100)) \/
     (exists (e : PendingError) (rest : list PendingError) (ds : list F),
        uncorrected_errors s = e :: rest /\
        0 < correction_delay settings /\
        length ds = length (correct e) /\
        reaches s rest (correction_events e current_pos ds) s1)) /\
    (reaches s1 (uncorrected_errors s1) [] s2 \/
     (0 < thinking_chance settings /\
      exists d : F,
        reaches s1 (uncorrected_errors s1)
          [status_update (Thinking_for d); sleep d] s2)) /\
    length delays = length w /\
    ((w = word /\ reaches s2 (uncorrected_errors s2) (typed w delays) s3) \/
     (isalpha word = true /\
      flt (fst (random raw s2)) (of_int (error_rate settings) / of_int 100)%py = true /\
      reaches s2
        (uncorrected_errors s2
         ++ [{| incorrect := w; correct := word; pos := current_pos |}])
        (typed w delays) s3)) /\
    reaches s3 (uncorrected_errors s3)
      (progress (progress_at F i (Z.of_nat (length (words text_to_type)))) :: tail) s' /\
    typed_chars tail = separator word /\
    key_presses tail = [] /\ progress_values tail = [] /\ fixes tail = [] /\
    disciplined tail = true /\
    (statuses tail = [] \/
     (0 < afk_chance settings /\ exists d : F, statuses tail = [AFK_break_for d])).
Proof.
  unfold iteration.
  destruct (delayed_correction_check_shape raw settings current_pos s) as (s1 & E1 & H1).
  destruct (thinking_pause_check_shape raw settings s1) as (s2 & E2 & H2).
  destruct (type_word_shape raw settings word current_pos s2)
    as (s3 & w & delays & E3 & Hlen & H3).
  destruct (post_word_actions_shape raw text_to_type settings i word s3)
    as (s' & tail & E4 & H4).
  rewrite (bind_run _ _ _ _ _ E1), (bind_run _ _ _ _ _ E2),
    (bind_run _ _ _ _ _ E3), (bind_run _ _ _ _ _ E4).
  exists s1, s2, s3, s', w, delays, tail.
  split; [reflexivity|]. split; [exact H1|]. split; [exact H2|].
  split; [exact Hlen|]. split; [exact H3|]. exact H4.
Qed.

End IterationProjections.

Section IterationFacts.
Context {F : Type} `{PyFloat F}.
Variable raw : nat -> N.
Variable text_to_type : str.
Variable settings : Settings F.

(** What one iteration shows of itself, by setting. *)
Lemma iteration_facts (i : Z) (word : str) (current_pos : Z) (s : Engine F) :
  exists (s' : Engine F) (evs : list (Event F)),
    iteration raw text_to_type settings i word current_pos s
      = (current_pos + (len word + 1), s') /\
    reaches s (uncorrected_errors s') evs s' /\
    progress_values evs
      = [progress_at F i (Z.of_nat (length (words text_to_type)))] /\
    (correction_delay settings <= 0 ->
     fixes evs = [] /\ key_presses evs = [] /\
     exists pushed : list PendingError,
       uncorrected_errors s' = uncorrected_errors s ++ pushed) /\
    (100 <= correction_delay settings ->
     (length (uncorrected_errors s) <= 1)%nat ->
     (length (uncorrected_errors s') <= 1)%nat /\
     fixes evs = map incorrect (uncorrected_errors s)) /\
    (thinking_chance settings <= 0 -> filter is_thinking (statuses evs) = []) /\
    (afk_chance settings <= 0 -> filter is_afk (statuses evs) = []) /\
    (never_errs raw settings -> uncorrected_errors s = [] ->
     uncorrected_errors s' = [] /\
     typed_chars evs = word ++ separator word /\
     key_presses evs = [] /\ fixes evs = []) /\
    disciplined evs = true.
Proof.
  destruct (iteration_shape raw text_to_type settings i word current_pos s)
    as (s1 & s2 & s3 & s' & w & delays & tail & E & H1 & H2 & Hlen & H3 & R4
        & T4 & K4 & P4 & F4 & D4 & S4).
  set (n := progress_at F i (Z.of_nat (length (words text_to_type)))) in *.
  destruct (typed_projections w delays Hlen) as (T3 & K3 & P3 & S3 & F3).
  (* the first part *)
  assert (A1 : exists e1 : list (Event F),
            reaches s (uncorrected_errors s1) e1 s1 /\
            progress_values e1 = [] /\
            filter is_thinking (statuses e1) = [] /\
            filter is_afk (statuses e1) = [] /\
            disciplined e1 = true /\
            (correction_delay settings <= 0 ->
             e1 = [] /\ uncorrected_errors s1 = uncorrected_errors s) /\
            (100 <= correction_delay settings ->
             (length (uncorrected_errors s) <= 1)%nat ->
             uncorrected_errors s1 = [] /\
             fixes e1 = map incorrect (uncorrected_errors s)) /\
            (uncorrected_errors s = [] ->
             e1 = [] /\ uncorrected_errors s1 = [])).
  { destruct H1 as [[R1 Hskip]|(e & rest & ds & Hq & Hcd & Hds & R1)].
    - destruct (reaches_facts _ _ _ _ R1) as (_ & Q1 & _). exists []. rewrite Q1.
      split; [exact R1|]. split; [reflexivity|]. split; [reflexivity|].
      split; [reflexivity|]. split; [reflexivity|]. split; [now split|].
      split; [|now split].
      intros Hcd Hone. destruct Hskip as [Hnil|Hlt]; [|lia].
      rewrite Hnil. now split.
    - destruct (reaches_facts _ _ _ _ R1) as (_ & Q1 & _).
      destruct (correction_events_projections e current_pos ds Hds)
        as (C1 & C2 & C3 & C4 & C5).
      exists (correction_events e current_pos ds). rewrite Q1.
      split; [exact R1|]. rewrite C3, C4, C5. cbn [filter is_thinking is_afk].
      split; [reflexivity|]. split; [reflexivity|]. split; [reflexivity|].
      split; [apply disciplined_correction_events|].
      split; [intros Hle; lia|]. split; [|intros Hnil; congruence].
      intros _ Hone. rewrite Hq in *. destruct rest; [now split|].
      cbn in Hone. lia. }
  destruct A1 as (e1 & R1 & P1 & Th1 & Af1 & D1 & Z1 & Full1 & Nil1).
  (* the second part *)
  assert (A2 : exists e2 : list (Event F),
            reaches s1 (uncorrected_errors s1) e2 s2 /\
            progress_values e2 = [] /\ fixes e2 = [] /\ key_presses e2 = [] /\
            typed_chars e2 = [] /\ filter is_afk (statuses e2) = [] /\
            disciplined e2 = true /\
            (thinking_chance settings <= 0 -> e2 = [])).
  { destruct H2 as [R2|(Hth & d & R2)].
    - exists []. split; [exact R2|]. now repeat split.
    - eexists. split; [exact R2|]. repeat split; try reflexivity. lia. }
  destruct A2 as (e2 & R2 & P2 & F2 & K2 & T2 & Af2 & D2 & Z2).
  destruct (reaches_facts _ _ _ _ R2) as (_ & Q2 & _).
  (* the third part *)
  assert (A3 : exists pushed : list PendingError,
            reaches s2 (uncorrected_errors s1 ++ pushed) (typed w delays) s3 /\
            (length pushed <= 1)%nat /\
            (never_errs raw settings -> pushed = [] /\ w = word)).
  { destruct H3 as [[-> R3]|(Halpha & Herr & R3)].
    - exists []. rewrite app_nil_r, <- Q2. split; [exact R3|]. split; [cbn; lia|].
      now split.
    - eexists [_]. rewrite <- Q2. split; [exact R3|]. split; [cbn; lia|].
      intros Hnever. rewrite (Hnever s2) in Herr. discriminate. }
  destruct A3 as (pushed & R3 & Hpushed & Never3).
  destruct (reaches_facts _ _ _ _ R3) as (_ & Q3 & _).
  destruct (reaches_facts _ _ _ _ R4) as (_ & Q4 & _).
  assert (Dall : disciplined (e1 ++ e2 ++ typed w delays ++ progress n :: tail) = true).
  { repeat (apply disciplined_app_true); auto using disciplined_typed. }
  exists s', (e1 ++ e2 ++ typed w delays ++ progress n :: tail).
  split; [exact E|]. split.
  { rewrite Q4, Q3.
    apply (reaches_trans _ _ _ _ _ _ _ R1). apply (reaches_trans _ _ _ _ _ _ _ R2).
    rewrite Q3 in R4. apply (reaches_trans _ _ _ _ _ _ _ R3 R4). }
  rewrite Q4, Q3.
  rewrite !progress_values_app, !fixes_app, !key_presses_app, !typed_chars_app,
    !statuses_app.
  cbn [progress_values fixes key_presses typed_chars statuses].
  rewrite P1, P2, P3, P4, F2, F3, F4, K2, K3, K4, T2, T3, T4, S3.
  rewrite !filter_app, Th1, Af1, Af2. cbn [app].
  split; [reflexivity|]. split; [|split; [|split; [|split; [|split]]]];
    [| | | | |exact Dall].
  - intros Hcd. destruct (Z1 Hcd) as (-> & ->). cbn. split; [reflexivity|].
    split; [reflexivity|]. now exists pushed.
  - intros Hcd Hone. destruct (Full1 Hcd Hone) as (-> & ->). cbn [app].
    split; [exact Hpushed|]. now rewrite app_nil_r.
  - intros Hth. rewrite (Z2 Hth). cbn.
    destruct S4 as [->|(_ & d & ->)]; reflexivity.
  - intros Hafk. destruct S4 as [->|(Hpos & _)]; [reflexivity|lia].
  - intros Hnever Hnil. destruct (Nil1 Hnil) as (-> & ->).
    destruct (Never3 Hnever) as (-> & ->). cbn. now repeat split.
Qed.

End IterationFacts.

(** ** A rule for the loop *)

Section LoopRule.
Context {F : Type} `{PyFloat F}.
Variable raw : nat -> N.
Variable stop_request : option nat.
Variable text_to_type : str.
Variable settings : Settings F.

(** An invariant of the engine, what one iteration establishes, and what
    that adds up to over the tokens processed. *)
Variable Inv : Engine F -> Prop.
Variable Step : Z -> str -> Z -> Engine F -> list (Event F) -> Engine F -> Prop.
Variable Summary : Z -> Z -> list str -> Engine F -> list (Event F) -> Engine F -> Prop.

Hypothesis step :
  forall (i : Z) (word : str) (current_pos : Z) (s : Engine F),
    Inv s ->
    exists (s' : Engine F) (evs : list (Event F)),
      iteration raw text_to_type settings i word current_pos s
        = (current_pos + (len word + 1), s') /\
      reaches s (uncorrected_errors s') evs s' /\
      Inv s' /\ Step i word current_pos s evs s'.

Hypothesis summary_nil :
  forall (i current_pos : Z) (s : Engine F), Summary i current_pos [] s [] s.

Hypothesis summary_cons :
  forall (i current_pos : Z) (word : str) (ws : list str) (s s1 s2 : Engine F)
         (e1 e2 : list (Event F)),
    Step i word current_pos s e1 s1 ->
    Summary (i + 1) (current_pos + (len word + 1)) ws s1 e2 s2 ->
    Summary i current_pos (word :: ws) s (e1 ++ e2) s2.

Lemma loop_rule (i : Z) (rest : list str) (current_pos : Z) (s : Engine F) :
  Inv s ->
  exists (processed left_over : list str) (s' : Engine F) (evs : list (Event F)),
    loop raw stop_request text_to_type settings i rest current_pos s
      = (current_pos + span processed, s') /\
    rest = processed ++ left_over /\
    (left_over = [] \/ stop_seen stop_request s' = true) /\
    reaches s (uncorrected_errors s') evs s' /\
    Inv s' /\
    Summary i current_pos processed s evs s'.
Proof.
  revert i current_pos s. induction rest as [|word rest IH]; intros i current_pos s HI.
  { exists [], [], s, []. cbn [loop span fold_right]. rewrite Z.add_0_r.
    split; [reflexivity|]. split; [reflexivity|]. split; [now left|].
    split; [apply reaches_refl|]. split; [exact HI|apply summary_nil]. }
  cbn [loop]. rewrite (bind_run _ _ _ _ _ (is_stopped_run stop_request s)).
  destruct (stop_seen stop_request s) eqn:Hseen.
  { exists [], (word :: rest), s, []. cbn [span fold_right]. rewrite Z.add_0_r.
    split; [reflexivity|]. split; [reflexivity|]. split; [now right|].
    split; [apply reaches_refl|]. split; [exact HI|apply summary_nil]. }
  destruct (step i word current_pos s HI) as (s1 & e1 & E1 & R1 & HI1 & Hstep).
  rewrite (bind_run _ _ _ _ _ E1).
  destruct (IH (i + 1) (current_pos + (len word + 1)) s1 HI1)
    as (processed & left_over & s' & evs & E & Hrest & Hend & R & HI' & Hsum).
  exists (word :: processed), left_over, s', (e1 ++ evs). split.
  { rewrite E. f_equal. cbn [span fold_right]. fold (span processed). lia. }
  split; [cbn [app]; now rewrite Hrest|]. split; [exact Hend|]. split.
  { eapply reaches_trans; [exact R1|exact R]. }
  split; [exact HI'|]. eapply summary_cons; eassumption.
Qed.

End LoopRule.

Section RunLoop.
Context {F : Type} `{PyFloat F}.
Variable raw : nat -> N.
Variable stop_request : option nat.
Variable text_to_type : str.
Variable settings : Settings F.

(** [run] enters the loop after its three opening events. *)
Lemma run_loop_unfold (cad : CadenceProfile F) :
  run_loop raw stop_request text_to_type settings (init cad)
  = loop raw stop_request text_to_type settings 0 (words text_to_type) 0
      (advance 0 [status_update Starting_in_5_seconds; sleep (of_int 5);
                  status_update Typing_started] (init cad)).
Proof.
  unfold run_loop, _sleep.
  now rewrite (bind_run _ _ _ _ _ (emit_run _ _)), (bind_run _ _ _ _ _ (emit_run _ _)),
    (bind_run _ _ _ _ _ (emit_run _ _)), !advance_advance.
Qed.

(** Without a stop request the flag is never seen. *)
Lemma stop_never_seen (s : Engine F) : stop_seen None s = false.
Proof. reflexivity. Qed.

End RunLoop.

(** ** The whole run, by setting *)

Section WorkerTrace.
Context {F : Type} `{PyFloat F}.
Variable raw : nat -> N.
Variable stop_request : option nat.
Variable text_to_type : str.
Variable settings : Settings F.

Lemma calculate_delays_succeeds :
  wpm settings <> 0 ->
  exists cad : CadenceProfile F, _calculate_delays text_to_type settings = inr cad.
Proof.
  intros Hwpm. unfold _calculate_delays, pure_typing_time_sec.
  apply Z.eqb_neq in Hwpm. rewrite Hwpm. eexists. reflexivity.
Qed.

Lemma calculate_delays_raises :
  wpm settings = 0 ->
  _calculate_delays text_to_type settings
  = inl (ZeroDivisionError "float division by zero").
Proof.
  intros Hwpm. unfold _calculate_delays, pure_typing_time_sec.
  now rewrite Hwpm.
Qed.

(** The report that ends a run. *)
Lemma worker_trace (cad : CadenceProfile F) :
  _calculate_delays text_to_type settings = inr cad ->
  let s1 := snd (run_loop raw stop_request text_to_type settings (init cad)) in
  TypingWorker_run raw stop_request text_to_type settings
  = trace s1
    ++ (if stop_seen stop_request s1
        then [status_update Typing_stopped_by_user]
        else [status_update Typing_finished_successfully; progress 100])
    ++ [finished].
Proof.
  intros Hcad s1. unfold TypingWorker_run.
  rewrite (run_succeeds raw stop_request text_to_type settings cad Hcad).
  rewrite run_report_run. cbn [snd advance trace]. fold s1.
  now rewrite <- app_assoc.
Qed.

Lemma worker_trace_raised :
  wpm settings = 0 ->
  TypingWorker_run raw stop_request text_to_type settings
  = [error "float division by zero"; finished].
Proof.
  intros Hwpm. unfold TypingWorker_run, run.
  now rewrite (calculate_delays_raises Hwpm).
Qed.

(** The loop of a run under the rule of the loop, from the engine [init]
    leaves. *)
Lemma run_loop_rule
    (Inv : Engine F -> Prop)
    (Step : Z -> str -> Z -> Engine F -> list (Event F) -> Engine F -> Prop)
    (Summary : Z -> Z -> list str -> Engine F -> list (Event F) -> Engine F -> Prop)
    (cad : CadenceProfile F) :
  (forall (i : Z) (word : str) (current_pos : Z) (s : Engine F),
     Inv s ->
     exists (s' : Engine F) (evs : list (Event F)),
       iteration raw text_to_type settings i word current_pos s
         = (current_pos + (len word + 1), s') /\
       reaches s (uncorrected_errors s') evs s' /\
       Inv s' /\ Step i word current_pos s evs s') ->
  (forall (i current_pos : Z) (s : Engine F), Summary i current_pos [] s [] s) ->
  (forall (i current_pos : Z) (word : str) (ws : list str) (s s1 s2 : Engine F)
          (e1 e2 : list (Event F)),
     Step i word current_pos s e1 s1 ->
     Summary (i + 1) (current_pos + (len word + 1)) ws s1 e2 s2 ->
     Summary i current_pos (word :: ws) s (e1 ++ e2) s2) ->
  (forall s : Engine F, uncorrected_errors s = [] -> Inv s) ->
  let s0 := advance 0 [status_update Starting_in_5_seconds; sleep (of_int 5);
                       status_update Typing_started] (init cad) in
  exists (processed left_over : list str) (s' : Engine F) (evs : list (Event F)),
    run_loop raw stop_request text_to_type settings (init cad) = (span processed, s') /\
    words text_to_type = processed ++ left_over /\
    (left_over = [] \/ stop_seen stop_request s' = true) /\
    trace s'
      = [status_update Starting_in_5_seconds; sleep (of_int 5);
         status_update Typing_started] ++ evs /\
    Inv s' /\
    Summary 0 0 processed s0 evs s'.
Proof.
  intros Hstep Hnil Hcons Hinit s0.
  destruct (loop_rule raw stop_request text_to_type settings Inv Step Summary
              Hstep Hnil Hcons 0 (words text_to_type) 0 s0 (Hinit s0 eq_refl))
    as (processed & left_over & s' & evs & E & Hw & Hend & R & HI & HS).
  exists processed, left_over, s', evs.
  rewrite run_loop_unfold. fold s0. rewrite E.
  destruct (reaches_facts _ _ _ _ R) as (T & _).
  repeat split; try assumption.
Qed.

End WorkerTrace.

Section RunFacts.
Context {F : Type} `{PyFloat F}.
Variable raw : nat -> N.
Variable stop_request : option nat.
Variable text_to_type : str.
Variable settings : Settings F.

(** The facts of [iteration_facts] summed over a run. *)
Lemma run_loop_facts (cad : CadenceProfile F) :
  exists (processed left_over : list str) (s' : Engine F) (evs : list (Event F)),
    run_loop raw stop_request text_to_type settings (init cad) = (span processed, s') /\
    words text_to_type = processed ++ left_over /\
    (left_over = [] \/ stop_seen stop_request s' = true) /\
    trace s'
      = [status_update Starting_in_5_seconds; sleep (of_int 5);
         status_update Typing_started] ++ evs /\
    progress_values evs
      = map (fun i => progress_at F i (Z.of_nat (length (words text_to_type))))
          (count_from 0 (length processed)) /\
    disciplined evs = true /\
    (correction_delay settings <= 0 -> fixes evs = [] /\ key_presses evs = []) /\
    (thinking_chance settings <= 0 -> filter is_thinking (statuses evs) = []) /\
    (afk_chance settings <= 0 -> filter is_afk (statuses evs) = []).
Proof.
  set (n := Z.of_nat (length (words text_to_type))).
  destruct (run_loop_rule raw stop_request text_to_type settings
              (fun _ => True)
              (fun i _ _ _ evs _ =>
                 progress_values evs = [progress_at F i n] /\
                 disciplined evs = true /\
                 (correction_delay settings <= 0 -> fixes evs = [] /\ key_presses evs = []) /\
                 (thinking_chance settings <= 0 -> filter is_thinking (statuses evs) = []) /\
                 (afk_chance settings <= 0 -> filter is_afk (statuses evs) = []))
              (fun i _ ws _ evs _ =>
                 progress_values evs
                   = map (fun i => progress_at F i n) (count_from i (length ws)) /\
                 disciplined evs = true /\
                 (correction_delay settings <= 0 -> fixes evs = [] /\ key_presses evs = []) /\
                 (thinking_chance settings <= 0 -> filter is_thinking (statuses evs) = []) /\
                 (afk_chance settings <= 0 -> filter is_afk (statuses evs) = []))
              cad)
    as (processed & left_over & s' & evs & E & Hw & Hend & T & _ & HS).
  - intros i word current_pos s _.
    destruct (iteration_facts raw text_to_type settings i word current_pos s)
      as (s' & evs & E & R & P & Zc & _ & Th & Af & _ & D).
    exists s', evs. split; [exact E|]. split; [exact R|]. split; [exact I|].
    split; [exact P|]. split; [exact D|]. split; [|split; [exact Th|exact Af]].
    intros Hcd. destruct (Zc Hcd) as (Hf & Hk & _). now split.
  - intros i current_pos s. cbn. repeat split; reflexivity.
  - intros i current_pos word ws s s1 s2 e1 e2 (P1 & D1 & Z1 & Th1 & Af1)
      (P2 & D2 & Z2 & Th2 & Af2).
    rewrite progress_values_app, fixes_app, key_presses_app, statuses_app, !filter_app,
      P1, P2.
    split; [reflexivity|]. split; [now apply disciplined_app_true|].
    split; [|split].
    + intros Hcd. destruct (Z1 Hcd) as (-> & ->). destruct (Z2 Hcd) as (-> & ->).
      now split.
    + intros Hth. now rewrite (Th1 Hth), (Th2 Hth).
    + intros Haf. now rewrite (Af1 Haf), (Af2 Haf).
  - intros s _. exact I.
  - exists processed, left_over, s', evs.
    split; [exact E|]. split; [exact Hw|]. split; [exact Hend|]. split; [exact T|].
    exact HS.
Qed.

End RunFacts.

(** X1. Every special key pressed is released at once and followed by a sleep,
    and every character typed is followed by a sleep, in whatever the worker
    does: no run, stopped or not, leaves a key held down. *)
Theorem keys_are_released_and_paced {F} `{PyFloat F} (raw : nat -> N)
    (stop_request : option nat) (text_to_type : str) (settings : Settings F) :
  disciplined (TypingWorker_run raw stop_request text_to_type settings) = true.
Proof.
  destruct (Z.eq_dec (wpm settings) 0) as [Hwpm|Hwpm].
  { now rewrite (worker_trace_raised _ _ _ _ Hwpm). }
  destruct (calculate_delays_succeeds text_to_type settings Hwpm) as (cad & Hcad).
  rewrite (worker_trace raw stop_request text_to_type settings cad Hcad).
  destruct (run_loop_facts raw stop_request text_to_type settings cad)
    as (processed & left_over & s' & evs & E & _ & _ & T & _ & D & _).
  rewrite E. cbn [snd]. rewrite T.
  apply disciplined_app_true.
  - cbn [app disciplined]. exact D.
  - destruct (stop_seen stop_request s'); reflexivity.
Qed.

(** X2. With a [correction_delay] of zero nothing is ever corrected: no
    correction is announced and no arrow key or backspace is pressed. *)
Theorem zero_correction_delay_never_corrects {F} `{PyFloat F} (raw : nat -> N)
    (stop_request : option nat) (text_to_type : str) (settings : Settings F) :
  correction_delay settings <= 0 ->
  fixes (TypingWorker_run raw stop_request text_to_type settings) = [] /\
  key_presses (TypingWorker_run raw stop_request text_to_type settings) = [].
Proof.
  intros Hcd. destruct (Z.eq_dec (wpm settings) 0) as [Hwpm|Hwpm].
  { now rewrite (worker_trace_raised _ _ _ _ Hwpm). }
  destruct (calculate_delays_succeeds text_to_type settings Hwpm) as (cad & Hcad).
  rewrite (worker_trace raw stop_request text_to_type settings cad Hcad).
  destruct (run_loop_facts raw stop_request text_to_type settings cad)
    as (processed & left_over & s' & evs & E & _ & _ & T & _ & _ & Zc & _).
  rewrite E. cbn [snd]. rewrite T. destruct (Zc Hcd) as (Hf & Hk).
  rewrite !fixes_app, !key_presses_app. cbn [fixes key_presses app].
  rewrite Hf, Hk. destruct (stop_seen stop_request s'); now split.
Qed.

(** X3. A chance of zero switches its pause off: with [thinking_chance] zero no
    thinking pause is announced, with [afk_chance] zero no AFK break. *)
Theorem zero_chance_never_pauses {F} `{PyFloat F} (raw : nat -> N)
    (stop_request : option nat) (text_to_type : str) (settings : Settings F) :
  (thinking_chance settings <= 0 ->
   filter is_thinking
     (statuses (TypingWorker_run raw stop_request text_to_type settings)) = []) /\
  (afk_chance settings <= 0 ->
   filter is_afk
     (statuses (TypingWorker_run raw stop_request text_to_type settings)) = []).
Proof.
  destruct (Z.eq_dec (wpm settings) 0) as [Hwpm|Hwpm].
  { now rewrite (worker_trace_raised _ _ _ _ Hwpm). }
  destruct (calculate_delays_succeeds text_to_type settings Hwpm) as (cad & Hcad).
  rewrite (worker_trace raw stop_request text_to_type settings cad Hcad).
  destruct (run_loop_facts raw stop_request text_to_type settings cad)
    as (processed & left_over & s' & evs & E & _ & _ & T & _ & _ & _ & Th & Af).
  rewrite E. cbn [snd]. rewrite T.
  rewrite !statuses_app, !filter_app. cbn [statuses app filter is_thinking is_afk].
  split; intros Hz.
  - rewrite (Th Hz). destruct (stop_seen stop_request s'); reflexivity.
  - rewrite (Af Hz). destruct (stop_seen stop_request s'); reflexivity.
Qed.

(** X4. A stop requested during the lead-in, before the loop starts, ends the
    run with nothing typed: the two opening statuses around the lead-in
    sleep, the stopped status and the finished signal are all there is. *)
Theorem stop_during_lead_in_types_nothing {F} `{PyFloat F} (raw : nat -> N)
    (t : nat) (text_to_type : str) (settings : Settings F) :
  wpm settings <> 0 -> (t <= 3)%nat ->
  TypingWorker_run raw (Some t) text_to_type settings
  = [status_update Starting_in_5_seconds; sleep (of_int 5);
     status_update Typing_started; status_update Typing_stopped_by_user; finished].
Proof.
  intros Hwpm Ht.
  destruct (calculate_delays_succeeds text_to_type settings Hwpm) as (cad & Hcad).
  rewrite (worker_trace raw (Some t) text_to_type settings cad Hcad).
  rewrite run_loop_unfold.
  set (s0 := advance 0 _ (init cad)).
  assert (Hseen : stop_seen (Some t) s0 = true).
  { unfold stop_seen, is_stopped. cbn [fst]. apply Nat.leb_le. cbn. exact Ht. }
  rewrite (loop_stopped raw (Some t) text_to_type settings 0 _ 0 s0 Hseen).
  cbn [snd]. rewrite Hseen. reflexivity.
Qed.

(** ** Runs without mistakes *)

(** In exact arithmetic an [error_rate] of zero never errs: [random()] is
    not below zero. *)
Lemma zero_error_rate_never_errs (raw : nat -> N) (settings : Settings Q) :
  error_rate settings <= 0 -> never_errs raw settings.
Proof.
  intros Hrate s. cbn [flt Q_float of_int fdiv].
  apply negb_false_iff, Qle_bool_iff.
  destruct (random_unit_interval raw s) as [Hu _].
  apply Qle_trans with 0%Q; [|exact Hu].
  unfold Qdiv, Qle, Qmult, Qinv, inject_Z. cbn. lia.
Qed.

Section NoMistakes.
Context {F : Type} `{PyFloat F}.
Variable raw : nat -> N.
Variable stop_request : option nat.
Variable text_to_type : str.
Variable settings : Settings F.
Hypothesis never : never_errs raw settings.

Lemma run_loop_without_mistakes (cad : CadenceProfile F) :
  exists (processed left_over : list str) (s' : Engine F) (evs : list (Event F)),
    run_loop raw stop_request text_to_type settings (init cad) = (span processed, s') /\
    words text_to_type = processed ++ left_over /\
    (left_over = [] \/ stop_seen stop_request s' = true) /\
    trace s'
      = [status_update Starting_in_5_seconds; sleep (of_int 5);
         status_update Typing_started] ++ evs /\
    uncorrected_errors s' = [] /\
    typed_chars evs = flat_map (fun w => w ++ separator w) processed /\
    key_presses evs = [] /\ fixes evs = [].
Proof.
  destruct (run_loop_rule raw stop_request text_to_type settings
              (fun s => uncorrected_errors s = [])
              (fun _ word _ _ evs _ =>
                 typed_chars evs = word ++ separator word /\
                 key_presses evs = [] /\ fixes evs = [])
              (fun _ _ ws _ evs _ =>
                 typed_chars evs = flat_map (fun w => w ++ separator w) ws /\
                 key_presses evs = [] /\ fixes evs = [])
              cad)
    as (processed & left_over & s' & evs & E & Hw & Hend & T & HI & HS).
  - intros i word current_pos s Hnil.
    destruct (iteration_facts raw text_to_type settings i word current_pos s)
      as (s' & evs & E & R & _ & _ & _ & _ & _ & Hnever & _).
    destruct (Hnever never Hnil) as (Q & Ht & Hk & Hf).
    exists s', evs. auto.
  - intros i current_pos s. now repeat split.
  - intros i current_pos word ws s s1 s2 e1 e2 (T1 & K1 & F1) (T2 & K2 & F2).
    rewrite typed_chars_app, key_presses_app, fixes_app, T1, T2, K1, K2, F1, F2.
    cbn [flat_map]. now repeat split.
  - auto.
  - exists processed, left_over, s', evs.
    split; [exact E|]. split; [exact Hw|]. split; [exact Hend|]. split; [exact T|].
    split; [exact HI|exact HS].
Qed.

End NoMistakes.

Lemma flat_map_separated (ws : list str) :
  ws <> [] -> flat_map (fun w => w ++ [SPACE]) ws = join SPACE ws ++ [SPACE].
Proof.
  induction ws as [|w ws IH]; [contradiction|]. intros _.
  destruct ws as [|w2 ws]; [cbn; now rewrite app_nil_r|].
  cbn [flat_map]. rewrite join_cons by discriminate.
  cbn [flat_map] in IH. rewrite IH by discriminate.
  now rewrite <- !app_assoc.
Qed.

Lemma flat_map_ext_mem {A B} (f g : A -> list B) (l : list A) :
  (forall a, In a l -> f a = g a) -> flat_map f l = flat_map g l.
Proof.
  induction l as [|a l IH]; [reflexivity|]. intros Hfg. cbn [flat_map].
  rewrite (Hfg a) by now left. f_equal. apply IH. intros b Hb. apply Hfg. now right.
Qed.

Lemma pad_newlines_plain (text : str) :
  ~ In NEWLINE text -> pad_newlines text = text.
Proof.
  unfold pad_newlines, replace. induction text as [|c text IH]; [reflexivity|].
  intros Hno. cbn [flat_map]. destruct (Ascii.eqb c NEWLINE) eqn:E.
  - apply Ascii.eqb_eq in E. subst c. exfalso. apply Hno. now left.
  - cbn [app]. rewrite IH; [reflexivity|]. intros Hin. apply Hno. now right.
Qed.

Lemma in_join (sep c : ascii) (ws : list str) (w : str) :
  In w ws -> In c w -> In c (join sep ws).
Proof.
  induction ws as [|w1 ws IH]; [contradiction|]. intros Hw Hc.
  destruct ws as [|w2 ws].
  - destruct Hw as [->|[]]. exact Hc.
  - rewrite join_cons by discriminate. apply in_or_app.
    destruct Hw as [->|Hw]; [now left|]. right. right. now apply IH.
Qed.

Lemma span_cons (w : str) (ws : list str) : span (w :: ws) = len w + 1 + span ws.
Proof. reflexivity. Qed.

Lemma span_join (ws : list str) :
  ws <> [] -> span ws = len (join SPACE ws) + 1.
Proof.
  induction ws as [|w ws IH]; [contradiction|]. intros _.
  destruct ws as [|w2 ws]; [cbn; lia|].
  rewrite join_cons by discriminate. rewrite span_cons, IH by discriminate.
  change (w ++ SPACE :: join SPACE (w2 :: ws)) with (w ++ [SPACE] ++ join SPACE (w2 :: ws)).
  rewrite !len_app. change (len [SPACE]) with 1. lia.
Qed.

(** X5. With an error rate of zero (exact arithmetic) the worker types the
    tokens it goes through in order, each followed by a space, except that
    nothing follows the newline token or a token that ends in a full stop,
    an exclamation mark or a question mark. It presses no special key, and
    without a stop request it goes through every token. *)
Theorem no_errors_typed_output (raw : nat -> N) (stop_request : option nat)
    (text_to_type : str) (settings : Settings Q) :
  wpm settings <> 0 -> error_rate settings <= 0 ->
  exists processed left_over : list str,
    words text_to_type = processed ++ left_over /\
    (stop_request = None -> left_over = []) /\
    typed_chars (TypingWorker_run raw stop_request text_to_type settings)
      = flat_map (fun w => w ++ separator w) processed /\
    key_presses (TypingWorker_run raw stop_request text_to_type settings) = [].
Proof.
  intros Hwpm Hrate.
  destruct (calculate_delays_succeeds text_to_type settings Hwpm) as (cad & Hcad).
  rewrite (worker_trace raw stop_request text_to_type settings cad Hcad).
  destruct (run_loop_without_mistakes raw stop_request text_to_type settings
              (zero_error_rate_never_errs raw settings Hrate) cad)
    as (processed & left_over & s' & evs & E & Hw & Hend & T & _ & Ht & Hk & _).
  exists processed, left_over. split; [exact Hw|]. split.
  { intros ->. destruct Hend as [Hnil|Hseen]; [exact Hnil|discriminate]. }
  rewrite E. cbn [snd]. rewrite T, !typed_chars_app, !key_presses_app.
  cbn [typed_chars key_presses app]. rewrite Ht, Hk.
  destruct (stop_seen stop_request s'); cbn; now rewrite app_nil_r.
Qed.

(** X6. A plain text comes out whole: with an error rate of zero (exact
    arithmetic) and no stop request, a text without newline in which no
    token ends in a full stop, an exclamation mark or a question mark is
    typed character for character, followed by one space; the position the
    loop ends at is the length of the text plus one. *)
Theorem plain_text_is_typed_whole (raw : nat -> N) (text_to_type : str)
    (settings : Settings Q) (cad : CadenceProfile Q) :
  _calculate_delays text_to_type settings = inr cad ->
  error_rate settings <= 0 ->
  ~ In NEWLINE text_to_type ->
  Forall (fun w => ends_sentence w = false) (words text_to_type) ->
  typed_chars (TypingWorker_run raw None text_to_type settings)
    = text_to_type ++ [SPACE] /\
  fst (run_loop raw None text_to_type settings (init cad)) = len text_to_type + 1.
Proof.
  intros Hcad Hrate Hplain Hsentence.
  rewrite (worker_trace raw None text_to_type settings cad Hcad).
  destruct (run_loop_without_mistakes raw None text_to_type settings
              (zero_error_rate_never_errs raw settings Hrate) cad)
    as (processed & left_over & s' & evs & E & Hw & Hend & T & _ & Ht & _).
  destruct Hend as [->|Hseen]; [|discriminate].
  rewrite app_nil_r in Hw. subst processed.
  assert (Hjoin : join SPACE (words text_to_type) = text_to_type).
  { unfold words. rewrite join_split. now apply pad_newlines_plain. }
  rewrite E. cbn [fst snd]. split.
  - rewrite T, !typed_chars_app. cbn [typed_chars app]. rewrite Ht, app_nil_r.
    rewrite <- Hjoin at 2. rewrite <- flat_map_separated by apply split_not_nil.
    apply flat_map_ext_mem. intros w Hin. f_equal. unfold separator.
    rewrite Forall_forall in Hsentence. rewrite (Hsentence w Hin).
    destruct (str_eqb w [NEWLINE]) eqn:Enl; [|reflexivity].
    unfold str_eqb in Enl. destruct (list_eq_dec ascii_dec w [NEWLINE]) as [->|];
      [|discriminate].
    exfalso. apply Hplain. rewrite <- Hjoin.
    apply (in_join SPACE NEWLINE _ [NEWLINE] Hin). now left.
  - rewrite span_join by apply split_not_nil. now rewrite Hjoin.
Qed.

(** ** Progress *)





(** ** A correction delay of 100 *)

(** X8. With a [correction_delay] of 100 every pending mistake is corrected at
    the next token, so however long the text and whatever the draws, at most
    one mistake is still pending when the loop ends. *)
Theorem full_correction_delay_leaves_one {F} `{PyFloat F} (raw : nat -> N)
    (stop_request : option nat) (text_to_type : str) (settings : Settings F)
    (cad : CadenceProfile F) :
  100 <= correction_delay settings ->
  (length (uncorrected_errors
             (snd (run_loop raw stop_request text_to_type settings (init cad)))) <= 1)%nat.
Proof.
  intros Hcd.
  destruct (run_loop_rule raw stop_request text_to_type settings
              (fun s => (length (uncorrected_errors s) <= 1)%nat)
              (fun _ _ _ _ _ _ => True) (fun _ _ _ _ _ _ => True) cad)
    as (processed & left_over & s' & evs & E & _ & _ & _ & HI & _).
  - intros i word current_pos s Hone.
    destruct (iteration_facts raw text_to_type settings i word current_pos s)
      as (s' & evs & E & R & _ & _ & Full & _).
    destruct (Full Hcd Hone) as (Hone' & _).
    exists s', evs. auto.
  - auto.
  - auto.
  - intros s ->. cbn. lia.
  - now rewrite E.
Qed.

(** ** Mistakes *)

Lemma neighbours_differ_all (c : ascii) : neighbours_differ c = true.
Proof. destruct c as [[] [] [] [] [] [] [] []]; vm_compute; reflexivity. Qed.

Lemma letter_is_listed_all (c : ascii) : letter_is_listed c = true.
Proof. destruct c as [[] [] [] [] [] [] [] []]; vm_compute; reflexivity. Qed.

Lemma mem_In (c : ascii) (s : str) : mem c s = true <-> In c s.
Proof.
  unfold mem. rewrite existsb_exists. split.
  - intros (x & Hx & E). apply Ascii.eqb_eq in E. now subst.
  - intros Hc. exists c. split; [exact Hc|apply Ascii.eqb_refl].
Qed.

Lemma slice_at (i : Z) (w : str) :
  0 <= i < len w -> w = upto i w ++ at_index i w :: from (i + 1) w.
Proof.
  unfold len, upto, from, at_index. intros Hi.
  replace (Z.to_nat (i + 1)) with (S (Z.to_nat i)) by lia.
  assert (Hn : (Z.to_nat i < length w)%nat) by lia. clear Hi.
  revert Hn. generalize (Z.to_nat i) as n. clear i.
  induction w as [|c w IH]; intros [|n] Hn; cbn in *; try lia; [reflexivity|].
  f_equal. apply IH. lia.
Qed.

Lemma slice_at_two (i : Z) (w : str) :
  0 <= i <= len w - 2 ->
  w = upto i w ++ at_index i w :: at_index (i + 1) w :: from (i + 2) w.
Proof.
  intros Hi. rewrite (slice_at i w) at 1 by lia. do 2 f_equal.
  unfold len, from, at_index in *.
  replace (Z.to_nat (i + 1)) with (S (Z.to_nat i)) by lia.
  replace (Z.to_nat (i + 2)) with (S (S (Z.to_nat i))) by lia.
  assert (Hn : (S (Z.to_nat i) < length w)%nat) by lia. clear Hi.
  revert Hn. generalize (Z.to_nat i) as n. clear i.
  induction w as [|c w IH]; intros [|n] Hn; cbn in *; try lia.
  - destruct w; cbn in *; [lia|reflexivity].
  - apply IH. lia.
Qed.

Lemma len_cons (c : ascii) (w : str) : len (c :: w) = 1 + len w.
Proof. unfold len. cbn [length]. lia. Qed.

Lemma slice_join (i : Z) (w : str) : w = upto i w ++ from i w.
Proof. unfold upto, from. now rewrite firstn_skipn. Qed.

Section Mistakes.
Context {F : Type} `{PyFloat F}.
Variable raw : nat -> N.

Lemma choice_run_in {A} (l : list A) (d : A) (s : Engine F) :
  l <> [] -> exists x : A, In x l /\ choice raw l d s = (x, advance 1 [] s).
Proof.
  intros Hl. eexists. split.
  2: { unfold choice. now rewrite (bind_run _ _ _ _ _ (draw_run raw s)). }
  apply nth_In.
  assert (0 < Z.of_nat (length l)) by (destruct l; [contradiction|cbn; lia]).
  pose proof (Z.mod_pos_bound (Z.of_N (raw (draws s))) (Z.of_nat (length l))). lia.
Qed.

(** The four ways [_get_mistake] ends for a word it accepts. *)
Lemma get_mistake_cases (word : str) (s : Engine F) :
  (len word <? 3) || negb (isalpha word) = false ->
  exists idx : Z, 0 <= idx < len word /\
    ((exists neighbours new_char,
        lookup (char_lower (at_index idx word)) adj_map = Some neighbours /\
        In new_char neighbours /\
        fst (_get_mistake raw word s)
        = (upto idx word ++ new_char :: from (idx + 1) word, Some word)) \/
     (lookup (char_lower (at_index idx word)) adj_map = None /\
      fst (_get_mistake raw word s) = (word, None)) \/
     (exists j, 0 <= j <= len word - 2 /\
        fst (_get_mistake raw word s)
        = (upto j word ++ at_index (j + 1) word :: at_index j word :: from (j + 2) word,
           Some word)) \/
     fst (_get_mistake raw word s) = (upto idx word ++ from (idx + 1) word, Some word) \/
     (exists vowel, In vowel (py "aeiou") /\
        fst (_get_mistake raw word s)
        = (upto idx word ++ vowel :: from idx word, Some word))).
Proof.
  intros Hok.
  assert (Hlen : 3 <= len word) by (apply orb_false_iff in Hok; lia).
  assert (Hone : (1 <? len word) = true) by (apply Z.ltb_lt; lia).
  unfold _get_mistake. rewrite Hok.
  destruct (choice_run raw [adjacency; transposition; omission; insertion] adjacency s)
    as (kind & Ekind).
  rewrite (bind_run _ _ _ _ _ Ekind).
  destruct (randint_run_range raw 0 (len word - 1) (advance 1 [] s)) as (idx & Hidx & Eidx);
    [lia|].
  rewrite (bind_run _ _ _ _ _ Eidx).
  rewrite Hone. exists idx. split; [lia|].
  destruct kind; cbn [MistakeType_eqb andb].
  - destruct (lookup (char_lower (at_index idx word)) adj_map) as [neighbours|] eqn:El.
    + left. pose proof (neighbours_differ_all (at_index idx word)) as Hd.
      unfold neighbours_differ in Hd. rewrite El in Hd.
      apply andb_true_iff in Hd. destruct Hd as (_ & Hne).
      destruct (choice_run_in neighbours SPACE (advance 1 [] (advance 1 [] s)))
        as (c & Hc & Ec).
      { intros ->. cbn in Hne. discriminate. }
      rewrite (bind_run _ _ _ _ _ Ec). exists neighbours, c. auto.
    + right. left. auto.
  - right. right. left.
    destruct (randint_run_range raw 0 (len word - 2) (advance 1 [] (advance 1 [] s)))
      as (j & Hj & Ej); [lia|].
    rewrite (bind_run _ _ _ _ _ Ej). exists j. auto.
  - right. right. right. left. reflexivity.
  - right. right. right. right.
    destruct (choice_run_in (py "aeiou") SPACE (advance 1 [] (advance 1 [] s)))
      as (v & Hv & Ev); [discriminate|].
    rewrite (bind_run _ _ _ _ _ Ev). exists v. auto.
Qed.

End Mistakes.

(** X9. Whatever the draws, [_get_mistake] either reports no mistake and gives
    the word back, or reports the word as the correct text, for a word of
    three letters or more, with a text that is one slip away from it: one
    character replaced by a different one, two neighbours exchanged, one
    character left out or one vowel put in. The text equals the word only
    when two equal neighbours were exchanged. *)
Theorem get_mistake_is_one_slip {F} `{PyFloat F} (raw : nat -> N) (word : str)
    (s : Engine F) :
  let wrong := fst (fst (_get_mistake raw word s)) in
  match snd (fst (_get_mistake raw word s)) with
  | None => wrong = word
  | Some original =>
      original = word /\ 3 <= len word /\ isalpha word = true /\ slip word wrong /\
      (wrong = word -> exists pre a post, word = pre ++ a :: a :: post)
  end.
Proof.
  intros wrong. subst wrong.
  destruct ((len word <? 3) || negb (isalpha word)) eqn:Hok.
  { unfold _get_mistake. rewrite Hok. reflexivity. }
  assert (Hlen : 3 <= len word) by (apply orb_false_iff in Hok; lia).
  assert (Halpha : isalpha word = true).
  { apply orb_false_iff in Hok. destruct Hok as (_ & Hok).
    now apply negb_false_iff in Hok. }
  destruct (get_mistake_cases raw word s Hok)
    as (idx & Hidx & [(ns & c & El & Hc & E)|[(El & E)|[(j & Hj & E)|[E|(v & Hv & E)]]]]);
    rewrite E; cbn [fst snd]; try reflexivity.
  - assert (Hca : c <> at_index idx word).
    { pose proof (neighbours_differ_all (at_index idx word)) as Hd.
      unfold neighbours_differ in Hd. rewrite El in Hd.
      apply andb_true_iff in Hd. destruct Hd as (Hd & _).
      intros Eq. subst c. apply mem_In in Hc. rewrite Hc in Hd. discriminate. }
    repeat split; try assumption.
    + exact (slip_replaced word _ _ c _ (slice_at idx word Hidx) Hca).
    + intros Eq.
      assert (Eq' : upto idx word ++ c :: from (idx + 1) word
                    = upto idx word ++ at_index idx word :: from (idx + 1) word)
        by (rewrite <- (slice_at idx word Hidx); exact Eq).
      apply app_inv_head in Eq'. congruence.
  - repeat split; try assumption.
    + exact (slip_exchanged word _ _ _ _ (slice_at_two j word Hj)).
    + intros Eq. pose proof (slice_at_two j word Hj) as Hw.
      assert (Eq' : upto j word ++ at_index (j + 1) word :: at_index j word
                      :: from (j + 2) word
                    = upto j word ++ at_index j word :: at_index (j + 1) word
                      :: from (j + 2) word)
        by (rewrite <- Hw; exact Eq).
      apply app_inv_head in Eq'. injection Eq' as Eq' _.
      rewrite Eq' in Hw. eauto.
  - repeat split; try assumption.
    + exact (slip_left_out word _ _ _ (slice_at idx word Hidx)).
    + intros Eq. apply (f_equal len) in Eq.
      rewrite len_app, len_upto, len_from in Eq; lia.
  - repeat split; try assumption.
    + exact (slip_put_in word _ v _ (slice_join idx word) Hv).
    + intros Eq. apply (f_equal len) in Eq.
      rewrite len_app, len_cons, len_upto, len_from in Eq; lia.
Qed.

Lemma forallb_at_index (p : ascii -> bool) (i : Z) (w : str) :
  forallb p w = true -> 0 <= i < len w -> p (at_index i w) = true.
Proof.
  intros Hp Hi. rewrite forallb_forall in Hp. apply Hp.
  unfold at_index. apply nth_In. unfold len in Hi. lia.
Qed.

(** X10. For a word of three or more letters of [A-Z] and [a-z] every kind of
    mistake applies: [_get_mistake] never answers [None], whatever the
    draws. *)
Theorem get_mistake_always_for_ascii_words {F} `{PyFloat F} (raw : nat -> N)
    (word : str) (s : Engine F) :
  3 <= len word -> forallb ascii_letter word = true ->
  snd (fst (_get_mistake raw word s)) = Some word.
Proof.
  intros Hlen Hletters.
  assert (Halpha : isalpha word = true).
  { unfold isalpha. destruct word as [|c w]; [cbn in Hlen; lia|].
    apply forallb_forall. intros x Hx. rewrite forallb_forall in Hletters.
    pose proof (letter_is_listed_all x) as Hl. unfold letter_is_listed in Hl.
    rewrite (Hletters x Hx) in Hl. now apply andb_true_iff in Hl. }
  assert (Hok : (len word <? 3) || negb (isalpha word) = false).
  { rewrite Halpha. apply orb_false_iff. split; [apply Z.ltb_ge; lia|reflexivity]. }
  destruct (get_mistake_cases raw word s Hok)
    as (idx & Hidx & [(ns & c & El & Hc & E)|[(El & E)|[(j & Hj & E)|[E|(v & Hv & E)]]]]);
    rewrite E; cbn [fst snd]; try reflexivity.
  exfalso. pose proof (letter_is_listed_all (at_index idx word)) as Hl.
  unfold letter_is_listed in Hl.
  rewrite (forallb_at_index ascii_letter idx word Hletters Hidx), El in Hl.
  apply andb_true_iff in Hl. destruct Hl as (_ & Hl). discriminate.
Qed.

(** ** The time the cadence plans *)




(** ** The properties at concrete inputs *)

Lemma zero_correction_delay_never_corrects_witness :
  fixes (TypingWorker_run transposing None (py "teh quick") (careless 1%Q)) = [] /\
  key_presses (TypingWorker_run transposing None (py "teh quick") (careless 1%Q)) = [].
Proof.
  apply zero_correction_delay_never_corrects. vm_compute. discriminate.
Defined.

Lemma zero_chance_never_pauses_witness :
  filter is_thinking
    (statuses (TypingWorker_run (constant_draws 0) None (py "hello world")
                 (scenario 1%Q))) = [] /\
  filter is_afk
    (statuses (TypingWorker_run (constant_draws 0) None (py "hello world")
                 (scenario 1%Q))) = [].
Proof.
  destruct (zero_chance_never_pauses (constant_draws 0) None (py "hello world")
              (scenario 1%Q)) as (Hthinking & Hafk).
  split; [apply Hthinking|apply Hafk]; vm_compute; discriminate.
Defined.

Lemma stop_during_lead_in_types_nothing_witness :
  TypingWorker_run (constant_draws 0) (Some 2%nat) (py "hello world") (scenario 1%Q)
  = [status_update Starting_in_5_seconds; sleep (of_int 5);
     status_update Typing_started; status_update Typing_stopped_by_user; finished].
Proof.
  apply stop_during_lead_in_types_nothing.
  - vm_compute. discriminate.
  - vm_compute. lia.
Defined.

Lemma no_errors_typed_output_witness :
  exists processed left_over : list str,
    words (py "Hi. Yo") = processed ++ left_over /\
    (@None nat = None -> left_over = []) /\
    typed_chars (TypingWorker_run (constant_draws 0) None (py "Hi. Yo") (scenario 1%Q))
      = flat_map (fun w => w ++ separator w) processed /\
    key_presses (TypingWorker_run (constant_draws 0) None (py "Hi. Yo") (scenario 1%Q))
      = [].
Proof.
  apply no_errors_typed_output.
  - vm_compute. discriminate.
  - vm_compute. discriminate.
Defined.

Lemma plain_text_is_typed_whole_witness :
  exists cad : CadenceProfile Q,
    _calculate_delays (py "hello world") (scenario 1%Q) = inr cad /\
    typed_chars (TypingWorker_run (constant_draws 0) None (py "hello world")
                   (scenario 1%Q))
      = py "hello world" ++ [SPACE] /\
    fst (run_loop (constant_draws 0) None (py "hello world") (scenario 1%Q) (init cad))
      = len (py "hello world") + 1.
Proof.
  destruct (calculate_delays_succeeds (py "hello world") (scenario 1%Q)) as (cad & Hcad).
  - vm_compute. discriminate.
  - exists cad. split; [exact Hcad|].
    apply plain_text_is_typed_whole.
    + exact Hcad.
    + vm_compute. discriminate.
    + vm_compute. intuition discriminate.
    + vm_compute. repeat constructor.
Defined.


Lemma full_correction_delay_leaves_one_witness :
  (length (uncorrected_errors
             (snd (run_loop transposing None (py "teh quick") (sloppy 1%Q)
                     (init cadence_A)))) <= 1)%nat.
Proof.
  apply full_correction_delay_leaves_one. vm_compute. discriminate.
Defined.

Lemma get_mistake_always_for_ascii_words_witness :
  snd (fst (_get_mistake (constant_draws 0) (py "Hello") (init cadence_A)))
  = Some (py "Hello").
Proof.
  apply get_mistake_always_for_ascii_words.
  - vm_compute. discriminate.
  - vm_compute. reflexivity.
Defined.

(** ** [_sleep] against the clock *)

Section ClockLemmas.
Variable nap : Q -> Q.
Variable slack : Q.
Hypothesis nap_bounds : forall t : Q, (0.1 <= nap t /\ nap t <= slack)%Q.

Lemma Qle_bool_false (a b : Q) : Qle_bool a b = false <-> (b < a)%Q.
Proof.
  split.
  - intros E. apply Qnot_le_lt. intros Hle. apply Qle_bool_iff in Hle. congruence.
  - intros Hlt. destruct (Qle_bool a b) eqn:E; [|reflexivity].
    apply Qle_bool_iff in E. exfalso. apply (Qlt_irrefl b).
    eapply Qlt_le_trans; eauto.
Qed.

Lemma tenths_succ (k : nat) :
  (inject_Z (Z.of_nat (S k)) * 0.1 == inject_Z (Z.of_nat k) * 0.1 + 0.1)%Q.
Proof.
  rewrite Nat2Z.inj_succ. unfold Z.succ. rewrite inject_Z_plus. ring.
Qed.

Lemma enough_tenths (d : Q) :
  exists k : nat, (d <= inject_Z (Z.of_nat k) * 0.1)%Q.
Proof.
  exists (Z.to_nat (Qceiling (d * 10))).
  pose proof (Qle_ceiling (d * 10)) as Hc.
  assert (Hk : (inject_Z (Qceiling (d * 10))
                <= inject_Z (Z.of_nat (Z.to_nat (Qceiling (d * 10)))))%Q).
  { rewrite <- Zle_Qle. lia. }
  lra.
Qed.

Lemma while_paused_free (stopped_at : Q -> bool) (fuel : nat) (now : Q) :
  (1 <= fuel)%nat ->
  Clock.while_paused stopped_at (fun _ => false) nap fuel now = Some (inr now).
Proof. destruct fuel; [lia|reflexivity]. Qed.

(** From a time after which neither flag is set, the outer loop naps until
    the end time. *)
Lemma while_before_free (stopped_at paused_at : Q -> bool) (end_time : Q) (k : nat)
    (now : Q) :
  (forall t : Q, (now <= t)%Q -> stopped_at t = false /\ paused_at t = false) ->
  (end_time - now <= inject_Z (Z.of_nat k) * 0.1)%Q ->
  exists t : Q,
    (forall fuel : nat, (k + 2 <= fuel)%nat ->
       Clock.while_before stopped_at paused_at nap fuel end_time now = Some t) /\
    ((end_time <= now)%Q -> t = now) /\
    ((now < end_time)%Q ->
     (end_time <= t /\ now + 0.1 <= t /\ t < end_time + slack)%Q).
Proof.
  revert now. induction k as [|k IH]; intros now Hfree Hk.
  - assert (Hend : (end_time <= now)%Q)
      by (change (inject_Z (Z.of_nat 0)) with 0%Q in Hk; lra).
    exists now. split; [|split].
    + intros [|fuel] Hfuel; [lia|]. cbn [Clock.while_before].
      apply Qle_bool_iff in Hend. now rewrite Hend.
    + reflexivity.
    + intros Hlt. lra.
  - destruct (Qlt_le_dec now end_time) as [Hlt|Hend].
    + destruct (nap_bounds now) as (Hlo & Hhi).
      rewrite tenths_succ in Hk.
      destruct (IH (now + nap now)%Q) as (t & Hrun & Hpast & Hbefore); [|lra|].
      { intros t Ht. apply Hfree. lra. }
      destruct (Hfree now (Qle_refl now)) as (Hs & Hp).
      exists t. split; [|split].
      * intros [|fuel] Hfuel; [lia|]. cbn [Clock.while_before].
        apply Qle_bool_false in Hlt. rewrite Hlt, Hs. cbn [negb].
        destruct fuel as [|fuel]; [lia|]. cbn [Clock.while_paused]. rewrite Hp.
        apply Hrun. lia.
      * intros Hle. lra.
      * intros _. destruct (Qlt_le_dec (now + nap now) end_time) as [Hin|Hout].
        -- destruct (Hbefore Hin) as (H1 & H2 & H3). repeat split; lra.
        -- rewrite (Hpast Hout). repeat split; lra.
    + exists now. split; [|split].
      * intros [|fuel] Hfuel; [lia|]. cbn [Clock.while_before].
        apply Qle_bool_iff in Hend. now rewrite Hend.
      * reflexivity.
      * intros Hlt. lra.
Qed.

(** With a stop at [T] the inner loop ends, whatever the pause flag does:
    it is left before [T], or [_sleep] returns from it less than [slack]
    after [T]. *)
Lemma while_paused_stop (paused_at : Q -> bool) (T : Q) (k : nat) (now : Q) :
  (T - now <= inject_Z (Z.of_nat k) * 0.1)%Q -> (now < T)%Q ->
  exists r : Q + Q,
    (forall fuel : nat, (k + 1 <= fuel)%nat ->
       Clock.while_paused (fun t => Qle_bool T t) paused_at nap fuel now = Some r) /\
    match r with
    | inl t => (T <= t /\ t < T + slack)%Q
    | inr t => (now <= t /\ t < T)%Q
    end.
Proof.
  revert now. induction k as [|k IH]; intros now Hk Hlt.
  - change (inject_Z (Z.of_nat 0)) with 0%Q in Hk. lra.
  - destruct (nap_bounds now) as (Hlo & Hhi).
    destruct (paused_at now) eqn:Hp.
    + destruct (Qlt_le_dec (now + nap now) T) as [Hgo|Hstop].
      * rewrite tenths_succ in Hk.
        destruct (IH (now + nap now)%Q) as (r & Hrun & Hr); [lra|exact Hgo|].
        exists r. split.
        -- intros [|fuel] Hfuel; [lia|]. cbn [Clock.while_paused].
           apply Qle_bool_false in Hgo. rewrite Hp, Hgo. apply Hrun. lia.
        -- destruct r as [t|t]; [exact Hr|]. destruct Hr. split; lra.
      * exists (inl (now + nap now)%Q). split.
        -- intros [|fuel] Hfuel; [lia|]. cbn [Clock.while_paused].
           apply Qle_bool_iff in Hstop. now rewrite Hp, Hstop.
        -- split; lra.
    + exists (inr now). split.
      * intros [|fuel] Hfuel; [lia|]. cbn [Clock.while_paused]. now rewrite Hp.
      * split; [apply Qle_refl|exact Hlt].
Qed.

(** With a stop at [T] the outer loop returns at once when [T] is past, and
    less than [slack] after [T] otherwise, whatever the pause flag does. *)
Lemma while_before_stop (paused_at : Q -> bool) (T end_time : Q) (k : nat) (now : Q) :
  (T - now <= inject_Z (Z.of_nat k) * 0.1)%Q ->
  exists t : Q,
    (forall fuel : nat, (k + 2 <= fuel)%nat ->
       Clock.while_before (fun t => Qle_bool T t) paused_at nap fuel end_time now
       = Some t) /\
    (now <= t)%Q /\
    ((T <= now)%Q -> t = now) /\
    ((now < T)%Q -> (t < T + slack)%Q).
Proof.
  assert (Hnow : forall now : Q,
            (end_time <= now \/ T <= now)%Q ->
            exists t : Q,
              (forall fuel : nat, (k + 2 <= fuel)%nat ->
                 Clock.while_before (fun t => Qle_bool T t) paused_at nap fuel end_time now
                 = Some t) /\
              (now <= t)%Q /\
              ((T <= now)%Q -> t = now) /\
              ((now < T)%Q -> (t < T + slack)%Q)).
  { intros now0 Hcase. destruct (nap_bounds now0) as (Hlo & Hhi).
    exists now0. split; [|split; [|split]].
    - intros [|fuel] Hfuel; [lia|]. cbn [Clock.while_before].
      destruct (Qle_bool end_time now0) eqn:He; [reflexivity|]. cbn [negb].
      destruct Hcase as [Hend|Hstop].
      + apply Qle_bool_iff in Hend. congruence.
      + apply Qle_bool_iff in Hstop. now rewrite Hstop.
    - apply Qle_refl.
    - reflexivity.
    - intros Hlt. lra. }
  clear Hnow. revert now. induction k as [|k IH]; intros now Hk.
  - assert (Hstop : (T <= now)%Q)
      by (change (inject_Z (Z.of_nat 0)) with 0%Q in Hk; lra).
    destruct (nap_bounds now) as (Hlo & Hhi).
    exists now. split; [|split; [|split]].
    + intros [|fuel] Hfuel; [lia|]. cbn [Clock.while_before].
      destruct (Qle_bool end_time now); [reflexivity|]. cbn [negb].
      apply Qle_bool_iff in Hstop. now rewrite Hstop.
    + apply Qle_refl.
    + reflexivity.
    + intros Hlt. lra.
  - destruct (nap_bounds now) as (Hlo & Hhi).
    destruct (Qlt_le_dec now T) as [Hgo|Hstop].
    2: { exists now. split; [|split; [|split]].
         - intros [|fuel] Hfuel; [lia|]. cbn [Clock.while_before].
           destruct (Qle_bool end_time now); [reflexivity|]. cbn [negb].
           apply Qle_bool_iff in Hstop. now rewrite Hstop.
         - apply Qle_refl.
         - reflexivity.
         - intros Hlt. lra. }
    destruct (Qlt_le_dec now end_time) as [Hlt|Hend].
    2: { exists now. split; [|split; [|split]].
         - intros [|fuel] Hfuel; [lia|]. cbn [Clock.while_before].
           apply Qle_bool_iff in Hend. now rewrite Hend.
         - apply Qle_refl.
         - reflexivity.
         - intros _. lra. }
    destruct (while_paused_stop paused_at T (S k) now Hk Hgo) as (r & Hinner & Hr).
    destruct r as [t|t1].
    + exists t. split; [|split; [|split]].
      * intros [|fuel] Hfuel; [lia|]. cbn [Clock.while_before].
        apply Qle_bool_false in Hlt, Hgo. rewrite Hlt, Hgo. cbn [negb].
        rewrite Hinner by lia. reflexivity.
      * lra.
      * intros Hle. lra.
      * intros _. apply Hr.
    + destruct Hr as (Hr1 & Hr2). destruct (nap_bounds t1) as (Hlo1 & Hhi1).
      rewrite tenths_succ in Hk.
      destruct (IH (t1 + nap t1)%Q) as (t & Hrun & Hafter & Hpast & Hbefore); [lra|].
      exists t. split; [|split; [|split]].
      * intros [|fuel] Hfuel; [lia|]. cbn [Clock.while_before].
        apply Qle_bool_false in Hlt, Hgo. rewrite Hlt, Hgo. cbn [negb].
        rewrite Hinner by lia. apply Hrun. lia.
      * lra.
      * intros Hle. lra.
      * intros _. destruct (Qlt_le_dec (t1 + nap t1) T) as [Hin|Hout].
        -- now apply Hbefore.
        -- rewrite (Hpast Hout). lra.
Qed.

(** With a pause that ends at [R] and no stop, the inner loop naps until
    the first test of the flag that follows [R]. *)
Lemma while_paused_until (R : Q) (k : nat) (now : Q) :
  (R - now <= inject_Z (Z.of_nat k) * 0.1)%Q ->
  exists t : Q,
    (forall fuel : nat, (k + 1 <= fuel)%nat ->
       Clock.while_paused (fun _ => false) (fun t => negb (Qle_bool R t)) nap fuel now
       = Some (inr t)) /\
    ((R <= now)%Q -> t = now) /\
    ((now < R)%Q -> (R <= t /\ t < R + slack)%Q).
Proof.
  revert now. induction k as [|k IH]; intros now Hk.
  - assert (Hend : (R <= now)%Q)
      by (change (inject_Z (Z.of_nat 0)) with 0%Q in Hk; lra).
    exists now. split; [|split].
    + intros [|fuel] Hfuel; [lia|]. cbn [Clock.while_paused].
      apply Qle_bool_iff in Hend. now rewrite Hend.
    + reflexivity.
    + intros Hlt. lra.
  - destruct (nap_bounds now) as (Hlo & Hhi).
    destruct (Qlt_le_dec now R) as [Hlt|Hend].
    + rewrite tenths_succ in Hk.
      destruct (IH (now + nap now)%Q) as (t & Hrun & Hpast & Hbefore); [lra|].
      exists t. split; [|split].
      * intros [|fuel] Hfuel; [lia|]. cbn [Clock.while_paused].
        apply Qle_bool_false in Hlt. rewrite Hlt. cbn [negb].
        apply Hrun. lia.
      * intros Hle. lra.
      * intros _. destruct (Qlt_le_dec (now + nap now) R) as [Hin|Hout].
        -- destruct (Hbefore Hin). split; lra.
        -- rewrite (Hpast Hout). split; lra.
    + exists now. split; [|split].
      * intros [|fuel] Hfuel; [lia|]. cbn [Clock.while_paused].
        apply Qle_bool_iff in Hend. now rewrite Hend.
      * reflexivity.
      * intros Hlt. lra.
Qed.

End ClockLemmas.

(** X12. Without stop and pause, when every [time.sleep(0.1)] takes at least a
    tenth of a second and at most [slack], [_sleep] returns: at once when
    the duration is not positive, and otherwise after the duration and
    after a tenth of a second at least, less than [slack] late. *)
Theorem sleep_lasts_a_tenth_at_least (nap : Q -> Q) (slack duration now : Q) :
  (forall t : Q, (0.1 <= nap t /\ nap t <= slack)%Q) ->
  exists (n : nat) (t : Q),
    (forall fuel : nat, (n <= fuel)%nat ->
       Clock._sleep (fun _ => false) (fun _ => false) nap fuel duration now = Some t) /\
    ((duration <= 0)%Q -> t = now) /\
    ((0 < duration)%Q ->
     (now + duration <= t /\ now + 0.1 <= t /\ t < now + duration + slack)%Q).
Proof.
  intros Hnap. destruct (enough_tenths duration) as (k & Hk).
  destruct (while_before_free nap slack Hnap (fun _ => false) (fun _ => false)
              (now + duration) k now)
    as (t & Hrun & Hpast & Hbefore); [now split|lra|].
  exists (k + 2)%nat, t. split; [exact Hrun|]. split.
  - intros Hd. apply Hpast. lra.
  - intros Hd. apply Hbefore. lra.
Qed.

Lemma sleep_lasts_a_tenth_at_least_witness :
  exists (n : nat) (t : Q),
    (forall fuel : nat, (n <= fuel)%nat ->
       Clock._sleep (fun _ => false) (fun _ => false) (fun _ => 0.1%Q) fuel 0.02%Q 0%Q
       = Some t) /\
    ((0.02 <= 0)%Q -> t = 0%Q) /\
    ((0 < 0.02)%Q -> (0 + 0.02 <= t /\ 0 + 0.1 <= t /\ t < 0 + 0.02 + 0.1)%Q).
Proof.
  apply (sleep_lasts_a_tenth_at_least (fun _ => 0.1%Q) 0.1%Q 0.02%Q 0%Q).
  intros t. split; apply Qle_refl.
Defined.

(** X13. The sleep that follows a character lasts a tenth of a second at least:
    whatever the cadence, the draws and the character, [_type_char] asks
    for a positive sleep, which without stop and pause takes at least one
    [time.sleep(0.1)]. *)
Theorem type_char_takes_a_tenth (raw : nat -> N) (c : ascii) (s : Engine Q)
    (nap : Q -> Q) (slack now : Q) :
  (forall t : Q, (0.1 <= nap t /\ nap t <= slack)%Q) ->
  exists d : Q,
    trace (snd (_type_char raw c s)) = trace s ++ [kb_type c; sleep d] /\
    exists (n : nat) (t : Q),
      (forall fuel : nat, (n <= fuel)%nat ->
         Clock._sleep (fun _ => false) (fun _ => false) nap fuel d now = Some t) /\
      (now + 0.1 <= t)%Q.
Proof.
  intros Hnap. eexists. split; [apply trace_type_char|].
  rewrite fmax_Qmax.
  match goal with |- context [Qmax ?a ?b] => set (d := Qmax a b) end.
  assert (Hd : (0 < d)%Q).
  { apply Qlt_le_trans with (y := 0.02%Q); [reflexivity|]. apply Q.le_max_l. }
  destruct (enough_tenths d) as (k & Hk).
  destruct (while_before_free nap slack Hnap (fun _ => false) (fun _ => false)
              (now + d) k now)
    as (t & Hrun & _ & Hbefore); [now split|lra|].
  exists (k + 2)%nat, t. split; [exact Hrun|].
  destruct Hbefore as (_ & Hlong & _); [lra|exact Hlong].
Qed.

Lemma type_char_takes_a_tenth_witness :
  exists d : Q,
    trace (snd (_type_char (constant_draws 0) "a"%char (init cadence_A)))
    = trace (init cadence_A) ++ [kb_type "a"%char; sleep d] /\
    exists (n : nat) (t : Q),
      (forall fuel : nat, (n <= fuel)%nat ->
         Clock._sleep (fun _ => false) (fun _ => false) (fun _ => 0.1%Q) fuel d 0%Q
         = Some t) /\
      (0 + 0.1 <= t)%Q.
Proof.
  apply (type_char_takes_a_tenth (constant_draws 0) "a"%char (init cadence_A)
           (fun _ => 0.1%Q) 0.1%Q 0%Q).
  intros t. split; apply Qle_refl.
Defined.

(** X14. A stop request ends a sleep, paused or not: with a stop at [T], and
    whatever the pause flag does, a sleep asked for after [T] returns at
    once, and a sleep in progress at [T] returns less than [slack] after
    [T], however long its duration. *)
Theorem sleep_stops_within_a_nap (paused_at : Q -> bool) (nap : Q -> Q)
    (slack T duration now : Q) :
  (forall t : Q, (0.1 <= nap t /\ nap t <= slack)%Q) ->
  exists (n : nat) (t : Q),
    (forall fuel : nat, (n <= fuel)%nat ->
       Clock._sleep (fun t => Qle_bool T t) paused_at nap fuel duration now = Some t) /\
    (now <= t)%Q /\
    ((T <= now)%Q -> t = now) /\
    ((now < T)%Q -> (t < T + slack)%Q).
Proof.
  intros Hnap. destruct (enough_tenths (T - now)) as (k & Hk).
  destruct (while_before_stop nap slack Hnap paused_at T (now + duration) k now Hk)
    as (t & Hrun & Hrest).
  exists (k + 2)%nat, t. split; [exact Hrun|exact Hrest].
Qed.

Lemma sleep_stops_within_a_nap_witness :
  exists (n : nat) (t : Q),
    (forall fuel : nat, (n <= fuel)%nat ->
       Clock._sleep (fun t => Qle_bool 1 t) (fun _ => true) (fun _ => 0.1%Q) fuel
         180%Q 0%Q
       = Some t) /\
    (0 <= t)%Q /\
    ((1 <= 0)%Q -> t = 0%Q) /\
    ((0 < 1)%Q -> (t < 1 + 0.1)%Q).
Proof.
  apply (sleep_stops_within_a_nap (fun _ => true) (fun _ => 0.1%Q) 0.1%Q 1%Q 180%Q 0%Q).
  intros t. split; apply Qle_refl.
Defined.

(** X15. The time spent paused counts as slept: a sleep that begins during a
    pause which ends at [R], without stop, returns after its duration and
    at least a tenth of a second after [R], and less than [slack] after
    the later of its end time and [R + slack]. A pause that outlasts the
    sleep is followed by two naps at most. *)
Theorem sleep_counts_paused_time (nap : Q -> Q) (slack R duration now : Q) :
  (forall t : Q, (0.1 <= nap t /\ nap t <= slack)%Q) ->
  (0 < duration)%Q -> (now < R)%Q ->
  exists (n : nat) (t : Q),
    (forall fuel : nat, (n <= fuel)%nat ->
       Clock._sleep (fun _ => false) (fun t => negb (Qle_bool R t)) nap fuel duration now
       = Some t) /\
    (now + duration <= t /\ R + 0.1 <= t /\
     t < Qmax (now + duration) (R + slack) + slack)%Q.
Proof.
  intros Hnap Hd Hpaused.
  destruct (enough_tenths (R - now)) as (j & Hj).
  destruct (while_paused_until nap slack Hnap R j now Hj) as (t1 & Hinner & _ & Hresumed).
  destruct (Hresumed Hpaused) as (Ht1 & Ht1').
  destruct (Hnap t1) as (Hlo & Hhi).
  destruct (enough_tenths (now + duration - (t1 + nap t1))) as (k & Hk).
  destruct (while_before_free nap slack Hnap (fun _ => false)
              (fun t => negb (Qle_bool R t)) (now + duration) k (t1 + nap t1)%Q)
    as (t & Hrun & Hpast & Hbefore); [|exact Hk|].
  { intros u Hu. split; [reflexivity|]. apply negb_false_iff, Qle_bool_iff. lra. }
  exists (j + k + 3)%nat, t. split.
  - intros [|fuel] Hfuel; [lia|]. unfold Clock._sleep. cbn [Clock.while_before].
    assert (Hlt : (now < now + duration)%Q) by lra.
    apply Qle_bool_false in Hlt. rewrite Hlt. cbn [negb].
    rewrite Hinner by lia. apply Hrun. lia.
  - pose proof (Q.le_max_l (now + duration) (R + slack)) as Hm1.
    pose proof (Q.le_max_r (now + duration) (R + slack)) as Hm2.
    destruct (Qlt_le_dec (t1 + nap t1) (now + duration)) as [Hin|Hout].
    + destruct (Hbefore Hin) as (H1 & H2 & H3). repeat split; lra.
    + rewrite (Hpast Hout). repeat split; lra.
Qed.

Lemma sleep_counts_paused_time_witness :
  exists (n : nat) (t : Q),
    (forall fuel : nat, (n <= fuel)%nat ->
       Clock._sleep (fun _ => false) (fun t => negb (Qle_bool 10 t)) (fun _ => 0.1%Q)
         fuel 2%Q 0%Q
       = Some t) /\
    (0 + 2 <= t /\ 10 + 0.1 <= t /\ t < Qmax (0 + 2) (10 + 0.1) + 0.1)%Q.
Proof.
  apply (sleep_counts_paused_time (fun _ => 0.1%Q) 0.1%Q 10%Q 2%Q 0%Q).
  - intros t. split; apply Qle_refl.
  - reflexivity.
  - reflexivity.
Defined.

(** ** The paraphraser *)

(** X16. [ParaphraseWorker.run] always ends with the [finished] signal, and
    emits it twice when the API key is missing or empty (the [return] after
    the first one still runs the [finally] clause) and once otherwise.
    Without a key it prints the warning and emits one error, no status and
    no text. *)
Theorem paraphrase_worker_finished_twice_without_key (api_key : option str)
    (configure : str -> option str) (generate_content : str -> str + str)
    (text intensity : str) :
  let out := Paraphrasing.ParaphraseWorker_run api_key configure generate_content
               text intensity in
  last out Paraphrasing.printed_warning = Paraphrasing.finished /\
  length (filter Paraphrasing.is_finished out)
    = (if Paraphrasing.key_missing api_key then 2%nat else 1%nat) /\
  (Paraphrasing.key_missing api_key = true ->
   out = [Paraphrasing.printed_warning;
          Paraphrasing.error (py "Gemini not initialized (check API key).");
          Paraphrasing.finished; Paraphrasing.finished]).
Proof.
  intros out. subst out.
  unfold Paraphrasing.ParaphraseWorker_run, Paraphrasing.__init__,
    Paraphrasing.key_missing.
  destruct api_key as [[|c key]|].
  - cbn. now repeat split.
  - destruct (configure (c :: key)) as [e|].
    + cbn. repeat split. discriminate.
    + cbn [Paraphrasing.model]. unfold Paraphrasing.paraphrase.
      cbn [Paraphrasing.model].
      destruct (generate_content _) as [e|response]; cbn;
        repeat split; discriminate.
  - cbn. now repeat split.
Qed.

Lemma paraphrase_worker_finished_twice_without_key_witness :
  Paraphrasing.ParaphraseWorker_run None (fun _ => None) (fun p => inr p)
    (py "some text") (py "light")
  = [Paraphrasing.printed_warning;
     Paraphrasing.error (py "Gemini not initialized (check API key).");
     Paraphrasing.finished; Paraphrasing.finished].
Proof.
  apply (paraphrase_worker_finished_twice_without_key None (fun _ => None)
           (fun p => inr p) (py "some text") (py "light")).
  reflexivity.
Defined.

(** X17. A text is delivered at most once, and only by a worker whose model was
    made. It is the stripped response when the service answers, and no
    error is emitted then; when the service raises, the error signal
    carries its message and the text delivered is the source text,
    unchanged. *)
Theorem paraphrase_worker_delivers (api_key : option str)
    (configure : str -> option str) (generate_content : str -> str + str)
    (text intensity : str) :
  let out := Paraphrasing.ParaphraseWorker_run api_key configure generate_content
               text intensity in
  (length (filter Paraphrasing.is_text_ready out) <= 1)%nat /\
  (length (filter Paraphrasing.is_error out) <= 1)%nat /\
  forall result : str,
    In (Paraphrasing.paraphrased_text_ready result) out ->
    exists key : str,
      api_key = Some key /\ key <> [] /\ configure key = None /\
      match generate_content (Paraphrasing.prompt text intensity) with
      | inr response =>
          result = strip response /\ filter Paraphrasing.is_error out = []
      | inl e =>
          result = text /\
          filter Paraphrasing.is_error out
          = [Paraphrasing.error (py "Gemini API Error: " ++ e)]
      end.
Proof.
  intros out. subst out.
  unfold Paraphrasing.ParaphraseWorker_run, Paraphrasing.__init__.
  destruct api_key as [[|c key]|].
  - cbn. split; [lia|]. split; [lia|]. intros result Hin.
    repeat (destruct Hin as [Hin|Hin]; try discriminate). contradiction.
  - destruct (configure (c :: key)) as [e|] eqn:Ec.
    + cbn. split; [lia|]. split; [lia|]. intros result Hin.
      repeat (destruct Hin as [Hin|Hin]; try discriminate). contradiction.
    + cbn [Paraphrasing.model]. unfold Paraphrasing.paraphrase.
      cbn [Paraphrasing.model].
      destruct (generate_content _) as [e|response]; cbn;
        (split; [lia|]); (split; [lia|]); intros result Hin;
        exists (c :: key);
        (split; [reflexivity|]); (split; [discriminate|]); (split; [exact Ec|]);
        repeat (destruct Hin as [Hin|Hin]; try discriminate);
        try contradiction; injection Hin as <-; now split.
  - cbn. split; [lia|]. split; [lia|]. intros result Hin.
    repeat (destruct Hin as [Hin|Hin]; try discriminate). contradiction.
Qed.

(** ** The main window *)

Section WindowLemmas.
Context {F : Type} `{PyFloat F}.

Lemma setValue_bounded (lo hi v : Z) (widget : Slider) :
  lo <= hi -> bounded lo hi widget -> bounded lo hi (setValue v widget).
Proof.
  intros Hlh (Hmin & Hmax & Hv). unfold bounded, setValue. cbn.
  rewrite Hmin, Hmax. repeat split; lia.
Qed.

Lemma create_bounded (lo hi v : Z) :
  lo <= hi -> bounded lo hi (_create_slider_spinbox lo hi v).
Proof.
  intros Hlh. unfold _create_slider_spinbox. apply setValue_bounded; [exact Hlh|].
  unfold bounded. cbn. repeat split; lia.
Qed.

Lemma get_settings_offered (self : MainWindow (F := F)) :
  consistent self -> offered (get_settings self).
Proof.
  intros (_ & _ & _ & (_ & _ & Hd) & (_ & _ & Hw) & (_ & _ & Ht) & (_ & _ & Ha)
          & (_ & _ & He) & (_ & _ & Hc)).
  unfold offered, get_settings. cbn.
  split; [exists (value (duration_spinbox self)); split; [exact Hd|reflexivity]|].
  repeat split; lia.
Qed.

Lemma init_consistent : consistent (MainWindow__init__ (F := F)).
Proof.
  unfold consistent. cbn. repeat split; try reflexivity; try discriminate; try lia.
Qed.

Lemma set_slider_consistent (which : SliderName) (v : Z) (self : MainWindow (F := F)) :
  consistent self -> consistent (set_slider which v self).
Proof.
  intros (Ht & Hc & Hw & Hd & Hwpm & Hth & Hafk & He & Hcd).
  destruct which; unfold consistent;
    cbn [set_slider thread worker controls_enabled is_paused_state
      start_button duration_spinbox wpm_slider thinking_chance_slider
      afk_chance_slider error_slider correction_delay_slider];
    (split; [exact Ht|]); (split; [exact Hc|]); (split; [exact Hw|]);
    repeat (split; [first [assumption | apply setValue_bounded; [lia|assumption]]|]);
    first [assumption | apply setValue_bounded; [lia|assumption]].
Qed.

Lemma log_message_consistent (m : LogLine) (self : MainWindow (F := F)) :
  consistent self -> consistent (log_message m self).
Proof. intros Hc. exact Hc. Qed.

Lemma apply_profile_consistent (name : ProfileName) (self : MainWindow (F := F)) :
  consistent self -> consistent (_apply_profile name self).
Proof.
  intros Hc. unfold _apply_profile. destruct (PROFILES name); [|exact Hc].
  apply log_message_consistent. now repeat apply set_slider_consistent.
Qed.

Lemma on_process_finished_consistent (self : MainWindow (F := F)) :
  consistent self -> consistent (on_process_finished self).
Proof.
  intros (_ & _ & _ & Hs). unfold consistent. cbn.
  split; [tauto|]. split; [tauto|]. split; [now split|exact Hs].
Qed.

Lemma start_typing_consistent (self : MainWindow (F := F)) :
  consistent self -> consistent (start_typing self).
Proof.
  intros Hc. pose proof (get_settings_offered self Hc) as Ho.
  unfold start_typing. destruct (strip (source_text_edit self)) as [|c rest] eqn:Es;
    [exact Hc|].
  destruct Hc as (_ & _ & _ & Hs). unfold consistent. cbn.
  split; [split; discriminate|]. split; [split; discriminate|].
  split; [|exact Hs]. rewrite Es. repeat split; try discriminate; apply Ho.
Qed.

Lemma start_paraphrasing_consistent (self : MainWindow (F := F)) :
  consistent self -> controls_enabled self = true ->
  consistent (start_paraphrasing self).
Proof.
  intros Hc Hen. unfold start_paraphrasing.
  destruct (strip (source_text_edit self)) as [|c rest] eqn:Es; [exact Hc|].
  destruct Hc as (_ & Hce & Hw & Hs).
  assert (Hnone : worker self = None) by now apply Hce.
  rewrite Hnone in Hw. destruct Hw as (Hp & Hb).
  unfold consistent. cbn.
  split; [split; discriminate|]. split; [split; discriminate|].
  split; [|exact Hs]. rewrite Es. repeat split; try assumption; discriminate.
Qed.

Lemma handle_start_resume_consistent (self : MainWindow (F := F)) :
  consistent self -> consistent (outcome (handle_start_resume self) self).
Proof.
  intros Hc. unfold handle_start_resume.
  destruct (worker self) as [[text settings st pa|text i]|] eqn:Ew.
  - destruct Hc as (Ht & Hce & Hw & Hs). rewrite Ew in Hw, Ht, Hce.
    destruct Hw as (Hp & Hb & Hx & Ho).
    destruct (is_paused_state self); unfold consistent; cbn;
      (split; [split; [intros E; apply Ht in E; discriminate|discriminate]|]);
      (split; [split; [intros E; apply Hce in E; discriminate|discriminate]|]);
      (split; [|exact Hs]); auto.
  - exact Hc.
  - cbn [outcome]. now apply start_typing_consistent.
Qed.

Lemma stop_all_processes_consistent (self : MainWindow (F := F)) :
  consistent self -> consistent (stop_all_processes self).
Proof.
  intros Hc. unfold stop_all_processes.
  destruct (worker self) as [[text settings st pa|text i]|] eqn:Ew; try exact Hc.
  destruct Hc as (Ht & Hce & Hw & Hs). rewrite Ew in Hw, Ht, Hce.
  unfold consistent; cbn.
  split; [split; [intros E; apply Ht in E; discriminate|discriminate]|].
  split; [split; [intros E; apply Hce in E; discriminate|discriminate]|].
  split; [exact Hw|exact Hs].
Qed.

(** Every action keeps the window consistent. *)
Lemma dispatch_consistent (a : Action) (self : MainWindow (F := F)) :
  consistent self -> consistent (dispatch a self).
Proof.
  intros Hc. destruct a; cbn [dispatch].
  - now apply handle_start_resume_consistent.
  - now apply stop_all_processes_consistent.
  - destruct (controls_enabled self) eqn:E; [|exact Hc].
    now apply start_paraphrasing_consistent.
  - destruct (controls_enabled self); [|exact Hc]. now apply apply_profile_consistent.
  - destruct (controls_enabled self); exact Hc.
  - destruct (controls_enabled self); [|exact Hc]. now apply set_slider_consistent.
  - destruct (controls_enabled self); exact Hc.
  - unfold on_start_stop. destruct (worker self) eqn:Ew.
    + cbn [outcome]. now apply stop_all_processes_consistent.
    + now apply handle_start_resume_consistent.
  - unfold on_pause_resume. destruct (worker self) eqn:Ew.
    + now apply handle_start_resume_consistent.
    + exact Hc.
  - now apply on_process_finished_consistent.
  - unfold on_process_error. now apply on_process_finished_consistent.
  - exact Hc.
  - exact Hc.
  - exact Hc.
Qed.

Lemma after_snoc (actions : list Action) (a : Action) :
  after (F := F) (actions ++ [a]) = dispatch a (after actions).
Proof. unfold after. now rewrite fold_left_app. Qed.

End WindowLemmas.

(** X18. Whatever the user, the hotkeys and the workers' signals do, in any
    order, the window stays consistent: there is a thread exactly when
    there is a worker; the controls are enabled exactly when there is none,
    and then the button reads Start / Resume and nothing is paused; during
    typing [is_paused_state] is the engine's [is_paused] and the button
    reads Resume or Pause accordingly; a worker is only made for a text
    that is not blank, and a typing worker only with settings within the
    ranges of the widgets. *)
Theorem window_stays_consistent {F} `{PyFloat F} (actions : list (Action (F := F))) :
  consistent (after actions).
Proof.
  induction actions as [|a actions IH] using rev_ind.
  - apply init_consistent.
  - rewrite after_snoc. now apply dispatch_consistent.
Qed.

(** X19. The Start / Resume button and the pause hotkey are not guarded against
    a paraphrase in progress: once a paraphrase of a text that is not blank
    has been started, [handle_start_resume] raises [AttributeError], by the
    button and by the hotkey, while Stop and the stop hotkey leave the
    window as it is. *)
Theorem start_button_raises_during_paraphrase {F} `{PyFloat F}
    (self : MainWindow (F := F)) :
  controls_enabled self = true -> strip (source_text_edit self) <> [] ->
  let busy := dispatch click_paraphrase self in
  handle_start_resume busy
    = inl (AttributeError "'ParaphraseWorker' object has no attribute 'engine'") /\
  on_pause_resume busy
    = inl (AttributeError "'ParaphraseWorker' object has no attribute 'engine'") /\
  dispatch click_stop busy = busy /\
  on_start_stop busy = inr busy.
Proof.
  intros Hen Htext busy. subst busy. cbn [dispatch]. rewrite Hen.
  unfold start_paraphrasing.
  destruct (strip (source_text_edit self)) as [|c rest]; [contradiction|].
  repeat split.
Qed.

Lemma start_button_raises_during_paraphrase_witness :
  let busy := dispatch click_paraphrase
                (after (F := Q) [edit_text (py "some text")]) in
  handle_start_resume busy
    = inl (AttributeError "'ParaphraseWorker' object has no attribute 'engine'") /\
  on_pause_resume busy
    = inl (AttributeError "'ParaphraseWorker' object has no attribute 'engine'") /\
  dispatch click_stop busy = busy /\
  on_start_stop busy = inr busy.
Proof.
  apply (start_button_raises_during_paraphrase
           (after (F := Q) [edit_text (py "some text")])).
  - reflexivity.
  - vm_compute. discriminate.
Defined.






Lemma paraphrase_worker_delivers_witness :
  exists key : str,
    Some (py "key") = Some key /\ key <> [] /\
    (fun _ : str => @None str) key = None /\
    py "new text" = strip (py " new text ") /\
    filter Paraphrasing.is_error
      (Paraphrasing.ParaphraseWorker_run (Some (py "key")) (fun _ => None)
         (fun _ => inr (py " new text ")) (py "some text") (py "light")) = [].
Proof.
  apply (proj2 (proj2 (paraphrase_worker_delivers (Some (py "key")) (fun _ => None)
                         (fun _ => inr (py " new text ")) (py "some text")
                         (py "light"))) (py "new text")).
  vm_compute. auto.
Defined.

(** ** Pauses *)

Section Pauses.
Variable raw : nat -> N.
Variable text_to_type : str.
Variable settings : Settings Q.
Hypothesis thinking_range :
  fst (thinking_duration settings) <= snd (thinking_duration settings).
Hypothesis afk_range : fst (afk_duration settings) <= snd (afk_duration settings).









End Pauses.



(** ** Profiles *)

(** X23. Selecting a profile sets the five sliders to the profile's values, which
    [get_settings] then gives back; the total duration is left as it was.
    The two durations of the profile are not applied: the settings carry
    (2, 6) and (30, 180), which differ from the durations of every
    profile. *)
Theorem profile_durations_are_not_applied {F} `{PyFloat F}
    (profile_name : ProfileName) (profile : Profile.t) (self : MainWindow (F := F)) :
  consistent self -> PROFILES profile_name = Some profile ->
  let settings := get_settings (_apply_profile profile_name self) in
  wpm settings = Profile.wpm profile /\
  error_rate settings = Profile.error_rate profile /\
  correction_delay settings = Profile.correction_delay profile /\
  thinking_chance settings = Profile.thinking_chance profile /\
  afk_chance settings = Profile.afk_chance profile /\
  total_minutes settings = total_minutes (get_settings self) /\
  thinking_duration settings = (2, 6) /\
  afk_duration settings = (30, 180) /\
  thinking_duration settings <> Profile.thinking_duration profile /\
  afk_duration settings <> Profile.afk_duration profile.
Proof.
  intros (_ & _ & _ & _ & (Hw1 & Hw2 & _) & (Ht1 & Ht2 & _) & (Ha1 & Ha2 & _)
          & (He1 & He2 & _) & (Hc1 & Hc2 & _)) Hprofile settings.
  subst settings. unfold _apply_profile. rewrite Hprofile.
  unfold get_settings.
  cbn [log_message set_slider setValue wpm error_rate correction_delay thinking_chance
       afk_chance total_minutes thinking_duration afk_duration
       duration_spinbox wpm_slider thinking_chance_slider afk_chance_slider
       error_slider correction_delay_slider value minimum maximum].
  rewrite Hw1, Hw2, Ht1, Ht2, Ha1, Ha2, He1, He2, Hc1, Hc2.
  destruct profile_name; cbn in Hprofile; try discriminate;
    injection Hprofile as <-; cbn [Profile.wpm Profile.error_rate
      Profile.correction_delay Profile.thinking_chance Profile.afk_chance
      Profile.thinking_duration Profile.afk_duration];
    repeat split; try reflexivity; try discriminate.
Qed.

Lemma profile_durations_are_not_applied_witness :
  let settings := get_settings (F := Q)
                    (_apply_profile The_Methodical_Writer MainWindow__init__) in
  wpm settings = 70 /\ thinking_duration settings = (2, 6) /\
  thinking_duration settings <> (4, 10).
Proof.
  destruct (profile_durations_are_not_applied (F := Q) The_Methodical_Writer
              {| Profile.wpm := 70; Profile.error_rate := 5;
                 Profile.correction_delay := 50; Profile.thinking_chance := 10;
                 Profile.thinking_duration := (4, 10); Profile.afk_chance := 5;
                 Profile.afk_duration := (60, 180) |}
              MainWindow__init__ init_consistent eq_refl)
    as (Hw & _ & _ & _ & _ & _ & Ht & _ & Hn & _).
  split; [exact Hw|]. split; [exact Ht|exact Hn].
Defined.
